(** * CAG POS back-office: credential handling, role gating, range resolution
      and sales aggregation

    A shallow embedding of the API server ([src/unnamed/part_000]) and of the
    role helpers of the dashboard widget ([src/cag-pos-dashboard.js]).

    Conventions.
    - A JavaScript string is a [string]; its characters are the code units
      below 256.
    - A nullable SQL column is an [option]; [None] is [NULL].
    - [pool.query] is a step on an explicit store that may throw; what a
      handler throws reaches the error handler registered with
      [fastify.setErrorHandler], which answers 500.
    - Platform functions of the host ([bcrypt], [jsonwebtoken], [JSON.parse],
      [Date]) are either section variables or executable models of the
      fragment the program reaches; each says which. *)

From Stdlib Require Import ZArith QArith List String Ascii Bool Lia.
Import ListNotations.
Local Open Scope string_scope.
Local Open Scope Z_scope.

Set Implicit Arguments.
Set Warnings "-register-all".

(** ** String helpers shared by both programs *)

Module Str.

(** [s.startsWith(p)] *)
Fixpoint startsWith (s p : string) {struct p} : bool :=
  match p with
  | EmptyString => true
  | String a p' =>
      match s with
      | String b s' => Ascii.eqb a b && startsWith s' p'
      | EmptyString => false
      end
  end.

(** The characters [String.prototype.trim] strips and [\s] matches, among the
    code units below 256: TAB, LF, VT, FF, CR, SPACE and NBSP. *)
Definition isSpace (c : ascii) : bool :=
  let n := nat_of_ascii c in
  ((9 <=? n) && (n <=? 13))%nat || (n =? 32)%nat || (n =? 160)%nat.

Fixpoint trimStart (s : string) : string :=
  match s with
  | String c r => if isSpace c then trimStart r else s
  | EmptyString => EmptyString
  end.

(** [rev_append a b] is the reverse of [a] followed by [b]. *)
Fixpoint rev_append (a b : string) : string :=
  match a with
  | EmptyString => b
  | String c r => rev_append r (String c b)
  end.

Definition rev (s : string) : string := rev_append s EmptyString.

Definition trimEnd (s : string) : string := rev (trimStart (rev s)).

(** [s.trim()] *)
Definition trim (s : string) : string := trimEnd (trimStart s).

(** [Boolean(s)] for a string: the empty string is the only falsy one. *)
Definition truthy (s : string) : bool :=
  match s with EmptyString => false | _ => true end.

Definition isDigit (c : ascii) : bool :=
  let n := nat_of_ascii c in ((48 <=? n) && (n <=? 57))%nat.

Definition digitVal (c : ascii) : Z := Z.of_nat (nat_of_ascii c) - 48.

Fixpoint allDigits (s : string) : bool :=
  match s with
  | EmptyString => true
  | String c r => isDigit c && allDigits r
  end.

(** Value of a run of decimal digits read left to right, from accumulator
    [acc]. *)
Fixpoint digitsFrom (acc : Z) (s : string) : Z :=
  match s with
  | EmptyString => acc
  | String c r => digitsFrom (10 * acc + digitVal c) r
  end.

(** [c.toLowerCase()] on one code unit below 256: A-Z and the Latin-1 capitals
    (all of 192..222 but the multiplication sign 215) move up by 32. *)
Definition lowerChar (c : ascii) : ascii :=
  let n := nat_of_ascii c in
  if ((65 <=? n) && (n <=? 90))%nat
     || ((192 <=? n) && (n <=? 222) && negb (n =? 215))%nat
  then ascii_of_nat (n + 32) else c.

(** [s.toLowerCase()] *)
Fixpoint toLowerCase (s : string) : string :=
  match s with
  | EmptyString => EmptyString
  | String c r => String (lowerChar c) (toLowerCase r)
  end.

(** Decimal digits of a natural number, most significant first; [fuel] bounds
    the number of digits written. *)
Fixpoint natDigits (fuel : nat) (n : Z) (acc : string) : string :=
  match fuel with
  | O => acc
  | S f =>
      let acc' := String (ascii_of_nat (Z.to_nat (48 + n mod 10))) acc in
      if n / 10 =? 0 then acc' else natDigits f (n / 10) acc'
  end.

(** [String(n)] for an integer [n]. *)
Definition ofZ (n : Z) : string :=
  if n <? 0 then String "-" (natDigits (S (Z.to_nat (Z.log2 (- n)))) (- n) EmptyString)
  else natDigits (S (Z.to_nat (Z.log2 n))) n EmptyString.

(** [s.padStart(2, "0")] *)
Definition padStart2 (s : string) : string :=
  match s with
  | EmptyString => "00"
  | String c EmptyString => String "0" s
  | _ => s
  end.

(** The longest prefix of digits, and what follows it. *)
Fixpoint takeDigits (s : string) : string * string :=
  match s with
  | String c r =>
      if isDigit c then let (d, t) := takeDigits r in (String c d, t)
      else (EmptyString, s)
  | EmptyString => (EmptyString, EmptyString)
  end.

Definition hexVal (c : ascii) : option nat :=
  let n := nat_of_ascii c in
  if ((48 <=? n) && (n <=? 57))%nat then Some (n - 48)%nat
  else if ((65 <=? n) && (n <=? 70))%nat then Some (n - 55)%nat
  else if ((97 <=? n) && (n <=? 102))%nat then Some (n - 87)%nat
  else None.

End Str.

(** ** JavaScript values *)

Module Js.

(** A number: [NaN], an infinity, or a finite value as an exact rational.
    [Number] of a string and the division round to binary64 ([round64]
    below); there is one zero, without sign. *)
Inductive Num :=
| NaN
| Infinite (negative : bool)
| Fin (q : Q).

(** The values role data and request parameters range over.  An object is its
    own enumerable string-keyed properties in creation order. *)
Inductive Value :=
| JNull
| JUndefined
| JBool (b : bool)
| JNum (n : Num)
| JStr (s : string)
| JArr (items : list Value)
| JObj (props : list (string * Value)).

Definition isFinite (n : Num) : bool :=
  match n with Fin _ => true | _ => false end.

(** [Math.trunc] of a finite value: rounding toward zero. *)
Definition trunc (q : Q) : Z := Z.quot (Qnum q) (Zpos (Qden q)).

(** Digits after the decimal point of [r / d] (with [0 <= r < d]), at most
    [fuel] of them. *)
Fixpoint fracDigits (fuel : nat) (r d : Z) : string :=
  match fuel with
  | O => EmptyString
  | S f =>
      if r =? 0 then EmptyString
      else String (ascii_of_nat (Z.to_nat (48 + (10 * r) / d)))
                  (fracDigits f ((10 * r) mod d) d)
  end.

(** [String(n)] for a number: integers in decimal, other finite values as a
    plain decimal expansion (the exponent forms JavaScript uses beyond 1e21
    and below 1e-6 are not modelled). *)
Definition numToString (n : Num) : string :=
  match n with
  | NaN => "NaN"
  | Infinite false => "Infinity"
  | Infinite true => "-Infinity"
  | Fin q =>
      let a := Z.abs (Qnum q) in
      let d := Zpos (Qden q) in
      let body :=
        if a mod d =? 0 then Str.ofZ (a / d)
        else Str.ofZ (a / d) ++ "." ++ fracDigits 20 (a mod d) d in
      if (Qnum q <? 0) && negb (a =? 0) then String "-" body else body
  end.

Fixpoint join (sep : string) (l : list string) : string :=
  match l with
  | [] => EmptyString
  | [x] => x
  | x :: r => x ++ sep ++ join sep r
  end.

(** [String(v)].  An array joins its elements with commas, [null] and
    [undefined] elements printing as nothing; a plain object prints as
    [[object Object]]. *)
Fixpoint toString (v : Value) : string :=
  match v with
  | JNull => "null"
  | JUndefined => "undefined"
  | JBool true => "true"
  | JBool false => "false"
  | JNum n => numToString n
  | JStr s => s
  | JArr items =>
      join "," (map (fun x => match x with
                              | JNull | JUndefined => EmptyString
                              | _ => toString x
                              end) items)
  | JObj _ => "[object Object]"
  end.

(** Truthiness: what [!v] and [v && ...] test. *)
Definition truthy (v : Value) : bool :=
  match v with
  | JNull | JUndefined => false
  | JBool b => b
  | JNum NaN => false
  | JNum (Infinite _) => true
  | JNum (Fin q) => negb (Qnum q =? 0)
  | JStr s => Str.truthy s
  | JArr _ | JObj _ => true
  end.

(** A property key is an array index when it is the canonical decimal string
    of an integer in [0, 2^32 - 2]. *)
Definition isArrayIndex (k : string) : bool :=
  Str.truthy k && Str.allDigits k
  && String.eqb (Str.ofZ (Str.digitsFrom 0 k)) k
  && (Str.digitsFrom 0 k <? 4294967295).

Fixpoint insertIndex (k : string) (l : list string) : list string :=
  match l with
  | [] => [k]
  | x :: r =>
      if Str.digitsFrom 0 k <=? Str.digitsFrom 0 x then k :: l
      else x :: insertIndex k r
  end.

(** [Object.keys(o)]: array-index keys in ascending numeric order, then the
    other keys in creation order. *)
Definition keys (props : list (string * Value)) : list string :=
  let ks := map fst props in
  fold_right insertIndex [] (filter isArrayIndex ks)
  ++ filter (fun k => negb (isArrayIndex k)) ks.

(** Property assignment while an object literal is read: an existing key keeps
    its place and takes the new value, a new key goes last. *)
Fixpoint setProp (k : string) (v : Value) (props : list (string * Value))
  : list (string * Value) :=
  match props with
  | [] => [(k, v)]
  | (k', v') :: r =>
      if String.eqb k k' then (k, v) :: r else (k', v') :: setProp k v r
  end.

(** The value of [mant * 10 ^ e]. *)
Definition scale10 (mant e : Z) : Q :=
  if (0 <=? e)%Z then Qmake (mant * 10 ^ e) 1
  else Qmake mant (Z.to_pos (10 ^ (- e))).

(** Value of a run of digits in base [b], from accumulator [acc]; [None] at
    a character that is no digit of that base. *)
Fixpoint radixFrom (b : nat) (acc : Z) (s : string) : option Z :=
  match s with
  | EmptyString => Some acc
  | String c r =>
      match Str.hexVal c with
      | Some v =>
          if (v <? b)%nat then radixFrom b (Z.of_nat b * acc + Z.of_nat v) r
          else None
      | None => None
      end
  end.

(** [num / den] rounded to the nearest integer, a tie going to the even
    one. *)
Definition roundHalfEven (num den : Z) : Z :=
  let q := num / den in
  let r := num mod den in
  if 2 * r <? den then q
  else if den <? 2 * r then q + 1
  else if Z.even q then q else q + 1.

(** The integer part of the binary logarithm of [a / d], both positive. *)
Definition log2Ratio (a d : Z) : Z :=
  let k := Z.log2 a - Z.log2 d in
  if (if 0 <=? k then d * 2 ^ k <=? a else d <=? a * 2 ^ (- k)) then k
  else k - 1.

(** The binary64 number nearest to [q], a tie going to the even mantissa:
    a mantissa [m] of at most 53 bits and a unit [2 ^ e] with [e] from
    -1074 on, and an infinity from [2 ^ 1024] on. *)
Definition round64 (q : Q) : Num :=
  let q := Qred q in
  let a := Z.abs (Qnum q) in
  let d := Zpos (Qden q) in
  if a =? 0 then Fin 0
  else
    let e := Z.max (log2Ratio a d - 52) (-1074) in
    let m := if 0 <=? e then roundHalfEven a (d * 2 ^ e)
             else roundHalfEven (a * 2 ^ (- e)) d in
    if (0 <=? e) && (2 ^ 1024 <=? m * 2 ^ e) then Infinite (Qnum q <? 0)
    else
      let s := if Qnum q <? 0 then - m else m in
      Fin (Qred (if 0 <=? e then Qmake (s * 2 ^ e) 1
                 else Qmake s (Z.to_pos (2 ^ (- e))))).

(** [x / y] on numbers. *)
Definition div (x y : Num) : Num :=
  match x, y with
  | NaN, _ | _, NaN => NaN
  | Infinite _, Infinite _ => NaN
  | Infinite s, Fin q => Infinite (xorb s (Qnum q <? 0))
  | Fin _, Infinite _ => Fin 0
  | Fin p, Fin q =>
      if Qnum q =? 0
      then (if Qnum p =? 0 then NaN else Infinite (Qnum p <? 0))
      else round64 (p / q)
  end.

(** An unsigned decimal literal of [Number(s)]: digits with an optional
    fraction and exponent, digits being required on one side of the point;
    the value written, before it is rounded. *)
Definition decimalLiteral (s : string) : option Q :=
  let (ip, s1) := Str.takeDigits s in
  let (fp, s2) :=
    match s1 with
    | String "."%char r => Str.takeDigits r
    | _ => (EmptyString, s1)
    end in
  if negb (Str.truthy ip || Str.truthy fp) then None
  else
    let mant := Str.digitsFrom 0 (ip ++ fp) in
    let shift := Z.of_nat (String.length fp) in
    match s2 with
    | EmptyString => Some (scale10 mant (- shift))
    | String c r =>
        if Ascii.eqb c "e" || Ascii.eqb c "E" then
          let (eneg, r1) :=
            match r with
            | String "-"%char t => (true, t)
            | String "+"%char t => (false, t)
            | _ => (false, r)
            end in
          if Str.truthy r1 && Str.allDigits r1
          then
            let e := Str.digitsFrom 0 r1 in
            Some (scale10 mant ((if eneg then - e else e) - shift))
          else None
        else None
    end.

(** [Number(s)] for a string: white space around the literal is dropped, the
    empty string is 0, then an infinity, a signed decimal literal, or an
    unsigned literal in base 16, 8 or 2; anything else is [NaN].  The value
    of a literal is rounded to binary64, so a literal from about 1.8e308 on
    is an infinity. *)
Definition stringToNumber (s : string) : Num :=
  let t := Str.trim s in
  let unsigned (u : string) : Num :=
    if String.eqb u "Infinity" then Infinite false
    else match decimalLiteral u with Some q => round64 q | None => NaN end in
  match t with
  | EmptyString => Fin 0
  | String "-"%char u =>
      match unsigned u with
      | Fin q => Fin (- q)
      | Infinite _ => Infinite true
      | NaN => NaN
      end
  | String "+"%char u => unsigned u
  | String "0"%char (String x u) =>
      let radix (b : nat) :=
        if Str.truthy u
        then match radixFrom b 0 u with
             | Some v => round64 (inject_Z v)
             | None => NaN
             end
        else NaN in
      if Ascii.eqb x "x" || Ascii.eqb x "X" then radix 16%nat
      else if Ascii.eqb x "o" || Ascii.eqb x "O" then radix 8%nat
      else if Ascii.eqb x "b" || Ascii.eqb x "B" then radix 2%nat
      else unsigned t
  | _ => unsigned t
  end.

(** [Number(v)]; an array goes through its string. *)
Definition toNumber (v : Value) : Num :=
  match v with
  | JNull => Fin 0
  | JUndefined => NaN
  | JBool true => Fin 1
  | JBool false => Fin 0
  | JNum n => n
  | JStr s => stringToNumber s
  | JArr _ => stringToNumber (toString v)
  | JObj _ => NaN
  end.

End Js.

(** ** [JSON.parse]

    An executable model of the platform parser on strings of code units below
    256: the JSON grammar of ECMA-404, a thrown [SyntaxError] being [None].
    A [\u] escape above [00FF] has no character in this model and is refused;
    numbers are exact rationals. *)

Module Json.

Local Open Scope char_scope.

Definition dquote : ascii := "034".

Definition isWs (c : ascii) : bool :=
  let n := nat_of_ascii c in
  ((n =? 32) || (n =? 9) || (n =? 10) || (n =? 13))%nat.

Fixpoint skipWs (s : string) : string :=
  match s with
  | String c r => if isWs c then skipWs r else s
  | EmptyString => EmptyString
  end.

Definition hex4 (a b c d : ascii) : option nat :=
  match Str.hexVal a, Str.hexVal b, Str.hexVal c, Str.hexVal d with
  | Some x, Some y, Some z, Some w => Some (((x * 16 + y) * 16 + z) * 16 + w)%nat
  | _, _, _, _ => None
  end.

(** The body of a string literal, after its opening quote; [acc] holds the
    characters read so far, last first. *)
Fixpoint parseString (s : string) (acc : string) : option (string * string) :=
  match s with
  | EmptyString => None
  | String c r =>
      if Ascii.eqb c dquote then Some (Str.rev acc, r)
      else if Ascii.eqb c "\" then
        match r with
        | String "u" (String h1 (String h2 (String h3 (String h4 t)))) =>
            match hex4 h1 h2 h3 h4 with
            | Some n =>
                if (n <? 256)%nat then parseString t (String (ascii_of_nat n) acc)
                else None
            | None => None
            end
        | String e t =>
            if Ascii.eqb e dquote then parseString t (String dquote acc)
            else if Ascii.eqb e "\" then parseString t (String "\" acc)
            else if Ascii.eqb e "/" then parseString t (String "/" acc)
            else if Ascii.eqb e "b" then parseString t (String "008" acc)
            else if Ascii.eqb e "f" then parseString t (String "012" acc)
            else if Ascii.eqb e "n" then parseString t (String "010" acc)
            else if Ascii.eqb e "r" then parseString t (String "013" acc)
            else if Ascii.eqb e "t" then parseString t (String "009" acc)
            else None
        | EmptyString => None
        end
      else if (nat_of_ascii c <? 32)%nat then None
      else parseString r (String c acc)
  end.

(** A number literal: [-? int frac? exp?]. *)
Definition parseNumber (s : string) : option (Js.Num * string) :=
  let (neg, s1) := match s with String "-" r => (true, r) | _ => (false, s) end in
  let (ip, s2) :=
    match s1 with
    | String "0" r => (String "0" EmptyString, r)
    | _ => Str.takeDigits s1
    end in
  if negb (Str.truthy ip) then None else
  let frac :=
    match s2 with
    | String "." r =>
        let (fp, t) := Str.takeDigits r in
        if Str.truthy fp then Some (fp, t) else None
    | _ => Some (EmptyString, s2)
    end in
  match frac with
  | None => None
  | Some (fp, s3) =>
      let expo :=
        match s3 with
        | String c r =>
            if Ascii.eqb c "e" || Ascii.eqb c "E" then
              let (eneg, r1) :=
                match r with
                | String "-" t => (true, t)
                | String "+" t => (false, t)
                | _ => (false, r)
                end in
              let (ed, t) := Str.takeDigits r1 in
              if Str.truthy ed
              then Some ((if eneg then - Str.digitsFrom 0 ed
                          else Str.digitsFrom 0 ed)%Z, t)
              else None
            else Some (0%Z, s3)
        | EmptyString => Some (0%Z, s3)
        end in
      match expo with
      | None => None
      | Some (e, s4) =>
          let mant := Str.digitsFrom 0 (ip ++ fp) in
          let q := Js.scale10 (if neg then - mant else mant)%Z
                           (e - Z.of_nat (String.length fp))%Z in
          Some (Js.Fin q, s4)
      end
  end.

(** [drop n s]: [s] without its first [n] characters. *)
Fixpoint drop (n : nat) (s : string) : string :=
  match n, s with
  | S k, String _ r => drop k r
  | _, _ => s
  end.

Fixpoint parseValue (fuel : nat) (s : string) : option (Js.Value * string) :=
  match fuel with
  | O => None
  | S f =>
      match skipWs s with
      | EmptyString => None
      | String c r as s' =>
          if Ascii.eqb c "[" then
            match skipWs r with
            | String "]" t => Some (Js.JArr [], t)
            | _ => parseElems f r []
            end
          else if Ascii.eqb c "{" then
            match skipWs r with
            | String "}" t => Some (Js.JObj [], t)
            | _ => parseMembers f r []
            end
          else if Ascii.eqb c dquote then
            match parseString r EmptyString with
            | Some (str, t) => Some (Js.JStr str, t)
            | None => None
            end
          else if Str.startsWith s' "true" then Some (Js.JBool true, drop 4 s')
          else if Str.startsWith s' "false" then Some (Js.JBool false, drop 5 s')
          else if Str.startsWith s' "null" then Some (Js.JNull, drop 4 s')
          else
            match parseNumber s' with
            | Some (n, t) => Some (Js.JNum n, t)
            | None => None
            end
      end
  end

with parseElems (fuel : nat) (s : string) (acc : list Js.Value)
  : option (Js.Value * string) :=
  match fuel with
  | O => None
  | S f =>
      match parseValue f s with
      | Some (v, t) =>
          match skipWs t with
          | String "," t' => parseElems f t' (v :: acc)
          | String "]" t' => Some (Js.JArr (List.rev (v :: acc)), t')
          | _ => None
          end
      | None => None
      end
  end

with parseMembers (fuel : nat) (s : string) (acc : list (string * Js.Value))
  : option (Js.Value * string) :=
  match fuel with
  | O => None
  | S f =>
      match skipWs s with
      | String c r =>
          if Ascii.eqb c dquote then
            match parseString r EmptyString with
            | Some (k, t) =>
                match skipWs t with
                | String ":" t1 =>
                    match parseValue f t1 with
                    | Some (v, t2) =>
                        match skipWs t2 with
                        | String "," t3 => parseMembers f t3 (Js.setProp k v acc)
                        | String "}" t3 => Some (Js.JObj (Js.setProp k v acc), t3)
                        | _ => None
                        end
                    | None => None
                    end
                | _ => None
                end
            | None => None
            end
          else None
      | EmptyString => None
      end
  end.

(** [JSON.parse(s)]: one value, with nothing but white space around it. *)
Definition parse (s : string) : option Js.Value :=
  match parseValue (2 * String.length s + 2) s with
  | Some (v, t) =>
      match skipWs t with
      | EmptyString => Some v
      | _ => None
      end
  | None => None
  end.

End Json.

(** ** Splitting, as both role parsers use it *)

Module Split.

Local Open Scope char_scope.

(** A character the separator pattern [[,\s]+] matches. *)
Definition isSep (c : ascii) : bool := Ascii.eqb c "," || Str.isSpace c.

(** [s.split(/[,\s]+/)]: [cur] is the piece being read, last character first;
    [inSep] tells that the previous character belonged to a separator. *)
Fixpoint splitSeps (s : string) (cur : string) (inSep : bool) : list string :=
  match s with
  | EmptyString => [Str.rev cur]
  | String c r =>
      if isSep c then
        if inSep then splitSeps r cur true
        else Str.rev cur :: splitSeps r EmptyString true
      else splitSeps r (String c cur) false
  end.

(** [s.split(sep)] for a one-character separator. *)
Fixpoint splitChar (sep : ascii) (s : string) (cur : string) : list string :=
  match s with
  | EmptyString => [Str.rev cur]
  | String c r =>
      if Ascii.eqb c sep then Str.rev cur :: splitChar sep r EmptyString
      else splitChar sep r (String c cur)
  end.

(** [s.split(/[,\s]+/).map(x => x.trim()).filter(Boolean)] *)
Definition tokens (s : string) : list string :=
  filter Str.truthy (map Str.trim (splitSeps s EmptyString false)).

(** [set.has(x)] for a set of strings kept as a list. *)
Definition mem (x : string) (l : list string) : bool :=
  existsb (String.eqb x) l.

End Split.

(** ** [Date], in whole days

    The day arithmetic of ECMA-262 (section Time Values and Time Range).  A
    time value at midnight UTC is kept as its day number since 1970-01-01;
    [None] is the invalid date. *)

Module JsDate.

Definition DayFromYear (y : Z) : Z :=
  365 * (y - 1970) + (y - 1969) / 4 - (y - 1901) / 100 + (y - 1601) / 400.

Definition InLeapYear (y : Z) : bool :=
  (y mod 4 =? 0) && (negb (y mod 100 =? 0) || (y mod 400 =? 0)).

(** Days of the year before month [m] (0 is January). *)
Definition daysBefore (leap : bool) (m : Z) : Z :=
  let l := if leap then 1 else 0 in
  if m <=? 0 then 0 else if m =? 1 then 31 else if m =? 2 then 59 + l
  else if m =? 3 then 90 + l else if m =? 4 then 120 + l
  else if m =? 5 then 151 + l else if m =? 6 then 181 + l
  else if m =? 7 then 212 + l else if m =? 8 then 243 + l
  else if m =? 9 then 273 + l else if m =? 10 then 304 + l
  else 334 + l.

(** [MakeDay(year, month, date)] *)
Definition MakeDay (year month date : Z) : Z :=
  let ym := year + month / 12 in
  let mn := month mod 12 in
  DayFromYear ym + daysBefore (InLeapYear ym) mn + date - 1.

(** The largest [y <= from] with [DayFromYear y <= n], looking at most [fuel]
    years down. *)
Fixpoint yearSearch (fuel : nat) (from n : Z) : Z :=
  match fuel with
  | O => from
  | S f => if DayFromYear from <=? n then from else yearSearch f (from - 1) n
  end.

(** [YearFromTime]: the year day [n] falls in. *)
Definition YearFromDay (n : Z) : Z :=
  yearSearch (Z.to_nat (Z.abs n / 365 + 2))
             (if n <? 0 then 1970 else 1970 + n / 365 + 1) n.

Definition DayWithinYear (n : Z) : Z := n - DayFromYear (YearFromDay n).

(** [MonthFromTime], 0 being January. *)
Definition MonthFromDay (n : Z) : Z :=
  let leap := InLeapYear (YearFromDay n) in
  let d := DayWithinYear n in
  if d <? daysBefore leap 1 then 0 else if d <? daysBefore leap 2 then 1
  else if d <? daysBefore leap 3 then 2 else if d <? daysBefore leap 4 then 3
  else if d <? daysBefore leap 5 then 4 else if d <? daysBefore leap 6 then 5
  else if d <? daysBefore leap 7 then 6 else if d <? daysBefore leap 8 then 7
  else if d <? daysBefore leap 9 then 8 else if d <? daysBefore leap 10 then 9
  else if d <? daysBefore leap 11 then 10 else 11.

(** [DateFromTime]: the day of the month, from 1. *)
Definition DateFromDay (n : Z) : Z :=
  DayWithinYear n - daysBefore (InLeapYear (YearFromDay n)) (MonthFromDay n) + 1.

(** [TimeClip]: time values reach 100,000,000 days either side of the epoch. *)
Definition TimeClip (n : Z) : option Z :=
  if Z.abs n <=? 100000000 then Some n else None.

(** [new Date(Date.UTC(y, m, d))]: arguments are truncated to integers and a
    year from 0 to 99 means 1900 + year. *)
Definition UTC (y m d : Js.Num) : option Z :=
  match y, m, d with
  | Js.Fin qy, Js.Fin qm, Js.Fin qd =>
      let yi := Js.trunc qy in
      let yr := if (0 <=? yi) && (yi <=? 99) then 1900 + yi else yi in
      TimeClip (MakeDay yr (Js.trunc qm) (Js.trunc qd))
  | _, _, _ => None
  end.

(** [dt.setUTCDate(dt.getUTCDate() + delta)] *)
Definition addUTCDate (dt : option Z) (delta : Z) : option Z :=
  match dt with
  | None => None
  | Some n =>
      TimeClip (MakeDay (YearFromDay n) (MonthFromDay n) (DateFromDay n + delta))
  end.

End JsDate.

(** ** The API server *)

Module Api.

(** The part of [CFG] the modelled handlers read. *)
Record Config := {
  jwtSecret : string;
  jwtExpires : string;
  migratePlaintextPasswords : bool;
  migratePlaintextPasswordsOverwrite : bool;
  enforceRoles : bool;
  writeRoles : list string
}.

(** [parseCsv(s)] *)
Definition parseCsv (s : string) : list string :=
  filter Str.truthy (map Str.trim (Split.splitChar ","%char s EmptyString)).

(** How [CFG.writeRoles] is built from the [WRITE_ROLES] setting. *)
Definition mkWriteRoles (setting : string) : list string :=
  map Str.toLowerCase (parseCsv setting).

(** A row of [users].  [password_hash] is [None] also when the table has no
    such column. *)
Record UserRow := {
  id_user : Z;
  username : string;
  password : option string;
  password_hash : option string;
  roles : Js.Value;
  last_login : option Z;
  is_active : option Z
}.

(** [parseRoles(raw)] *)
Definition parseRoles (raw : Js.Value) : list string :=
  match raw with
  | Js.JNull | Js.JUndefined => []
  | Js.JArr items => map Js.toString items
  | Js.JObj props => Js.keys props
  | _ =>
      let s := Str.trim (Js.toString raw) in
      if negb (Str.truthy s) then []
      else
        match Json.parse s with
        | Some (Js.JArr j) => map Js.toString j
        | Some (Js.JObj props) => Js.keys props
        | _ => Split.tokens s
        end
  end.

(** [hasWriteRole(user)]; [user] is [None] for a missing [req.cagUser]. *)
Definition hasWriteRole (CFG : Config) (user : option UserRow) : bool :=
  if negb (enforceRoles CFG) then true
  else
    let raw := match user with Some u => roles u | None => Js.JUndefined end in
    let set := map Str.toLowerCase (parseRoles raw) in
    existsb (fun r => Split.mem r set) (writeRoles CFG).

(** *** Date ranges *)

(** [isISODate(s)]: a string the pattern [^\d{4}-\d{2}-\d{2}$] matches, that
    is ten characters, digits but for the hyphens in fifth and eighth place. *)
Definition isISODate (s : Js.Value) : bool :=
  match s with
  | Js.JStr (String y1 (String y2 (String y3 (String y4 (String h1
      (String m1 (String m2 (String h2 (String d1 (String d2
        EmptyString)))))))))) =>
      Str.isDigit y1 && Str.isDigit y2 && Str.isDigit y3 && Str.isDigit y4
      && Ascii.eqb h1 "-" && Str.isDigit m1 && Str.isDigit m2
      && Ascii.eqb h2 "-" && Str.isDigit d1 && Str.isDigit d2
  | _ => false
  end.

(** [!n] for a number. *)
Definition numFalsy (n : Js.Num) : bool := negb (Js.truthy (Js.JNum n)).

(** [n - 1] *)
Definition numPred (n : Js.Num) : Js.Num :=
  match n with
  | Js.Fin q => Js.Fin (q - 1)
  | _ => n
  end.

(** [addDaysIso(iso, deltaDays)]; [None] is [null].  A missing part of the
    split is [undefined], falsy like the [NaN] used for it here. *)
Definition addDaysIso (iso : Js.Value) (deltaDays : Z) : option string :=
  let s := if Js.truthy iso then Js.toString iso else EmptyString in
  let parts := map Js.stringToNumber (Split.splitChar "-"%char s EmptyString) in
  let y := nth 0 parts Js.NaN in
  let m := nth 1 parts Js.NaN in
  let d := nth 2 parts Js.NaN in
  if numFalsy y || numFalsy m || numFalsy d then None
  else
    match JsDate.addUTCDate (JsDate.UTC y (numPred m) d) deltaDays with
    | None => Some "NaN-NaN-NaN"
    | Some n =>
        let yy := JsDate.YearFromDay n in
        let mm := Str.padStart2 (Str.ofZ (JsDate.MonthFromDay n + 1)) in
        let dd := Str.padStart2 (Str.ofZ (JsDate.DateFromDay n)) in
        Some (Str.ofZ yy ++ "-" ++ mm ++ "-" ++ dd)
    end.

Record SqlRange := { from : string; toExcl : string }.

(** [rangeToSql(fromIso, toIso)]; [None] is [null]. *)
Definition rangeToSql (fromIso toIso : Js.Value) : option SqlRange :=
  if negb (isISODate fromIso) || negb (isISODate toIso) then None
  else
    let from := Js.toString fromIso ++ " 00:00:00" in
    let toExcl :=
      match addDaysIso toIso 1 with
      | Some t => t
      | None => "null"
      end ++ " 00:00:00" in
    Some {| from := from; toExcl := toExcl |}.

(** *** The store and the handler monad *)

Record SaleRow := {
  id_sale : Z;
  total_amount : option Q;
  sale_updated : string
}.

Record OfferRow := {
  id_offer : Z;
  offer_name : string
}.

(** A row of [product_offers_products]. *)
Record OfferProduct := {
  offer_id : Z;
  product_id : Z
}.

Record Db := {
  users : list UserRow;
  sales : list SaleRow;
  product_offers : list OfferRow;
  product_offers_products : list OfferProduct
}.

(** What a handler runs against: the committed tables, the working copy of
    the transaction open on the handler's connection (if any), the clock
    [NOW()] reads, and for each coming statement whether the store fails it
    ([true] fails; past the end of the list statements succeed). *)
Record World := {
  db : Db;
  tx : option Db;
  clock : Z;
  faults : list bool
}.

Inductive Result (A : Type) :=
| Ok (a : A)
| Throw.
Arguments Ok {A} a.
Arguments Throw {A}.

Definition M (A : Type) := World -> Result A * World.

Definition ret {A} (a : A) : M A := fun w => (Ok a, w).

Definition bind {A B} (m : M A) (k : A -> M B) : M B :=
  fun w => match m w with
           | (Ok a, w') => k a w'
           | (Throw, w') => (Throw, w')
           end.

Notation "x <- m ;; k" := (bind m (fun x => k))
  (at level 61, m at next level, right associativity).
Notation "m ;;; k" := (bind m (fun _ => k))
  (at level 61, right associativity).

(** One statement sent to the store: it fails when the next fault says so. *)
Definition statement {A} (run : World -> A * World) : M A :=
  fun w =>
    match faults w with
    | true :: fs =>
        (Throw, {| db := db w; tx := tx w; clock := clock w; faults := fs |})
    | _ :: fs =>
        let (a, w') :=
          run {| db := db w; tx := tx w; clock := clock w; faults := fs |} in
        (Ok a, w')
    | [] => let (a, w') := run w in (Ok a, w')
    end.

(** [pool.query]: a statement on the committed tables. *)
Definition poolQuery {A} (run : Db -> Z -> A * Db) : M A :=
  statement (fun w =>
    let (a, d) := run (db w) (clock w) in
    (a, {| db := d; tx := tx w; clock := clock w; faults := faults w |})).

Definition setUsers (d : Db) (us : list UserRow) : Db :=
  {| users := us; sales := sales d; product_offers := product_offers d;
     product_offers_products := product_offers_products d |}.

(** *** Responses *)

(** [publicUser(u)] *)
Record PublicUser := {
  pu_id_user : Z;
  pu_username : string;
  pu_roles : Js.Value;
  pu_last_login : option Z;
  pu_is_active : option Z
}.

Definition publicUser (u : UserRow) : PublicUser :=
  {| pu_id_user := id_user u; pu_username := username u; pu_roles := roles u;
     pu_last_login := last_login u; pu_is_active := is_active u |}.

(** The numbers of [kpis] the model keeps. *)
Record Kpis := {
  revenue : Js.Num;
  salesCount : Js.Num;
  avgTicket : Js.Num
}.

Inductive Body :=
| Message (message : string)
| Session (token : string) (user : PublicUser)
| Summary (kpis : Kpis)
| Done.

Record Response := { status : Z; body : Body }.

(** [sendError(reply, status, message)] *)
Definition sendError (status : Z) (message : string) : Response :=
  {| status := status; body := Message message |}.

(** [reply.send(payload)]: status 200. *)
Definition send (b : Body) : Response := {| status := 200; body := b |}.

(** A handler under [fastify.setErrorHandler]: what it throws carries no
    [statusCode], so the answer is 500 with the masked message. *)
Definition serve (h : M Response) (w : World) : Response * World :=
  match h w with
  | (Ok r, w') => (r, w')
  | (Throw, w') => (sendError 500 "Server error", w')
  end.

(** *** Authentication *)

(** [passwordLooksHashed(pw)] on a string. *)
Definition passwordLooksHashed (pw : string) : bool :=
  if negb (Str.truthy pw) then false
  else if Str.startsWith pw "$2a$" || Str.startsWith pw "$2b$"
          || Str.startsWith pw "$2y$" then true
  else if Str.startsWith pw "$argon2id$" || Str.startsWith pw "$argon2i$"
  then true
  else false.

(** [v || ""] for a nullable text column. *)
Definition orEmpty (v : option string) : string :=
  match v with
  | Some s => s
  | None => EmptyString
  end.

(** [String(user.is_active) === "0"] *)
Definition inactive (u : UserRow) : bool :=
  match is_active u with
  | Some n => String.eqb (Str.ofZ n) "0"
  | None => false
  end.

(** The body of a login request: its two fields, [undefined] when missing. *)
Record LoginRequest := {
  req_username : Js.Value;
  req_password : Js.Value
}.

Section Login.

(** [bcrypt.compare(password, hash)]: [None] when the promise rejects. *)
Variable bcrypt_compare : string -> string -> option bool.
(** [bcrypt.hash(password, rounds)], for the salt the call draws. *)
Variable bcrypt_hash : string -> Z -> string.
(** [jwt.sign({sub, username}, secret, {expiresIn})] *)
Variable jwt_sign : Z -> string -> string -> string -> string.

Variable CFG : Config.
Variable HAS_PASSWORD_HASH_COLUMN : bool.

(** [getUserByUsername(username)]: the first row of that name; without the
    [password_hash] column the row read carries none. *)
Definition getUserByUsername (name : string) : M (option UserRow) :=
  poolQuery (fun d _ =>
    (match find (fun u => String.eqb (username u) name) (users d) with
     | Some u =>
         Some (if HAS_PASSWORD_HASH_COLUMN then u
               else {| id_user := id_user u; username := username u;
                       password := password u; password_hash := None;
                       roles := roles u; last_login := last_login u;
                       is_active := is_active u |})
     | None => None
     end, d)).

(** The [try]/[catch] that sets [ok] in the login handler. *)
Definition passwordOk (password stored storedHash : string) : bool :=
  let attempt :=
    if passwordLooksHashed storedHash then bcrypt_compare password storedHash
    else if passwordLooksHashed stored then bcrypt_compare password stored
    else Some (String.eqb stored password) in
  match attempt with
  | Some ok => ok
  | None => false
  end.

(** [UPDATE users SET password_hash = ? WHERE id_user = ?] *)
Definition updatePasswordHash (hash : string) (id : Z) : M unit :=
  poolQuery (fun d _ =>
    (tt, setUsers d
      (map (fun u =>
              if id_user u =? id
              then {| id_user := id_user u; username := username u;
                      password := password u; password_hash := Some hash;
                      roles := roles u; last_login := last_login u;
                      is_active := is_active u |}
              else u) (users d)))).

(** [UPDATE users SET password = ? WHERE id_user = ?] *)
Definition updatePassword (hash : string) (id : Z) : M unit :=
  poolQuery (fun d _ =>
    (tt, setUsers d
      (map (fun u =>
              if id_user u =? id
              then {| id_user := id_user u; username := username u;
                      password := Some hash; password_hash := password_hash u;
                      roles := roles u; last_login := last_login u;
                      is_active := is_active u |}
              else u) (users d)))).

(** [UPDATE users SET last_login = NOW() WHERE id_user = ?] *)
Definition touchLastLogin (id : Z) : M unit :=
  poolQuery (fun d now =>
    (tt, setUsers d
      (map (fun u =>
              if id_user u =? id
              then {| id_user := id_user u; username := username u;
                      password := password u; password_hash := password_hash u;
                      roles := roles u; last_login := Some now;
                      is_active := is_active u |}
              else u) (users d)))).

(** The upgrade of a plaintext password after a successful check. *)
Definition migrate (u : UserRow) (password stored storedHash : string) : M unit :=
  if migratePlaintextPasswords CFG && HAS_PASSWORD_HASH_COLUMN
     && negb (passwordLooksHashed storedHash)
  then updatePasswordHash (bcrypt_hash password 12) (id_user u)
  else if migratePlaintextPasswords CFG && negb HAS_PASSWORD_HASH_COLUMN
          && migratePlaintextPasswordsOverwrite CFG
          && negb (passwordLooksHashed stored)
  then updatePassword (bcrypt_hash password 12) (id_user u)
  else ret tt.

(** The handler of [POST /auth/login]. *)
Definition login (req : LoginRequest) : M Response :=
  let username :=
    match req_username req with Js.JStr s => Str.trim s | _ => EmptyString end in
  let password :=
    match req_password req with Js.JStr s => s | _ => EmptyString end in
  if negb (Str.truthy username) || negb (Str.truthy password)
  then ret (sendError 400 "Missing username/password")
  else
    user <- getUserByUsername username ;;
    match user with
    | None => ret (sendError 401 "Invalid credentials")
    | Some u =>
        if inactive u then ret (sendError 401 "Invalid credentials")
        else
          let stored := orEmpty (Api.password u) in
          let storedHash :=
            if HAS_PASSWORD_HASH_COLUMN then orEmpty (password_hash u)
            else EmptyString in
          if negb (passwordOk password stored storedHash)
          then ret (sendError 401 "Invalid credentials")
          else
            migrate u password stored storedHash ;;;
            touchLastLogin (id_user u) ;;;
            let token :=
              jwt_sign (id_user u) (Api.username u) (jwtSecret CFG)
                       (jwtExpires CFG) in
            ret (send (Session token (publicUser u)))
    end.

End Login.

(** *** Dashboard summary *)

(** The query string of a request: each parameter, [undefined] when absent. *)
Record Query := {
  q_from : Js.Value;
  q_to : Js.Value;
  q_limit : Js.Value;
  q_offset : Js.Value
}.

Section Summary.

(** How the store decides [s.last_updated >= ? AND s.last_updated < ?] for a
    row and the two bounds sent. *)
Variable inRange : SqlRange -> SaleRow -> bool.

(** One pass over [sales] for [SUM(s.total_amount)] and [COUNT( * )]: the sum
    is [NULL] until a row in range has an amount. *)
Fixpoint kpiScan (r : SqlRange) (rows : list SaleRow) (sum : option Q) (count : Z)
  : option Q * Z :=
  match rows with
  | [] => (sum, count)
  | s :: rest =>
      if inRange r s then
        let sum' :=
          match total_amount s, sum with
          | Some a, Some acc => Some (acc + a)%Q
          | Some a, None => Some a
          | None, _ => sum
          end in
        kpiScan r rest sum' (count + 1)
      else kpiScan r rest sum count
  end.

(** The row of [SELECT COALESCE(SUM(s.total_amount), 0) AS revenue,
    COUNT( * ) AS salesCount FROM sales s WHERE ...]. *)
Definition kpiQuery (r : SqlRange) : M (Q * Z) :=
  poolQuery (fun d _ =>
    (let (sum, count) := kpiScan r (sales d) None 0 in
     (match sum with Some x => x | None => 0%Q end, count), d)).

(** The four other reads of the handler: the profit, the series per day,
    the top products and the top offers.  Each is a statement the store may
    fail; their rows are no part of [Body]. *)
Definition profitQuery (r : SqlRange) : M unit := poolQuery (fun d _ => (tt, d)).
Definition seriesQuery (r : SqlRange) : M unit := poolQuery (fun d _ => (tt, d)).
Definition topProductsQuery (r : SqlRange) : M unit :=
  poolQuery (fun d _ => (tt, d)).
Definition topOffersQuery (r : SqlRange) : M unit :=
  poolQuery (fun d _ => (tt, d)).

(** The [kpis] object of the response, but for [profit]: the sum, which the
    driver hands over as a number ([decimalNumbers]), and the count are
    binary64 numbers, and so is their quotient;
    [kpis.salesCount ? Number(kpis.revenue) / Number(kpis.salesCount) : 0]. *)
Definition shapeKpis (row : Q * Z) : Kpis :=
  let (rev, count) := row in
  let revenue := Js.round64 rev in
  let salesCount := Js.round64 (inject_Z count) in
  {| revenue := revenue;
     salesCount := salesCount;
     avgTicket := if negb (count =? 0) then Js.div revenue salesCount
                  else Js.Fin 0 |}.

(** The handler of [GET /dashboard/summary]: its five reads in their order,
    and of the reply [kpis.revenue], [kpis.salesCount] and
    [kpis.avgTicket]. *)
Definition summary (q : Query) : M Response :=
  match rangeToSql (q_from q) (q_to q) with
  | None => ret (sendError 400 "Invalid from/to (expected YYYY-MM-DD)")
  | Some r =>
      row <- kpiQuery r ;;
      profitQuery r ;;;
      seriesQuery r ;;;
      topProductsQuery r ;;;
      topOffersQuery r ;;;
      ret (send (Summary (shapeKpis row)))
  end.

End Summary.

(** *** Sales listing: paging *)

(** [clampInt(n, min, max, fallback)] *)
Definition clampInt (n : Js.Value) (min max fallback : Z) : Z :=
  match Js.toNumber n with
  | Js.Fin x => Z.max min (Z.min max (Js.trunc x))
  | _ => fallback
  end.

(** [limit] and [offset] as [GET /sales] computes them. *)
Definition salesLimit (q : Query) : Z := clampInt (q_limit q) 1 100 20.
Definition salesOffset (q : Query) : Z := clampInt (q_offset q) 0 1000000 0.

(** *** Offers: deletion *)

(** A statement on the connection of the open transaction. *)
Definition connQuery {A} (run : Db -> A * Db) : M A :=
  statement (fun w =>
    let cur := match tx w with Some t => t | None => db w end in
    let (a, d) := run cur in
    (a, match tx w with
        | Some _ => {| db := db w; tx := Some d; clock := clock w; faults := faults w |}
        | None => {| db := d; tx := None; clock := clock w; faults := faults w |}
        end)).

(** [conn.beginTransaction()] *)
Definition beginTransaction : M unit :=
  statement (fun w =>
    (tt, {| db := db w; tx := Some (db w); clock := clock w; faults := faults w |})).

(** [conn.commit()] *)
Definition commit : M unit :=
  statement (fun w =>
    (tt, {| db := match tx w with Some t => t | None => db w end;
            tx := None; clock := clock w; faults := faults w |})).

(** [conn.rollback()] in a [catch]: the working copy is dropped. *)
Definition rollback (w : World) : World :=
  {| db := db w; tx := None; clock := clock w; faults := faults w |}.

(** [try { body } catch (e) { await conn.rollback(); throw e; }] *)
Definition withRollback {A} (body : M A) : M A :=
  fun w => match body w with
           | (Ok a, w') => (Ok a, w')
           | (Throw, w') => (Throw, rollback w')
           end.

Definition deleteJoinRows (id : Z) : M unit :=
  connQuery (fun d =>
    (tt, {| users := users d; sales := sales d;
            product_offers := product_offers d;
            product_offers_products :=
              filter (fun j => negb (offer_id j =? id))
                     (product_offers_products d) |})).

(** [DELETE FROM product_offers WHERE id_offer = ?], giving [affectedRows]. *)
Definition deleteOfferRow (id : Z) : M Z :=
  connQuery (fun d =>
    (Z.of_nat (List.length (filter (fun o => id_offer o =? id) (product_offers d))),
     {| users := users d; sales := sales d;
        product_offers :=
          filter (fun o => negb (id_offer o =? id)) (product_offers d);
        product_offers_products := product_offers_products d |})).

(** The [id] of [/offers/:id]: [Number(idRaw)] when [String(idRaw)] is all
    digits, else [null]; [None] here also for the falsy 0, and for the
    infinity of a text of digits too long for a number, which
    [idOverflows] tells. *)
Definition offerId (idRaw : Js.Value) : option Z :=
  let s := Js.toString idRaw in
  if Str.truthy s && Str.allDigits s then
    match Js.toNumber idRaw with
    | Js.Fin x => if Js.trunc x =? 0 then None else Some (Js.trunc x)
    | _ => None
    end
  else None.

(** [String(idRaw)] is all digits and [Number(idRaw)] an infinity. *)
Definition idOverflows (idRaw : Js.Value) : bool :=
  let s := Js.toString idRaw in
  Str.truthy s && Str.allDigits s
  && match Js.toNumber idRaw with
     | Js.Infinite _ => true
     | _ => false
     end.

(** The handler of [DELETE /offers/:id].  An infinity is not falsy, so the
    handler goes on with it; it is the id of no row. *)
Definition deleteOffer (idRaw : Js.Value) : M Response :=
  match offerId idRaw with
  | None =>
      if idOverflows idRaw
      then
        withRollback (
          beginTransaction ;;;
          connQuery (fun d => (tt, d)) ;;;
          affectedRows <- connQuery (fun d => (0, d)) ;;
          commit ;;;
          if affectedRows =? 0 then ret (sendError 404 "Not found")
          else ret (send Done))
      else ret (sendError 400 "Invalid id")
  | Some id =>
      withRollback (
        beginTransaction ;;;
        deleteJoinRows id ;;;
        affectedRows <- deleteOfferRow id ;;
        commit ;;;
        if affectedRows =? 0 then ret (sendError 404 "Not found")
        else ret (send Done))
  end.

End Api.

(** ** The dashboard widget's role helpers *)

Module Widget.

Record Config := {
  enforceRoles : bool;
  writeRoles : list string
}.

(** The user object the widget holds; only [roles] is read here. *)
Record User := { roles : Js.Value }.

(** [safeJsonParse(s)]: [null] when parsing throws. *)
Definition safeJsonParse (s : string) : Js.Value :=
  match Json.parse s with
  | Some v => v
  | None => Js.JNull
  end.

(** [parseRoles(user)]; [None] is a missing user. *)
Definition parseRoles (user : option User) : list string :=
  match user with
  | None => []
  | Some u =>
      let r := roles u in
      if negb (Js.truthy r) then []
      else
        match r with
        | Js.JArr items => map Js.toString items
        | Js.JStr s =>
            match safeJsonParse s with
            | Js.JArr parsed => map Js.toString parsed
            | Js.JObj props => Js.keys props
            | _ => Split.tokens s
            end
        | Js.JObj props => Js.keys props
        | _ => []
        end
  end.

(** [canWrite(cfg, user)]; [roleSet] is the list of keys set to [true]. *)
Definition canWrite (cfg : Config) (user : option User) : bool :=
  if negb (enforceRoles cfg) then true
  else
    let roles := parseRoles user in
    if (List.length roles =? 0)%nat then false
    else
      let roleSet :=
        fold_left (fun acc x => Str.toLowerCase x :: acc) roles [] in
      existsb (fun r => Split.mem (Str.toLowerCase r) roleSet) (writeRoles cfg).

End Widget.


(** * Vocabulary of the statements *)

Module Spec.

(** ** Login *)

(** The row [getUserByUsername] hands to the handler for the stored row [u]. *)
Definition rowRead (HAS_PASSWORD_HASH_COLUMN : bool) (u : Api.UserRow)
  : Api.UserRow :=
  if HAS_PASSWORD_HASH_COLUMN then u
  else {| Api.id_user := Api.id_user u; Api.username := Api.username u;
          Api.password := Api.password u; Api.password_hash := None;
          Api.roles := Api.roles u; Api.last_login := Api.last_login u;
          Api.is_active := Api.is_active u |}.

(** The two stored credentials the handler looks at: the legacy field and
    the dedicated hash field. *)
Definition storedOf (u : Api.UserRow) : string := Api.orEmpty (Api.password u).
Definition storedHashOf (HAS_PASSWORD_HASH_COLUMN : bool) (u : Api.UserRow)
  : string :=
  if HAS_PASSWORD_HASH_COLUMN then Api.orEmpty (Api.password_hash u)
  else EmptyString.

(** A verification function that throws counts as a mismatch. *)
Definition verdict (r : option bool) : bool :=
  match r with
  | Some b => b
  | None => false
  end.

(** The world once the store has taken one statement. *)
Definition advance (w : Api.World) : Api.World :=
  {| Api.db := Api.db w; Api.tx := Api.tx w; Api.clock := Api.clock w;
     Api.faults := tl (Api.faults w) |}.

(** A request that names the active user [u] of world [w] and presents
    password [pw], the lookup not failing. *)
Definition addresses (req : Api.LoginRequest) (w : Api.World)
           (u : Api.UserRow) (pw : string) : Prop :=
  exists rawname,
    Api.req_username req = Js.JStr rawname
    /\ Str.truthy (Str.trim rawname) = true
    /\ Api.req_password req = Js.JStr pw
    /\ Str.truthy pw = true
    /\ find (fun x => String.eqb (Api.username x) (Str.trim rawname))
            (Api.users (Api.db w)) = Some u
    /\ Api.inactive u = false
    /\ hd false (Api.faults w) = false.

(** One of the two upgrade writes is attempted. *)
Definition migrationDue (CFG : Api.Config) (HAS_PASSWORD_HASH_COLUMN : bool)
           (stored storedHash : string) : bool :=
  (Api.migratePlaintextPasswords CFG && HAS_PASSWORD_HASH_COLUMN
   && negb (Api.passwordLooksHashed storedHash))
  || (Api.migratePlaintextPasswords CFG && negb HAS_PASSWORD_HASH_COLUMN
      && Api.migratePlaintextPasswordsOverwrite CFG
      && negb (Api.passwordLooksHashed stored)).

(** How a row of [users] may differ after a login: identity kept, and a
    credential field that changed held no hash before and holds one now,
    which takes [verified]. *)
Definition credentialStep (verified : Prop) (old new : Api.UserRow) : Prop :=
  Api.id_user new = Api.id_user old
  /\ Api.username new = Api.username old
  /\ (Api.password_hash new <> Api.password_hash old ->
      verified
      /\ Api.passwordLooksHashed (Api.orEmpty (Api.password_hash old)) = false
      /\ Api.passwordLooksHashed (Api.orEmpty (Api.password_hash new)) = true)
  /\ (Api.password new <> Api.password old ->
      verified
      /\ Api.passwordLooksHashed (Api.orEmpty (Api.password old)) = false
      /\ Api.passwordLooksHashed (Api.orEmpty (Api.password new)) = true).

(** What the three [UPDATE]s of the login handler do to a row. *)
Definition setHashRow (hash : string) (id : Z) (u : Api.UserRow) : Api.UserRow :=
  if Api.id_user u =? id
  then {| Api.id_user := Api.id_user u; Api.username := Api.username u;
          Api.password := Api.password u; Api.password_hash := Some hash;
          Api.roles := Api.roles u; Api.last_login := Api.last_login u;
          Api.is_active := Api.is_active u |}
  else u.

Definition setPasswordRow (hash : string) (id : Z) (u : Api.UserRow)
  : Api.UserRow :=
  if Api.id_user u =? id
  then {| Api.id_user := Api.id_user u; Api.username := Api.username u;
          Api.password := Some hash; Api.password_hash := Api.password_hash u;
          Api.roles := Api.roles u; Api.last_login := Api.last_login u;
          Api.is_active := Api.is_active u |}
  else u.

Definition touchRow (now : Z) (id : Z) (u : Api.UserRow) : Api.UserRow :=
  if Api.id_user u =? id
  then {| Api.id_user := Api.id_user u; Api.username := Api.username u;
          Api.password := Api.password u; Api.password_hash := Api.password_hash u;
          Api.roles := Api.roles u; Api.last_login := Some now;
          Api.is_active := Api.is_active u |}
  else u.

(** The request passed the password check of the handler. *)
Definition verifiedBy (bcrypt_compare : string -> string -> option bool)
           (HAS : bool) (req : Api.LoginRequest) (w : Api.World) : Prop :=
  exists u pw,
    addresses req w u pw
    /\ Api.passwordOk bcrypt_compare pw (storedOf u) (storedHashOf HAS u) = true.

Definition isSession (r : Api.Response) : bool :=
  match Api.body r with
  | Api.Session _ _ => true
  | _ => false
  end.

(** ** Roles *)

(** [raw] as [hasWriteRole] hands it to [parseRoles]: [user && user.roles]. *)
Definition rolesOf (user : option Api.UserRow) : Js.Value :=
  match user with
  | Some u => Api.roles u
  | None => Js.JUndefined
  end.

(** The widget's user whose [roles] field is [v]. *)
Definition widgetUser (v : Js.Value) : option Widget.User :=
  Some {| Widget.roles := v |}.

(** The string [{"admin":true}]. *)
Definition adminObjectText : string :=
  "{" ++ String Json.dquote "admin" ++ String Json.dquote ":true}".

Fixpoint allSpace (s : string) : bool :=
  match s with
  | EmptyString => true
  | String c r => Str.isSpace c && allSpace r
  end.

(** A value of a [roles] field on which the two role parsers are compared:
    no number and no boolean, and a string only when [JSON.parse] makes
    nothing of the white space [trim] drops around it. *)
Definition agreeable (v : Js.Value) : Prop :=
  match v with
  | Js.JBool _ | Js.JNum _ => False
  | Js.JStr s => Json.parse s = Json.parse (Str.trim s)
  | _ => True
  end.

(** A form feed, then the text [["a"]]. *)
Definition formFeedArrayText : string :=
  String "012" ("[" ++ String Json.dquote "a" ++ String Json.dquote "]").

(** ** Calendar dates *)

Definition daysInMonth (y m : Z) : Z :=
  if m =? 2 then (if JsDate.InLeapYear y then 29 else 28)
  else if (m =? 4) || (m =? 6) || (m =? 9) || (m =? 11) then 30
  else 31.

(** A date of the calendar: a month from 1 to 12 and a day of that month. *)
Definition validDate (y m d : Z) : Prop :=
  1 <= m <= 12 /\ 1 <= d <= daysInMonth y m.

(** The day after [y]-[m]-[d]. *)
Definition nextDay (y m d : Z) : Z * Z * Z :=
  if d <? daysInMonth y m then (y, m, d + 1)
  else if m <? 12 then (y, m + 1, 1)
  else (y + 1, 1, 1).

(** The number of the day [y]-[m]-[d], counted from 1970-01-01. *)
Definition dayNum (y m d : Z) : Z :=
  JsDate.DayFromYear y + JsDate.daysBefore (JsDate.InLeapYear y) (m - 1) + d - 1.

(** A date as [addDaysIso] writes it: the year as it is, month and day on
    two digits. *)
Definition isoOfDate (date : Z * Z * Z) : string :=
  let '(y, m, d) := date in
  Str.ofZ y ++ "-" ++ Str.padStart2 (Str.ofZ m) ++ "-" ++ Str.padStart2 (Str.ofZ d).

(** Year, month and day written in a text of the form [YYYY-MM-DD]. *)
Definition fieldsOf (s : string) : Z * Z * Z :=
  (Str.digitsFrom 0 (String.substring 0 4 s),
   Str.digitsFrom 0 (String.substring 5 2 s),
   Str.digitsFrom 0 (String.substring 8 2 s)).

Definition digits10 : list ascii :=
  ["0"; "1"; "2"; "3"; "4"; "5"; "6"; "7"; "8"; "9"]%char.

Definition numEqb (a b : Js.Num) : bool :=
  match a, b with
  | Js.NaN, Js.NaN => true
  | Js.Infinite x, Js.Infinite y => Bool.eqb x y
  | Js.Fin p, Js.Fin q => (Qnum p =? Qnum q) && (Qden p =? Qden q)%positive
  | _, _ => false
  end.

(** [Number(s)] is the decimal value of the digits [s]. *)
Definition reads (s : string) : bool :=
  numEqb (Js.stringToNumber s) (Js.Fin (inject_Z (Str.digitsFrom 0 s))).

(** ** Aggregation and paging *)

(** The sum of a list of amounts. *)
Definition sumQ (l : list Q) : Q := fold_right Qplus 0%Q l.

(** The amount a sale adds to [SUM(total_amount)]: a [NULL] adds nothing. *)
Definition amount (s : Api.SaleRow) : Q :=
  match Api.total_amount s with
  | Some a => a
  | None => 0%Q
  end.

(** [COALESCE(x, 0)] *)
Definition coalesce (x : option Q) : Q :=
  match x with
  | Some q => q
  | None => 0%Q
  end.

(** [t] clamped to the interval from [lo] to [hi]. *)
Definition clamp (lo hi t : Z) : Z :=
  if t <? lo then lo else if hi <? t then hi else t.

(** The tables once the join rows of offer [id] are gone. *)
Definition withoutJoins (id : Z) (d : Api.Db) : Api.Db :=
  {| Api.users := Api.users d; Api.sales := Api.sales d;
     Api.product_offers := Api.product_offers d;
     Api.product_offers_products :=
       filter (fun j => negb (Api.offer_id j =? id))
              (Api.product_offers_products d) |}.

(** What is left of the login handler after the lookup, for a user found. *)
Definition afterLookup (bcrypt_compare : string -> string -> option bool)
           (bcrypt_hash : string -> Z -> string)
           (jwt_sign : Z -> string -> string -> string -> string)
           (CFG : Api.Config) (HAS : bool)
           (u : Api.UserRow) (pw : string) : Api.M Api.Response :=
  if negb (Api.passwordOk bcrypt_compare pw (storedOf u) (storedHashOf HAS u))
  then Api.ret (Api.sendError 401 "Invalid credentials")
  else
    Api.bind
      (Api.migrate bcrypt_hash CFG HAS (rowRead HAS u) pw
                   (storedOf u) (storedHashOf HAS u))
      (fun _ =>
         Api.bind (Api.touchLastLogin (Api.id_user u))
           (fun _ =>
              Api.ret (Api.send
                (Api.Session
                   (jwt_sign (Api.id_user u) (Api.username u)
                             (Api.jwtSecret CFG) (Api.jwtExpires CFG))
                   (Api.publicUser (rowRead HAS u)))))).

End Spec.

(** Stand-ins for the platform functions, to run the handlers on examples. *)
Module Sample.

Definition hash (pw : string) (rounds : Z) : string :=
  "$2a$" ++ Str.ofZ rounds ++ "$" ++ pw.

Definition compare (pw h : string) : option bool :=
  if Api.passwordLooksHashed h then Some (String.eqb h (hash pw 12)) else None.

Definition sign (sub : Z) (name secret expires : string) : string :=
  "jwt." ++ Str.ofZ sub ++ "." ++ name.

Definition CFG : Api.Config :=
  {| Api.jwtSecret := "s3cret"; Api.jwtExpires := "12h";
     Api.migratePlaintextPasswords := true;
     Api.migratePlaintextPasswordsOverwrite := false;
     Api.enforceRoles := true;
     Api.writeRoles := Api.mkWriteRoles "admin,manager" |}.

Definition alice : Api.UserRow :=
  {| Api.id_user := 1; Api.username := "alice";
     Api.password := Some "sesame"; Api.password_hash := None;
     Api.roles := Js.JStr "admin"; Api.last_login := None;
     Api.is_active := Some 1 |}.

Definition emptyDb : Api.Db :=
  {| Api.users := []; Api.sales := []; Api.product_offers := [];
     Api.product_offers_products := [] |}.

Definition world (d : Api.Db) (fs : list bool) : Api.World :=
  {| Api.db := d; Api.tx := None; Api.clock := 1700000000; Api.faults := fs |}.

Definition usersDb : Api.Db := Api.setUsers emptyDb [alice].

Definition aliceLogin : Api.LoginRequest :=
  {| Api.req_username := Js.JStr "alice"; Api.req_password := Js.JStr "sesame" |}.

(** Timestamps in the form [YYYY-MM-DD hh:mm:ss] compare as their texts. *)
Definition between (r : Api.SqlRange) (s : Api.SaleRow) : bool :=
  String.leb (Api.from r) (Api.sale_updated s)
  && String.ltb (Api.sale_updated s) (Api.toExcl r).

Definition saleA : Api.SaleRow :=
  {| Api.id_sale := 1; Api.total_amount := Some 100%Q;
     Api.sale_updated := "2024-01-01 09:30:00" |}.
Definition saleB : Api.SaleRow :=
  {| Api.id_sale := 2; Api.total_amount := Some 50%Q;
     Api.sale_updated := "2024-01-02 18:00:00" |}.
Definition saleLater : Api.SaleRow :=
  {| Api.id_sale := 3; Api.total_amount := Some 7%Q;
     Api.sale_updated := "2024-01-04 00:00:00" |}.

Definition salesDb : Api.Db :=
  {| Api.users := []; Api.sales := [saleA; saleLater; saleB];
     Api.product_offers := []; Api.product_offers_products := [] |}.

Definition januaryQuery : Api.Query :=
  {| Api.q_from := Js.JStr "2024-01-01"; Api.q_to := Js.JStr "2024-01-03";
     Api.q_limit := Js.JStr "500"; Api.q_offset := Js.JStr "-5" |}.

(** A sales listing asked with numerals beyond the binary64 numbers. *)
Definition overflowQuery : Api.Query :=
  {| Api.q_from := Js.JUndefined; Api.q_to := Js.JUndefined;
     Api.q_limit := Js.JStr "1e400"; Api.q_offset := Js.JStr "1e400" |}.

(** A store with no offer 7 and two join rows, one of them for offer 7. *)
Definition orphanDb : Api.Db :=
  {| Api.users := []; Api.sales := [];
     Api.product_offers := [{| Api.id_offer := 8; Api.offer_name := "duo" |}];
     Api.product_offers_products :=
       [{| Api.offer_id := 7; Api.product_id := 70 |};
        {| Api.offer_id := 8; Api.product_id := 80 |}] |}.

End Sample.

(** * More of the API server: configuration and the authentication gate *)

Module Server.

(** [process.env]: the value of each variable that is set. *)
Definition Env := string -> option string.

(** [env(name, fallback)] *)
Definition env (E : Env) (name fallback : string) : string :=
  match E name with
  | None => fallback
  | Some v => if String.eqb v EmptyString then fallback else v
  end.

(** [envBool(name, fallback)] *)
Definition envBool (E : Env) (name : string) (fallback : bool) : bool :=
  let v := env E name (if fallback then "1" else "0") in
  String.eqb v "1" || String.eqb (Str.toLowerCase v) "true"
  || String.eqb (Str.toLowerCase v) "yes".

Fixpoint dropSlashes (s : string) : string :=
  match s with
  | String c r => if Ascii.eqb c "/" then dropSlashes r else s
  | EmptyString => EmptyString
  end.

(** [s.replace(/\/+$/, empty)]: [s] without the slashes it ends in. *)
Definition stripTrailingSlashes (s : string) : string :=
  Str.rev (dropSlashes (Str.rev s)).

(** A line terminator, which [.] does not match. *)
Definition isLineTerminator (c : ascii) : bool :=
  let n := nat_of_ascii c in ((n =? 10) || (n =? 13))%nat.

Fixpoint noLineTerminator (s : string) : bool :=
  match s with
  | EmptyString => true
  | String c r => negb (isLineTerminator c) && noLineTerminator r
  end.

(** The length of the white space [s] starts with. *)
Fixpoint spaceRun (s : string) : nat :=
  match s with
  | String c r => if Str.isSpace c then S (spaceRun r) else O
  | EmptyString => O
  end.

(** [\s+(.+)$] against [rest]: the white space takes [k] characters if what
    follows is not empty and has no line terminator, and else gives one
    back, down to one character. *)
Fixpoint matchGroup (k : nat) (rest : string) : option string :=
  match k with
  | O => None
  | S k' =>
      let g := Json.drop k rest in
      if Str.truthy g && noLineTerminator g then Some g
      else matchGroup k' rest
  end.

(** [getBearerToken(req)], from [req.headers.authorization]; [None] is
    [null].  The pattern is [/^Bearer\s+(.+)$/i]. *)
Definition getBearerToken (h : Js.Value) : option string :=
  match h with
  | Js.JStr s =>
      if negb (Str.truthy s) then None
      else if String.eqb (Str.toLowerCase (String.substring 0 6 s)) "bearer"
      then
        let rest := Json.drop 6 s in
        match matchGroup (spaceRun rest) rest with
        | Some g => Some (Str.trim g)
        | None => None
        end
      else None
  | _ => None
  end.

(** [o[k]] for an own property of a plain object; [undefined] otherwise. *)
Definition prop (k : string) (o : Js.Value) : Js.Value :=
  match o with
  | Js.JObj props =>
      match find (fun p => String.eqb (fst p) k) props with
      | Some (_, v) => v
      | None => Js.JUndefined
      end
  | _ => Js.JUndefined
  end.

(** [payload && (payload.sub || payload.id_user || payload.idUser)] *)
Definition payloadId (payload : Js.Value) : Js.Value :=
  if negb (Js.truthy payload) then payload
  else if Js.truthy (prop "sub" payload) then prop "sub" payload
  else if Js.truthy (prop "id_user" payload) then prop "id_user" payload
  else prop "idUser" payload.

Section Gate.

(** [jwt.verify(token, secret)]: the payload, [None] when it throws. *)
Variable jwt_verify : string -> string -> option Js.Value.
(** How the store decides [id_user = ?] for the value sent. *)
Variable idMatches : Js.Value -> Z -> bool.
Variable CFG : Api.Config.

(** [getUserById(idUser)]: the first row of that id, without the credential
    columns, which the query does not select. *)
Definition getUserById (idUser : Js.Value) : Api.M (option Api.UserRow) :=
  Api.poolQuery (fun d _ =>
    (match find (fun u => idMatches idUser (Api.id_user u)) (Api.users d) with
     | Some u =>
         Some {| Api.id_user := Api.id_user u; Api.username := Api.username u;
                 Api.password := None; Api.password_hash := None;
                 Api.roles := Api.roles u; Api.last_login := Api.last_login u;
                 Api.is_active := Api.is_active u |}
     | None => None
     end, d)).

(** [requireAuth(req, reply)]: the reply it sends, or the row it leaves in
    [req.cagUser]. *)
Definition requireAuth (authorization : Js.Value)
  : Api.M (Api.Response + Api.UserRow) :=
  match getBearerToken authorization with
  | None => Api.ret (inl (Api.sendError 401 "Unauthorized"))
  | Some token =>
      if negb (Str.truthy token)
      then Api.ret (inl (Api.sendError 401 "Unauthorized"))
      else
        match jwt_verify token (Api.jwtSecret CFG) with
        | None => Api.ret (inl (Api.sendError 401 "Unauthorized"))
        | Some payload =>
            let idUser := payloadId payload in
            if negb (Js.truthy idUser)
            then Api.ret (inl (Api.sendError 401 "Unauthorized"))
            else
              Api.bind (getUserById idUser) (fun user =>
                match user with
                | None => Api.ret (inl (Api.sendError 401 "Unauthorized"))
                | Some u =>
                    if Api.inactive u
                    then Api.ret (inl (Api.sendError 401 "Unauthorized"))
                    else Api.ret (inr u)
                end)
        end
  end.

(** [requireWrite(req, reply)]: the reply it sends, if it sends one. *)
Definition requireWrite (cagUser : option Api.UserRow) : option Api.Response :=
  if negb (Api.hasWriteRole CFG cagUser)
  then Some (Api.sendError 403 "Forbidden")
  else None.

(** [preHandler: [requireAuth, requireWrite]]: the reply one of the two
    hooks sends, or the user on whom neither has sent one. *)
Definition writeHooks (authorization : Js.Value)
  : Api.M (Api.Response + Api.UserRow) :=
  Api.bind (requireAuth authorization) (fun r =>
    match r with
    | inl reply => Api.ret (inl reply)
    | inr u =>
        match requireWrite (Some u) with
        | Some reply => Api.ret (inl reply)
        | None => Api.ret (inr u)
        end
    end).

(** A route with [preHandler: requireAuth]: the reply of the hook if it
    sends one, and else what the handler makes of [req.cagUser]. *)
Definition authenticated (A : Type) (authorization : Js.Value)
           (handler : Api.UserRow -> Api.M A) : Api.M (Api.Response + A) :=
  Api.bind (requireAuth authorization) (fun r =>
    match r with
    | inl reply => Api.ret (inl reply)
    | inr u => Api.bind (handler u) (fun a => Api.ret (inr a))
    end).

(** The handler of [GET /auth/me]: [{ user: publicUser(req.cagUser) }]. *)
Definition me (authorization : Js.Value)
  : Api.M (Api.Response + Api.PublicUser) :=
  authenticated authorization (fun u => Api.ret (Api.publicUser u)).

End Gate.

End Server.

(** * More of the API server: the statements of the catalogue routes *)

Module Catalog.

(** A value bound to a placeholder. *)
Inductive SqlValue :=
| SqlNull
| SqlText (s : string)
| SqlNum (n : Js.Num).

(** [v == null] *)
Definition isNullish (v : Js.Value) : bool :=
  match v with
  | Js.JNull | Js.JUndefined => true
  | _ => false
  end.

(** [v == null ? null : Number(v)] *)
Definition numberOrNull (v : Js.Value) : SqlValue :=
  if isNullish v then SqlNull else SqlNum (Js.toNumber v).

(** [req.body || {}] *)
Definition bodyOf (body : Js.Value) : Js.Value :=
  if Js.truthy body then body else Js.JObj [].

(** [v.trim()] when [typeof v === "string"], and else the empty text. *)
Definition trimmedOrEmpty (v : Js.Value) : string :=
  match v with
  | Js.JStr s => Str.trim s
  | _ => EmptyString
  end.

(** [v] when [typeof v === "string"], and else the empty text. *)
Definition textOrEmpty (v : Js.Value) : string :=
  match v with
  | Js.JStr s => s
  | _ => EmptyString
  end.

(** [l.join(sep)] for an array of strings. *)
Fixpoint join (sep : string) (l : list string) : string :=
  match l with
  | [] => EmptyString
  | [x] => x
  | x :: r => x ++ sep ++ join sep r
  end.

(** The arrays [fields] and [values] of a [PATCH] handler. *)
Definition Sets : Type := list string * list SqlValue.

(** [setField(col, val)]: [fields.push(`${col} = ?`); values.push(val)]. *)
Definition setField (col : string) (val : SqlValue) (st : Sets) : Sets :=
  (app (fst st) [col ++ " = ?"], app (snd st) [val]).

(** [if (typeof v === "string") ...] *)
Definition whenString (v : Js.Value) (k : string -> Sets -> Sets) (st : Sets)
  : Sets :=
  match v with
  | Js.JStr s => k s st
  | _ => st
  end.

(** [if (v !== undefined) ...] *)
Definition whenDefined (v : Js.Value) (k : Js.Value -> Sets -> Sets) (st : Sets)
  : Sets :=
  match v with
  | Js.JUndefined => st
  | _ => k v st
  end.

(** *** Products *)

(** The text of the [INSERT], its white space on one line. *)
Definition insertProductText : string :=
  "INSERT INTO products (barcode, reference, name, description, quantity, purchasePrice, price, productType, last_updated, is_synced) VALUES (?, ?, ?, ?, ?, ?, ?, ?, NOW(), 0)".

(** [POST /products] up to its statement: the reply sent instead, or the
    values bound to [insertProductText]. *)
Definition postProduct (body : Js.Value) : Api.Response + list SqlValue :=
  let b := bodyOf body in
  let name := trimmedOrEmpty (Server.prop "name" b) in
  if negb (Str.truthy name) then inl (Api.sendError 400 "Missing name")
  else
    let barcode := trimmedOrEmpty (Server.prop "barcode" b) in
    let reference := trimmedOrEmpty (Server.prop "reference" b) in
    let description := textOrEmpty (Server.prop "description" b) in
    let productType := trimmedOrEmpty (Server.prop "productType" b) in
    let quantity := numberOrNull (Server.prop "quantity" b) in
    let purchasePrice := numberOrNull (Server.prop "purchasePrice" b) in
    let price := numberOrNull (Server.prop "price" b) in
    inr [SqlText barcode; SqlText reference; SqlText name; SqlText description;
         quantity; purchasePrice; price; SqlText productType].



(** *** Offers *)

(** The text of the [INSERT], its white space on one line. *)
Definition insertOfferText : string :=
  "INSERT INTO product_offers (name, quantity, price, last_updated, is_synced) VALUES (?, ?, ?, NOW(), 0)".

(** [Array.isArray(v) ? v.map(Number).filter((x) => Number.isFinite(x)) : null] *)
Definition productIdsOf (v : Js.Value) : option (list Js.Num) :=
  match v with
  | Js.JArr l =>
      Some (filter (fun n => match n with Js.Fin _ => true | _ => false end)
                   (map Js.toNumber l))
  | _ => None
  end.

(** [POST /offers] up to its first statement: the reply sent instead, or
    the values bound to [insertOfferText] and the product ids to join. *)
Definition postOffer (body : Js.Value)
  : Api.Response + (list SqlValue * list Js.Num) :=
  let b := bodyOf body in
  let name := trimmedOrEmpty (Server.prop "name" b) in
  if negb (Str.truthy name) then inl (Api.sendError 400 "Missing name")
  else
    let quantity := numberOrNull (Server.prop "quantity" b) in
    let price := numberOrNull (Server.prop "price" b) in
    let productIds :=
      match productIdsOf (Server.prop "productIds" b) with
      | Some l => l
      | None => []
      end in
    inr ([SqlText name; quantity; price], productIds).

(** The [fields] and [values] of [PATCH /offers/:id] before the id is
    pushed: the two stamps go in when a column is set. *)
Definition offerSets (b : Js.Value) : Sets :=
  let st : Sets := ([], []) in
  let st := whenString (Server.prop "name" b)
              (fun s st => ((fst st ++ ["name = ?"])%list,
                            (snd st ++ [SqlText (Str.trim s)])%list)) st in
  let st := whenDefined (Server.prop "quantity" b)
              (fun v st => ((fst st ++ ["quantity = ?"])%list,
                            (snd st ++ [numberOrNull v])%list)) st in
  let st := whenDefined (Server.prop "price" b)
              (fun v st => ((fst st ++ ["price = ?"])%list,
                            (snd st ++ [numberOrNull v])%list)) st in
  if negb (List.length (fst st) =? 0)%nat
  then ((fst st ++ ["last_updated = NOW()"; "is_synced = 0"])%list, snd st)
  else st.

(** The [UPDATE] of [PATCH /offers/:id], if it sends one. *)
Definition offerUpdate (id : Z) (body : Js.Value)
  : option (string * list SqlValue) :=
  let (fields, values) := offerSets (bodyOf body) in
  if negb (List.length fields =? 0)%nat
  then Some ("UPDATE product_offers SET " ++ join ", " fields
             ++ " WHERE id_offer = ?",
             (values ++ [SqlNum (Js.Fin (inject_Z id))])%list)
  else None.

End Catalog.

(** * More of the dashboard widget *)

Module Dashboard.

(** The [Authorization] header [apiFetch] sends for a stored token. *)
Definition authorization (token : string) : string := "Bearer " ++ token.

(** [paginate(stateSlice, total)] on whole numbers, [limit] being positive:
    [Math.floor(offset / limit) + 1] and
    [Math.max(1, Math.ceil(total / limit))]. *)
Definition paginate (limit offset total : Z) : Z * Z :=
  (offset / limit + 1, Z.max 1 (- ((- total) / limit))).

(** The page buttons: [prevBtn.disabled = pag.page <= 1] and
    [nextBtn.disabled = pag.page >= pag.pages]. *)
Definition prevDisabled (pag : Z * Z) : bool := fst pag <=? 1.
Definition nextDisabled (pag : Z * Z) : bool := snd pag <=? fst pag.

(** The offsets the two buttons set. *)
Definition prevOffset (limit offset : Z) : Z := Z.max 0 (offset - limit).
Definition nextOffset (limit offset : Z) : Z := offset + limit.

End Dashboard.

(** * More vocabulary *)

Module Vocab.

(** ** Login *)

(** The [username] and [password] the login handler works with. *)
Definition usernameOf (req : Api.LoginRequest) : string :=
  match Api.req_username req with
  | Js.JStr s => Str.trim s
  | _ => EmptyString
  end.

Definition passwordOf (req : Api.LoginRequest) : string :=
  match Api.req_password req with
  | Js.JStr s => s
  | _ => EmptyString
  end.

(** The row of [users] the lookup of the request finds, if any. *)
Definition found (req : Api.LoginRequest) (w : Api.World) : option Api.UserRow :=
  find (fun x => String.eqb (Api.username x) (usernameOf req))
       (Api.users (Api.db w)).

(** The request names no user, an inactive one, or presents a password the
    check refuses. *)
Definition rejected (bcrypt_compare : string -> string -> option bool)
           (HAS : bool) (req : Api.LoginRequest) (w : Api.World) : Prop :=
  match found req w with
  | None => True
  | Some u =>
      Api.inactive u = true
      \/ Api.passwordOk bcrypt_compare (passwordOf req) (Spec.storedOf u)
                        (Spec.storedHashOf HAS u) = false
  end.

(** What the upgrade write of a login does to a row: the dedicated field is
    set, or the legacy field, or nothing. *)
Definition migrationRow (bcrypt_hash : string -> Z -> string)
           (CFG : Api.Config) (HAS : bool) (u : Api.UserRow) (pw : string)
  : Api.UserRow -> Api.UserRow :=
  if Api.migratePlaintextPasswords CFG && HAS
     && negb (Api.passwordLooksHashed (Spec.storedHashOf HAS u))
  then Spec.setHashRow (bcrypt_hash pw 12) (Api.id_user u)
  else if Api.migratePlaintextPasswords CFG && negb HAS
          && Api.migratePlaintextPasswordsOverwrite CFG
          && negb (Api.passwordLooksHashed (Spec.storedOf u))
  then Spec.setPasswordRow (bcrypt_hash pw 12) (Api.id_user u)
  else fun x => x.

(** A write of the login handler either throws, the tables as they were, or
    maps its row function over [users], the other tables as they were. *)
Definition wrote (g : Api.UserRow -> Api.UserRow) (w0 w1 : Api.World) : Prop :=
  Api.db w1 = Api.setUsers (Api.db w0) (map g (Api.users (Api.db w0)))
  /\ Api.clock w1 = Api.clock w0.

(** ** Texts and roles *)

(** No character of [s] satisfies [p]. *)
Fixpoint noneOf (p : ascii -> bool) (s : string) : bool :=
  match s with
  | EmptyString => true
  | String c r => negb (p c) && noneOf p r
  end.

Definition isComma (c : ascii) : bool := Ascii.eqb ","%char c.

(** A [roles] value that carries no role: nothing, a blank text, an empty
    array or an empty object. *)
Definition noRoles (v : Js.Value) : Prop :=
  match v with
  | Js.JNull | Js.JUndefined => True
  | Js.JStr s => Spec.allSpace s = true
  | Js.JArr [] => True
  | Js.JObj [] => True
  | _ => False
  end.

(** A row of [users] read by the gate, with the given [roles]. *)
Definition userWithRoles (v : Js.Value) : option Api.UserRow :=
  Some {| Api.id_user := 1; Api.username := "u"; Api.password := None;
          Api.password_hash := None; Api.roles := v;
          Api.last_login := None; Api.is_active := Some 1 |}.

(** A token as [jwt.sign] makes them: not empty, no white space. *)
Definition cleanToken (t : string) : bool :=
  Str.truthy t && noneOf Str.isSpace t.

(** The row [getUserById] reads for a stored row. *)
Definition rowById (u : Api.UserRow) : Api.UserRow :=
  {| Api.id_user := Api.id_user u; Api.username := Api.username u;
     Api.password := None; Api.password_hash := None;
     Api.roles := Api.roles u; Api.last_login := Api.last_login u;
     Api.is_active := Api.is_active u |}.

(** The number [id] as a script value. *)
Definition idValue (id : Z) : Js.Value := Js.JNum (Js.Fin (inject_Z id)).

(** [k] slashes. *)
Fixpoint slashes (k : nat) : string :=
  match k with
  | O => EmptyString
  | S n => String "/" (slashes n)
  end.

(** [s] ends in a slash. *)
Definition endsInSlash (s : string) : bool :=
  match Str.rev s with
  | String c _ => Ascii.eqb c "/"
  | EmptyString => false
  end.

(** ** Statements *)

(** The number of placeholders in a statement. *)
Fixpoint placeholders (s : string) : nat :=
  match s with
  | EmptyString => O
  | String c r => ((if Ascii.eqb c "?" then 1 else 0) + placeholders r)%nat
  end.

(** The text of an [UPDATE] that sets the columns [cols] and the two stamps
    of the row of [table] whose [key] is bound last. *)
Definition updateText (table key : string) (cols : list string) : string :=
  "UPDATE " ++ table ++ " SET "
  ++ Catalog.join ", " (app (map (fun c => c ++ " = ?") cols)
                             ["last_updated = NOW()"; "is_synced = 0"])
  ++ " WHERE " ++ key ++ " = ?".

(** The columns a [PATCH] may set: those taken from a text of the body, and
    those taken from any value given, null included. *)
Definition textColumn (c : string) : bool :=
  existsb (String.eqb c)
          ["name"; "barcode"; "reference"; "description"; "productType"].

Definition given (b : Js.Value) (c : string) : bool :=
  match Server.prop c b with
  | Js.JStr _ => true
  | Js.JUndefined => false
  | _ => negb (textColumn c)
  end.

(** The arrays of a [PATCH] handler set exactly the columns [cols]. *)
Definition marked (cols : list string) (st : Catalog.Sets) : Prop :=
  fst st = map (fun c => c ++ " = ?") cols
  /\ List.length (snd st) = List.length cols.


Definition offerColumns : list string := ["name"; "quantity"; "price"].

(** ** Dates *)

(** The [n] integers from [lo] on. *)
Fixpoint zrange (lo : Z) (n : nat) : list Z :=
  match n with
  | O => []
  | S k => lo :: zrange (lo + 1) k
  end.

(** The integers from [lo] to [hi]. *)
Definition zspan (lo hi : Z) : list Z := zrange lo (Z.to_nat (hi - lo + 1)).

(** [s] is [k] digits that read [v]. *)
Definition digitsOf (k : nat) (v : Z) (s : string) : bool :=
  (String.length s =? k)%nat && Str.allDigits s && (Str.digitsFrom 0 s =? v).

(** ** Offers *)

(** The tables once offer [id] and its join rows are gone. *)
Definition withoutOffer (id : Z) (d : Api.Db) : Api.Db :=
  {| Api.users := Api.users d; Api.sales := Api.sales d;
     Api.product_offers :=
       filter (fun o => negb (Api.id_offer o =? id)) (Api.product_offers d);
     Api.product_offers_products :=
       filter (fun j => negb (Api.offer_id j =? id))
              (Api.product_offers_products d) |}.

(** Some row of [product_offers] has the id. *)
Definition hasOffer (id : Z) (d : Api.Db) : bool :=
  existsb (fun o => Api.id_offer o =? id) (Api.product_offers d).

(** The text of [n] nines. *)
Fixpoint nines (n : nat) : string :=
  match n with
  | O => EmptyString
  | S k => String "9" (nines k)
  end.

(** The store fails one of the next [n] statements. *)
Definition failsWithin (n : nat) (w : Api.World) : bool :=
  existsb (fun b => b) (firstn n (Api.faults w)).

End Vocab.

(** More stand-ins and examples, to run the gate and the statements. *)
Module Examples.

(** A verifier for the tokens of [Sample.sign] under the sample secret,
    knowing the one user of the samples. *)
Definition verify (token secret : string) : option Js.Value :=
  if String.eqb secret "s3cret" && String.eqb token "jwt.1.alice"
  then Some (Js.JObj [("sub", Js.JNum (Js.Fin 1)); ("username", Js.JStr "alice")])
  else None.

(** The store compares the number sent with the column. *)
Definition sameId (v : Js.Value) (x : Z) : bool :=
  match Js.toNumber v with
  | Js.Fin q => Qeq_bool q (inject_Z x)
  | _ => false
  end.

Definition wrongLogin : Api.LoginRequest :=
  {| Api.req_username := Js.JStr "alice"; Api.req_password := Js.JStr "guess" |}.

Definition blankLogin : Api.LoginRequest :=
  {| Api.req_username := Js.JStr "   "; Api.req_password := Js.JStr "sesame" |}.

Definition noMigration : Api.Config :=
  {| Api.jwtSecret := "s3cret"; Api.jwtExpires := "12h";
     Api.migratePlaintextPasswords := false;
     Api.migratePlaintextPasswordsOverwrite := false;
     Api.enforceRoles := true;
     Api.writeRoles := Api.mkWriteRoles "admin,manager" |}.

Definition widgetConfig : Widget.Config :=
  {| Widget.enforceRoles := true; Widget.writeRoles := ["Admin"; "manager"] |}.

Definition environment : Server.Env :=
  fun name =>
    if String.eqb name "API_PREFIX" then Some "/api/"
    else if String.eqb name "ENFORCE_ROLES" then Some "yes"
    else if String.eqb name "JWT_SECRET" then Some EmptyString
    else None.

Definition badQuery : Api.Query :=
  {| Api.q_from := Js.JStr "yesterday"; Api.q_to := Js.JUndefined;
     Api.q_limit := Js.JUndefined; Api.q_offset := Js.JUndefined |}.

(** The world after the sample login. *)
Definition loggedIn : Api.World :=
  snd (Api.serve
         (Api.login Sample.compare Sample.hash Sample.sign Sample.CFG true
                    Sample.aliceLogin)
         (Sample.world Sample.usersDb [])).

End Examples.

(** * Properties *)

Unset Implicit Arguments.

(** ** Sanity of the string and value models *)

Example ofZ_samples :
  Str.ofZ 0 = "0" /\ Str.ofZ 2025 = "2025" /\ Str.ofZ (-5) = "-5"
  /\ Str.ofZ 10000 = "10000" /\ Str.padStart2 (Str.ofZ 7) = "07".
Proof. repeat split; reflexivity. Qed.

Example trim_samples :
  Str.trim "  admin " = "admin" /\ Str.trim "   " = EmptyString
  /\ Str.toLowerCase "Admin" = "admin".
Proof. repeat split; reflexivity. Qed.

Example split_samples :
  Split.splitSeps ",a  b," EmptyString false = [EmptyString; "a"; "b"; EmptyString]
  /\ Split.tokens " admin, manager " = ["admin"; "manager"]
  /\ Api.parseCsv "admin, manager,," = ["admin"; "manager"].
Proof. repeat split; reflexivity. Qed.

Example number_samples :
  Js.stringToNumber "500" = Js.Fin 500
  /\ Js.stringToNumber "-5" = Js.Fin (-5)
  /\ Js.stringToNumber "abc" = Js.NaN
  /\ Js.stringToNumber EmptyString = Js.Fin 0
  /\ Js.stringToNumber "0x1F" = Js.Fin 31.
Proof. repeat split; reflexivity. Qed.

(** ** Numbers: rounding to binary64 *)

(** A conjunction of closed equations, each by evaluation. *)
Ltac by_evaluation :=
  repeat match goal with |- _ /\ _ => split end; vm_compute; reflexivity.

Lemma Qred_int n : Qred (inject_Z n) = inject_Z n.
Proof.
  unfold Qred, inject_Z.
  pose proof (Z.ggcd_gcd n 1) as Hg.
  pose proof (Z.ggcd_correct_divisors n 1) as Hd.
  destruct (Z.ggcd n 1) as [g [aa bb]]. cbn [fst snd] in *.
  rewrite Z.gcd_1_r in Hg. subst g. destruct Hd as [Ha Hb].
  rewrite Z.mul_1_l in Ha, Hb. subst aa bb. reflexivity.
Qed.

(** Rounding sees the value only. *)
Lemma round64_Qeq p q : (p == q)%Q -> Js.round64 p = Js.round64 q.
Proof. intros H. unfold Js.round64. now rewrite (Qred_complete p q H). Qed.

Lemma roundHalfEven_exact a : Js.roundHalfEven a 1 = a.
Proof.
  unfold Js.roundHalfEven. rewrite Z.div_1_r, Z.mod_1_r. reflexivity.
Qed.

Lemma roundHalfEven_lower num den : num / den <= Js.roundHalfEven num den.
Proof.
  unfold Js.roundHalfEven.
  repeat match goal with |- context [if ?c then _ else _] => destruct c end; lia.
Qed.

(** Rounding never gives [NaN]. *)
Lemma round64_not_nan q : Js.round64 q <> Js.NaN.
Proof.
  unfold Js.round64.
  destruct (Z.abs (Qnum (Qred q)) =? 0); [discriminate|].
  destruct (_ && _); discriminate.
Qed.

(** The whole numbers below [2 ^ 53] in size are binary64 numbers. *)
Lemma round64_int n :
  Z.abs n < 2 ^ 53 -> Js.round64 (inject_Z n) = Js.Fin (inject_Z n).
Proof.
  intros Hn. unfold Js.round64. rewrite Qred_int.
  cbn [Qnum Qden inject_Z].
  destruct (Z.eqb_spec (Z.abs n) 0) as [E|E].
  { f_equal. destruct n; cbn in E; try discriminate E; reflexivity. }
  assert (Hl : Js.log2Ratio (Z.abs n) 1 <= 52).
  { assert (Z.log2 (Z.abs n) < 53) by (apply Z.log2_lt_pow2; lia).
    unfold Js.log2Ratio. change (Z.log2 1) with 0.
    match goal with |- (if ?c then _ else _) <= _ => destruct c end; lia. }
  set (e := Z.max (Js.log2Ratio (Z.abs n) 1 - 52) (-1074)).
  assert (He : -1074 <= e <= 0) by (unfold e; lia).
  clearbody e.
  assert (Hs : (if n <? 0 then - Z.abs n else Z.abs n) = n)
    by (destruct (Z.ltb_spec n 0); lia).
  destruct (Z.leb_spec 0 e) as [H0|H0].
  - assert (e = 0) by lia. subst e. change (2 ^ 0) with 1.
    rewrite Z.mul_1_r, roundHalfEven_exact, Z.mul_1_r.
    destruct (Z.leb_spec (2 ^ 1024) (Z.abs n)) as [Hbig|_].
    { exfalso. assert (2 ^ 53 <= 2 ^ 1024) by (apply Z.pow_le_mono_r; lia). lia. }
    cbn [andb]. rewrite Hs. f_equal. apply Qred_int.
  - cbn [andb]. rewrite roundHalfEven_exact. f_equal.
    rewrite <- (Qred_int n). apply Qred_complete.
    assert (Hp : 0 < 2 ^ (- e)) by (apply Z.pow_pos_nonneg; lia).
    unfold Qeq. cbn [Qnum Qden inject_Z].
    rewrite Z2Pos.id by exact Hp.
    destruct (Z.ltb_spec n 0); nia.
Qed.

(** From [2 ^ 1024] on a whole number rounds to the infinity. *)
Lemma round64_big n :
  2 ^ 1024 <= n -> Js.round64 (inject_Z n) = Js.Infinite false.
Proof.
  intros Hn. unfold Js.round64. rewrite Qred_int. cbn [Qnum Qden inject_Z].
  assert (H1024 : 0 < 2 ^ 1024) by (apply Z.pow_pos_nonneg; lia).
  assert (Hpos : 0 < n) by lia.
  rewrite (Z.abs_eq n) by lia.
  destruct (Z.eqb_spec n 0) as [E|_]; [lia|].
  assert (Hk : 1024 <= Z.log2 n) by (apply Z.log2_le_pow2; lia).
  assert (Hl : Js.log2Ratio n 1 = Z.log2 n).
  { unfold Js.log2Ratio. change (Z.log2 1) with 0. rewrite Z.sub_0_r.
    destruct (Z.leb_spec 0 (Z.log2 n)); [|lia].
    rewrite Z.mul_1_l.
    destruct (Z.leb_spec (2 ^ Z.log2 n) n) as [_|Hlt]; [reflexivity|].
    pose proof (Z.log2_spec n Hpos). lia. }
  rewrite Hl. set (k := Z.log2 n) in *.
  rewrite (Z.max_l (k - 52) (-1074)) by lia.
  destruct (Z.leb_spec 0 (k - 52)); [|lia]. cbn [andb].
  rewrite Z.mul_1_l.
  assert (Hp : 0 < 2 ^ (k - 52)) by (apply Z.pow_pos_nonneg; lia).
  assert (Hm : 2 ^ 52 <= Js.roundHalfEven n (2 ^ (k - 52))).
  { etransitivity; [|apply roundHalfEven_lower].
    apply Z.div_le_lower_bound; [exact Hp|].
    rewrite <- Z.pow_add_r by lia.
    replace (k - 52 + 52) with k by lia.
    unfold k. apply (Z.log2_spec n Hpos). }
  assert (Hb : 2 ^ 1024 <= Js.roundHalfEven n (2 ^ (k - 52)) * 2 ^ (k - 52)).
  { transitivity (2 ^ 52 * 2 ^ (k - 52)).
    - rewrite <- Z.pow_add_r by lia. apply Z.pow_le_mono_r; lia.
    - apply Z.mul_le_mono_nonneg_r; lia. }
  destruct (Z.leb_spec (2 ^ 1024)
              (Js.roundHalfEven n (2 ^ (k - 52)) * 2 ^ (k - 52))); [|lia].
  destruct (Z.ltb_spec n 0); [lia|reflexivity].
Qed.

(** Rounding at work: a decimal fraction, the first whole number that is no
    binary64 number, the largest finite number and the first text that
    reads as the infinity, the smallest number and the half of it. *)
Example round64_samples :
  Js.stringToNumber "0.1" = Js.Fin (Qmake 3602879701896397 36028797018963968)
  /\ Js.stringToNumber "9007199254740993" = Js.Fin 9007199254740992
  /\ Js.stringToNumber "1.7976931348623157e308"
     = Js.Fin (inject_Z ((2 ^ 53 - 1) * 2 ^ 971))
  /\ Js.stringToNumber "1.7976931348623159e308" = Js.Infinite false
  /\ Js.stringToNumber "1e400" = Js.Infinite false
  /\ Js.stringToNumber "-1e400" = Js.Infinite true
  /\ Js.stringToNumber "5e-324" = Js.Fin (Qmake 1 (2 ^ 1074))
  /\ Js.stringToNumber "2e-324" = Js.Fin 0
  /\ Js.div (Js.stringToNumber "0.3") (Js.Fin 3)
     = Js.stringToNumber "0.09999999999999999"
  /\ Js.div (Js.Fin 0) (Js.Fin 0) = Js.NaN
  /\ Js.div (Js.Fin 1) (Js.Fin 0) = Js.Infinite false.
Proof. by_evaluation. Qed.

(** ** Login: verification, migration, token *)

Section LoginFacts.

Variable bcrypt_compare : string -> string -> option bool.
Variable bcrypt_hash : string -> Z -> string.
Variable jwt_sign : Z -> string -> string -> string -> string.
Variable CFG : Api.Config.
Variable HAS : bool.

Local Abbreviation login :=
  (Api.login bcrypt_compare bcrypt_hash jwt_sign CFG HAS).
Local Abbreviation passwordOk := (Api.passwordOk bcrypt_compare).
Local Abbreviation rowRead := (Spec.rowRead HAS).
Local Abbreviation storedHashOf := (Spec.storedHashOf HAS).
Local Abbreviation afterLookup :=
  (Spec.afterLookup bcrypt_compare bcrypt_hash jwt_sign CFG HAS).

Lemma poolQuery_ok A (run : Api.Db -> Z -> A * Api.Db) w :
  hd false (Api.faults w) = false ->
  Api.poolQuery run w =
  (Api.Ok (fst (run (Api.db w) (Api.clock w))),
   {| Api.db := snd (run (Api.db w) (Api.clock w)); Api.tx := Api.tx w;
      Api.clock := Api.clock w; Api.faults := tl (Api.faults w) |}).
Proof.
  intros H. unfold Api.poolQuery, Api.statement.
  destruct w as [d t c fs]; simpl in *.
  destruct fs as [|b fs]; simpl in *; [|subst b];
    now destruct (run d c).
Qed.

Lemma poolQuery_fail A (run : Api.Db -> Z -> A * Api.Db) w :
  hd false (Api.faults w) = true ->
  Api.poolQuery run w = (Api.Throw, Spec.advance w).
Proof.
  intros H. unfold Api.poolQuery, Api.statement, Spec.advance.
  destruct w as [d t c fs]; simpl in *.
  destruct fs as [|b fs]; simpl in *; [discriminate|now subst b].
Qed.

Lemma inactive_rowRead u : Api.inactive (rowRead u) = Api.inactive u.
Proof. unfold Spec.rowRead. now destruct HAS. Qed.

Lemma login_addressed req w u pw :
  Spec.addresses req w u pw ->
  login req w = afterLookup u pw (Spec.advance w).
Proof.
  intros (raw & Hu & Hn & Hp & Hpw & Hf & Hact & Hfl).
  unfold Api.login. rewrite Hu, Hp, Hn, Hpw. cbn [negb orb].
  unfold Api.bind at 1. unfold Api.getUserByUsername.
  rewrite (poolQuery_ok _ _ _ Hfl). cbn [fst snd]. rewrite Hf.
  fold (rowRead u). rewrite inactive_rowRead, Hact.
  unfold Spec.afterLookup, Spec.storedOf, Spec.storedHashOf, Spec.rowRead, Spec.advance.
  destruct HAS; reflexivity.
Qed.

Lemma afterLookup_status u pw w :
  passwordOk pw (Spec.storedOf u) (storedHashOf u) = true ->
  Api.status (fst (Api.serve (afterLookup u pw) w)) <> 401.
Proof.
  intros Hok. unfold Api.serve, Spec.afterLookup. rewrite Hok. cbn [negb].
  unfold Api.bind.
  destruct (Api.migrate _ _ _ _ _ _ _ w) as [[[]|] w1]; cbn; [|discriminate].
  destruct (Api.touchLastLogin _ w1) as [[[]|] w2]; cbn; discriminate.
Qed.

(** C1. For a login request that reaches the password check, the stored
    credential compared is chosen in this order: the dedicated hash field
    when it looks hashed, else the legacy field when it looks hashed, both
    through the hash algorithm's verification function, else the legacy
    field by equality.  A verification function that throws gives a
    mismatch: the handler answers 401 and throws nothing, and it answers 401
    only on a mismatch. *)
Theorem credential_precedence req w u pw :
  Spec.addresses req w u pw ->
  let stored := Spec.storedOf u in
  let storedHash := storedHashOf u in
  let ok :=
    if Api.passwordLooksHashed storedHash
    then Spec.verdict (bcrypt_compare pw storedHash)
    else if Api.passwordLooksHashed stored
         then Spec.verdict (bcrypt_compare pw stored)
         else String.eqb stored pw in
  passwordOk pw stored storedHash = ok
  /\ (ok = false ->
      Api.serve (login req) w
      = (Api.sendError 401 "Invalid credentials", Spec.advance w))
  /\ (ok = true -> Api.status (fst (Api.serve (login req) w)) <> 401).
Proof.
  intros Ha stored storedHash ok.
  assert (Hok : passwordOk pw stored storedHash = ok).
  { unfold Api.passwordOk, ok, Spec.verdict.
    destruct (Api.passwordLooksHashed storedHash); [reflexivity|].
    destruct (Api.passwordLooksHashed stored); reflexivity. }
  split; [exact Hok|]. unfold Api.serve.
  rewrite (login_addressed _ _ _ _ Ha). split; intros Hv.
  - unfold Spec.afterLookup. fold stored storedHash. rewrite Hok, Hv. reflexivity.
  - apply (afterLookup_status u pw). fold stored storedHash. now rewrite Hok.
Qed.

Lemma Forall2_map_self A (R : A -> A -> Prop) (g : A -> A) (l : list A) :
  (forall x, In x l -> R x (g x)) -> Forall2 R l (map g l).
Proof.
  induction l as [|a l IH]; intros H; cbn; constructor.
  - apply H. now left.
  - apply IH. intros x Hx. apply H. now right.
Qed.

Lemma nodup_key A (f : A -> Z) (l : list A) x y :
  NoDup (map f l) -> In x l -> In y l -> f x = f y -> x = y.
Proof.
  induction l as [|a l IH]; cbn; intros Hnd Hx Hy Hf; [contradiction|].
  inversion Hnd as [|? ? Hnot Hnd']; subst.
  destruct Hx as [<-|Hx], Hy as [<-|Hy]; auto.
  - exfalso. apply Hnot. rewrite Hf. now apply in_map.
  - exfalso. apply Hnot. rewrite <- Hf. now apply in_map.
Qed.

Lemma credentialStep_refl V x : Spec.credentialStep V x x.
Proof.
  unfold Spec.credentialStep.
  split; [reflexivity|split; [reflexivity|split; intros H; now elim H]].
Qed.

(** Each [UPDATE] either throws, leaving the tables alone, or maps its row
    function over [users]. *)
Lemma updatePasswordHash_cases h id w :
  Api.updatePasswordHash h id w = (Api.Throw, Spec.advance w)
  \/ exists w', Api.updatePasswordHash h id w = (Api.Ok tt, w')
       /\ Api.users (Api.db w') = map (Spec.setHashRow h id) (Api.users (Api.db w)).
Proof.
  unfold Api.updatePasswordHash. destruct (hd false (Api.faults w)) eqn:E.
  - left. now apply poolQuery_fail.
  - right. rewrite (poolQuery_ok _ _ _ E). eexists. split; reflexivity.
Qed.

Lemma updatePassword_cases h id w :
  Api.updatePassword h id w = (Api.Throw, Spec.advance w)
  \/ exists w', Api.updatePassword h id w = (Api.Ok tt, w')
       /\ Api.users (Api.db w') = map (Spec.setPasswordRow h id) (Api.users (Api.db w)).
Proof.
  unfold Api.updatePassword. destruct (hd false (Api.faults w)) eqn:E.
  - left. now apply poolQuery_fail.
  - right. rewrite (poolQuery_ok _ _ _ E). eexists. split; reflexivity.
Qed.

Lemma touchLastLogin_cases id w :
  Api.touchLastLogin id w = (Api.Throw, Spec.advance w)
  \/ exists w', Api.touchLastLogin id w = (Api.Ok tt, w')
       /\ Api.users (Api.db w')
          = map (Spec.touchRow (Api.clock w) id) (Api.users (Api.db w)).
Proof.
  unfold Api.touchLastLogin. destruct (hd false (Api.faults w)) eqn:E.
  - left. now apply poolQuery_fail.
  - right. rewrite (poolQuery_ok _ _ _ E). eexists. split; reflexivity.
Qed.

(** Where two statements in a row leave the world. *)
Lemma serve_two (m1 m2 : Api.M unit) (r : Api.Response) w :
  snd (Api.serve (Api.bind m1 (fun _ => Api.bind m2 (fun _ => Api.ret r))) w)
  = match m1 w with
    | (Api.Ok _, w1) => snd (m2 w1)
    | (Api.Throw, w1) => w1
    end.
Proof.
  unfold Api.serve, Api.bind, Api.ret.
  destruct (m1 w) as [[[]|] w1]; [|reflexivity].
  destruct (m2 w1) as [[[]|] w2]; reflexivity.
Qed.

Lemma touch_step V l id w1 :
  Forall2 (Spec.credentialStep V) l (Api.users (Api.db w1)) ->
  Forall2 (Spec.credentialStep V) l
          (Api.users (Api.db (snd (Api.touchLastLogin id w1)))).
Proof.
  intros H. destruct (touchLastLogin_cases id w1) as [E|(w2 & E & Hu)];
    rewrite E; cbn [snd]; [exact H|].
  rewrite Hu. clear - H. induction H as [|x y l l' Hxy _ IH]; cbn; constructor; auto.
  unfold Spec.touchRow. destruct (Api.id_user y =? id); exact Hxy.
Qed.

Lemma login_cases req w :
  Api.db (snd (Api.serve (login req) w)) = Api.db w
  \/ exists u pw, Spec.addresses req w u pw.
Proof.
  unfold Api.serve, Api.login.
  destruct (Api.req_username req) as [| |?|?|raw|?|?] eqn:Hu;
    try (left; reflexivity).
  destruct (Str.truthy (Str.trim raw)) eqn:Hn; [|left; reflexivity].
  destruct (Api.req_password req) as [| |?|?|pw|?|?] eqn:Hp;
    try (left; reflexivity).
  destruct (Str.truthy pw) eqn:Hpw; [|left; reflexivity].
  cbn [negb orb]. unfold Api.bind at 1. unfold Api.getUserByUsername.
  destruct (hd false (Api.faults w)) eqn:Hfl.
  - left. now rewrite (poolQuery_fail _ _ _ Hfl).
  - rewrite (poolQuery_ok _ _ _ Hfl). cbn [fst snd].
    destruct (find _ (Api.users (Api.db w))) as [u|] eqn:Hf; [|left; reflexivity].
    fold (rowRead u). rewrite inactive_rowRead.
    destruct (Api.inactive u) eqn:Hact; [left; reflexivity|].
    right. exists u, pw, raw. repeat split; assumption.
Qed.

(** C2. Whatever the request and the store's failures, a login changes a
    credential field of a row of [users] only when the request passed the
    password check, only when that field held no hash, and only to a hash;
    this under the primary key on [id_user] and for a [bcrypt.hash] whose
    output carries a hash prefix. *)
Theorem migration_safe req w :
  (forall pw rounds, Api.passwordLooksHashed (bcrypt_hash pw rounds) = true) ->
  NoDup (map Api.id_user (Api.users (Api.db w))) ->
  Forall2 (Spec.credentialStep (Spec.verifiedBy bcrypt_compare HAS req w))
          (Api.users (Api.db w))
          (Api.users (Api.db (snd (Api.serve (login req) w)))).
Proof.
  intros Hfmt Hnd.
  set (V := Spec.verifiedBy bcrypt_compare HAS req w).
  assert (Hsame : forall d, d = Api.db w ->
            Forall2 (Spec.credentialStep V) (Api.users (Api.db w)) (Api.users d)).
  { intros d ->. rewrite <- (map_id (Api.users (Api.db w))) at 2.
    apply Forall2_map_self. intros; apply credentialStep_refl. }
  destruct (login_cases req w) as [Hno|(u & pw & Ha)]; [now apply Hsame|].
  unfold Api.serve. rewrite (login_addressed _ _ _ _ Ha). fold (Api.serve (afterLookup u pw) (Spec.advance w)).
  pose proof Ha as (raw & _ & _ & _ & _ & Hf & _ & _).
  apply find_some in Hf. destruct Hf as [Hin _].
  unfold Spec.afterLookup.
  destruct (passwordOk pw (Spec.storedOf u) (storedHashOf u)) eqn:Hok;
    [|now apply Hsame].
  assert (HV : V) by (exists u, pw; now split).
  cbn [negb].
  rewrite serve_two.
  assert (Hid : Api.id_user (rowRead u) = Api.id_user u)
    by (unfold Spec.rowRead; now destruct HAS).
  assert (Hkey : forall x, In x (Api.users (Api.db w)) ->
            Api.id_user x = Api.id_user u -> x = u).
  { intros x Hx Hx'. exact (nodup_key _ Api.id_user _ _ _ Hnd Hx Hin Hx'). }
  unfold Api.migrate. rewrite Hid.
  destruct (Api.migratePlaintextPasswords CFG && HAS
            && negb (Api.passwordLooksHashed (storedHashOf u))) eqn:B1.
  - (* the dedicated field is written *)
    apply andb_true_iff in B1. destruct B1 as [B1 Hplain].
    apply andb_true_iff in B1. destruct B1 as [_ Hhas].
    apply negb_true_iff in Hplain.
    unfold Spec.storedHashOf in Hplain. rewrite Hhas in Hplain.
    destruct (updatePasswordHash_cases (bcrypt_hash pw 12) (Api.id_user u)
                (Spec.advance w)) as [E|(w2 & E & Hu2)]; rewrite E.
    + now apply Hsame.
    + apply touch_step. rewrite Hu2. apply Forall2_map_self. intros x Hx.
      unfold Spec.setHashRow.
      destruct (Api.id_user x =? Api.id_user u) eqn:Hx';
        [|apply credentialStep_refl].
      apply Z.eqb_eq in Hx'. rewrite (Hkey x Hx Hx').
      unfold Spec.credentialStep; cbn.
      split; [reflexivity|split; [reflexivity|split]].
      * intros _. split; [exact HV|split; [exact Hplain|apply Hfmt]].
      * intros H; now elim H.
  - destruct (Api.migratePlaintextPasswords CFG && negb HAS
              && Api.migratePlaintextPasswordsOverwrite CFG
              && negb (Api.passwordLooksHashed (Spec.storedOf u))) eqn:B2.
    + (* the legacy field is overwritten *)
      apply andb_true_iff in B2. destruct B2 as [_ Hplain].
      apply negb_true_iff in Hplain.
      destruct (updatePassword_cases (bcrypt_hash pw 12) (Api.id_user u)
                  (Spec.advance w)) as [E|(w2 & E & Hu2)]; rewrite E.
      * now apply Hsame.
      * apply touch_step. rewrite Hu2. apply Forall2_map_self. intros x Hx.
        unfold Spec.setPasswordRow.
        destruct (Api.id_user x =? Api.id_user u) eqn:Hx';
          [|apply credentialStep_refl].
        apply Z.eqb_eq in Hx'. rewrite (Hkey x Hx Hx').
        unfold Spec.credentialStep; cbn.
        split; [reflexivity|split; [reflexivity|split]].
        -- intros H; now elim H.
        -- intros _. split; [exact HV|split; [exact Hplain|apply Hfmt]].
    + (* nothing to upgrade *)
      unfold Api.ret at 1. apply touch_step. now apply Hsame.
Qed.

Lemma all_ok_hd fs : Forall (fun b => b = false) fs -> hd false fs = false.
Proof. now destruct 1. Qed.

Lemma all_ok_tl fs : Forall (fun b => b = false) fs ->
  Forall (fun b => b = false) (tl fs).
Proof. destruct 1; [constructor|assumption]. Qed.

Lemma touch_ok id w :
  Forall (fun b => b = false) (Api.faults w) ->
  fst (Api.touchLastLogin id w) = Api.Ok tt.
Proof.
  intros H. unfold Api.touchLastLogin.
  now rewrite (poolQuery_ok _ _ _ (all_ok_hd _ H)).
Qed.

(** C3, as the handler has it.  For a login request that passes the password
    check: when the store fails none of the request's statements the answer
    carries the token and the user; when an upgrade write is due and the
    store fails it, the failure leaves the handler and the answer is 500
    with the masked message. *)
Theorem login_token_unless_store_fails req w u pw :
  Spec.addresses req w u pw ->
  passwordOk pw (Spec.storedOf u) (storedHashOf u) = true ->
  (Forall (fun b => b = false) (Api.faults w) ->
   fst (Api.serve (login req) w)
   = Api.send (Api.Session
       (jwt_sign (Api.id_user u) (Api.username u)
                 (Api.jwtSecret CFG) (Api.jwtExpires CFG))
       (Api.publicUser (rowRead u))))
  /\ (Spec.migrationDue CFG HAS (Spec.storedOf u) (storedHashOf u) = true ->
      hd false (tl (Api.faults w)) = true ->
      fst (Api.serve (login req) w) = Api.sendError 500 "Server error").
Proof.
  intros Ha Hok. unfold Api.serve. rewrite (login_addressed _ _ _ _ Ha).
  unfold Spec.afterLookup. rewrite Hok. cbn [negb]. split.
  - intros Hall.
    assert (H1 : Forall (fun b => b = false) (Api.faults (Spec.advance w)))
      by (apply all_ok_tl, Hall).
    unfold Api.bind at 1.
    assert (Hm : exists w1,
               Api.migrate bcrypt_hash CFG HAS (rowRead u) pw
                 (Spec.storedOf u) (storedHashOf u) (Spec.advance w)
               = (Api.Ok tt, w1)
               /\ Forall (fun b => b = false) (Api.faults w1)).
    { unfold Api.migrate, Api.updatePasswordHash, Api.updatePassword.
      destruct (_ && _ && negb _);
        [|destruct (_ && _ && _ && negb _)];
        try rewrite (poolQuery_ok _ _ _ (all_ok_hd _ H1));
        eexists; (split; [reflexivity|]); cbn; auto using all_ok_tl. }
    destruct Hm as (w1 & -> & H2).
    unfold Api.bind. pose proof (touch_ok (Api.id_user u) w1 H2) as Ht.
    destruct (Api.touchLastLogin (Api.id_user u) w1) as [r w2].
    cbn in Ht. subst r. reflexivity.
  - intros Hdue Hfail. unfold Api.bind at 1.
    change (hd false (Api.faults (Spec.advance w)) = true) in Hfail.
    assert (Hm : fst (Api.migrate bcrypt_hash CFG HAS (rowRead u) pw
                        (Spec.storedOf u) (storedHashOf u) (Spec.advance w))
                 = Api.Throw).
    { unfold Spec.migrationDue in Hdue.
      unfold Api.migrate, Api.updatePasswordHash, Api.updatePassword.
      destruct (_ && _ && negb _);
        [|cbn [orb] in Hdue; rewrite Hdue];
        now rewrite (poolQuery_fail _ _ _ Hfail). }
    destruct (Api.migrate _ _ _ _ _ _ _ _) as [r w1]. cbn in Hm. subst r.
    reflexivity.
Qed.

End LoginFacts.

(** *** The login theorems on a sample store *)

Lemma sample_addressed fs :
  hd false fs = false ->
  Spec.addresses Sample.aliceLogin (Sample.world Sample.usersDb fs)
                 Sample.alice "sesame".
Proof. intros H. exists "alice". repeat split; try reflexivity. exact H. Qed.

Lemma sample_hash_format pw rounds :
  Api.passwordLooksHashed (Sample.hash pw rounds) = true.
Proof. reflexivity. Qed.

Lemma credential_precedence_witness :
  Spec.addresses Sample.aliceLogin (Sample.world Sample.usersDb [])
                 Sample.alice "sesame"
  /\ Api.status (fst (Api.serve
       (Api.login Sample.compare Sample.hash Sample.sign Sample.CFG true
                  Sample.aliceLogin)
       (Sample.world Sample.usersDb []))) <> 401.
Proof.
  split; [apply sample_addressed; reflexivity|].
  apply (credential_precedence Sample.compare Sample.hash Sample.sign
           Sample.CFG true _ _ _ _ (sample_addressed [] eq_refl)).
  reflexivity.
Defined.

Lemma migration_safe_witness :
  NoDup (map Api.id_user (Api.users (Api.db (Sample.world Sample.usersDb []))))
  /\ Forall2
       (Spec.credentialStep
          (Spec.verifiedBy Sample.compare true Sample.aliceLogin
                           (Sample.world Sample.usersDb [])))
       (Api.users (Api.db (Sample.world Sample.usersDb [])))
       (Api.users (Api.db (snd (Api.serve
          (Api.login Sample.compare Sample.hash Sample.sign Sample.CFG true
                     Sample.aliceLogin)
          (Sample.world Sample.usersDb []))))).
Proof.
  assert (Hnd : NoDup (map Api.id_user
                 (Api.users (Api.db (Sample.world Sample.usersDb []))))).
  { cbn. constructor; [intros []|constructor]. }
  split; [exact Hnd|].
  exact (migration_safe Sample.compare Sample.hash Sample.sign Sample.CFG
           true Sample.aliceLogin (Sample.world Sample.usersDb [])
           sample_hash_format Hnd).
Defined.

(** On the sample store the upgrade does happen: after the login the
    dedicated field of the row holds the hash. *)
Example sample_login_migrates :
  map Api.password_hash
      (Api.users (Api.db (snd (Api.serve
         (Api.login Sample.compare Sample.hash Sample.sign Sample.CFG true
                    Sample.aliceLogin)
         (Sample.world Sample.usersDb [])))))
  = [Some "$2a$12$sesame"].
Proof. reflexivity. Qed.

Lemma login_token_unless_store_fails_witness :
  Spec.addresses Sample.aliceLogin (Sample.world Sample.usersDb [])
                 Sample.alice "sesame"
  /\ Api.passwordOk Sample.compare "sesame" (Spec.storedOf Sample.alice)
                    (Spec.storedHashOf true Sample.alice) = true
  /\ fst (Api.serve
       (Api.login Sample.compare Sample.hash Sample.sign Sample.CFG true
                  Sample.aliceLogin)
       (Sample.world Sample.usersDb []))
     = Api.send (Api.Session "jwt.1.alice" (Api.publicUser Sample.alice)).
Proof.
  split; [apply sample_addressed; reflexivity|].
  split; [reflexivity|].
  apply (login_token_unless_store_fails Sample.compare Sample.hash Sample.sign
           Sample.CFG true _ _ _ _ (sample_addressed [] eq_refl) eq_refl).
  constructor.
Defined.

(** C3 as stated fails: the password is right, the upgrade write is due, the
    store fails it (second statement of the request), and the answer is 500
    without a token. *)
Lemma best_effort_counterexample :
  Api.passwordOk Sample.compare "sesame" (Spec.storedOf Sample.alice)
                 (Spec.storedHashOf true Sample.alice) = true
  /\ Spec.migrationDue Sample.CFG true (Spec.storedOf Sample.alice)
                       (Spec.storedHashOf true Sample.alice) = true
  /\ fst (Api.serve
       (Api.login Sample.compare Sample.hash Sample.sign Sample.CFG true
                  Sample.aliceLogin)
       (Sample.world Sample.usersDb [false; true]))
     = Api.sendError 500 "Server error"
  /\ Spec.isSession (fst (Api.serve
       (Api.login Sample.compare Sample.hash Sample.sign Sample.CFG true
                  Sample.aliceLogin)
       (Sample.world Sample.usersDb [false; true]))) = false.
Proof. repeat split. Qed.




(** ** Roles *)

Lemma mem_In x l : Split.mem x l = true <-> In x l.
Proof.
  unfold Split.mem. rewrite existsb_exists. split.
  - intros (y & Hy & E). apply String.eqb_eq in E. now subst.
  - intros H. exists x. split; [exact H|apply String.eqb_refl].
Qed.

Lemma fold_cons_In (f : string -> string) l acc x :
  In x (fold_left (fun a y => f y :: a) l acc) <-> In x (map f l) \/ In x acc.
Proof.
  revert acc. induction l as [|y l IH]; intros acc; cbn.
  - tauto.
  - rewrite IH. cbn. tauto.
Qed.

(** C5, as the parser has it.  The array [["admin"]] and the text
    [{"admin":true}] both parse to the one role [admin]; the CSV text
    [admin,manager] parses to the two roles [admin] and [manager] (so does
    the CSV text [admin] to the one). *)
Theorem role_encodings :
  Api.parseRoles (Js.JArr [Js.JStr "admin"]) = ["admin"]
  /\ Api.parseRoles (Js.JStr Spec.adminObjectText) = ["admin"]
  /\ Api.parseRoles (Js.JStr "admin,manager") = ["admin"; "manager"]
  /\ Api.parseRoles (Js.JStr "admin") = ["admin"].
Proof. repeat split; vm_compute; reflexivity. Qed.

(** C5 as stated fails on its CSV example: [manager] is a role of
    [admin,manager] and is no member of the set [{admin}]. *)
Lemma role_encodings_counterexample :
  In "manager" (Api.parseRoles (Js.JStr "admin,manager"))
  /\ ~ In "manager" ["admin"]
  /\ Api.parseRoles (Js.JStr "admin,manager")
     <> Api.parseRoles (Js.JArr [Js.JStr "admin"]).
Proof.
  split; [vm_compute; auto|].
  split; [intros [H|[]]; discriminate|].
  vm_compute. discriminate.
Qed.

(** C6. With enforcement off [hasWriteRole] is true whatever the roles; with
    enforcement on it is true exactly when some name of the configured
    allow-list is among the user's parsed roles in lower case.  The widget's
    [canWrite] is the same test with its own parser, after putting the
    allow-list names in lower case too. *)
Theorem write_gate (CFG : Api.Config) (user : option Api.UserRow)
        (cfg : Widget.Config) (wuser : option Widget.User) :
  (if Api.enforceRoles CFG
   then Api.hasWriteRole CFG user = true <->
        exists r, In r (Api.writeRoles CFG)
               /\ In r (map Str.toLowerCase (Api.parseRoles (Spec.rolesOf user)))
   else Api.hasWriteRole CFG user = true)
  /\ (if Widget.enforceRoles cfg
      then Widget.canWrite cfg wuser = true <->
           exists r, In r (Widget.writeRoles cfg)
                  /\ In (Str.toLowerCase r)
                        (map Str.toLowerCase (Widget.parseRoles wuser))
      else Widget.canWrite cfg wuser = true).
Proof.
  split.
  - unfold Api.hasWriteRole. destruct (Api.enforceRoles CFG); [|reflexivity].
    cbn [negb]. fold (Spec.rolesOf user). rewrite existsb_exists.
    split; intros (r & Hr & H); exists r; (split; [exact Hr|]);
      now apply mem_In.
  - unfold Widget.canWrite. destruct (Widget.enforceRoles cfg); [|reflexivity].
    cbn [negb]. destruct (Widget.parseRoles wuser) as [|x l] eqn:E.
    + cbn. split; [discriminate|]. intros (r & _ & []).
    + cbn [List.length Nat.eqb]. rewrite existsb_exists.
      split; intros (r & Hr & H); exists r; (split; [exact Hr|]).
      * apply mem_In, fold_cons_In in H. destruct H as [H|[]]. exact H.
      * apply mem_In, fold_cons_In. now left.
Qed.

(** With the default allow-list, a user whose roles are the text
    [Admin, cashier] may write and one with [cashier] alone may not. *)
Example write_gate_samples :
  Api.hasWriteRole Sample.CFG
    (Some {| Api.id_user := 2; Api.username := "bob"; Api.password := None;
             Api.password_hash := None; Api.roles := Js.JStr "Admin, cashier";
             Api.last_login := None; Api.is_active := Some 1 |}) = true
  /\ Api.hasWriteRole Sample.CFG
    (Some {| Api.id_user := 3; Api.username := "carol"; Api.password := None;
             Api.password_hash := None; Api.roles := Js.JStr "cashier";
             Api.last_login := None; Api.is_active := Some 1 |}) = false
  /\ Api.hasWriteRole Sample.CFG None = false.
Proof. repeat split; vm_compute; reflexivity. Qed.

(** The allow-list and letter case: the server puts the configured names in
    lower case when it builds [CFG.writeRoles]; the widget does so when it
    compares. *)
Example write_gate_allow_list_case :
  Api.mkWriteRoles "Admin, Manager" = ["admin"; "manager"]
  /\ Widget.canWrite {| Widget.enforceRoles := true; Widget.writeRoles := ["Admin"] |}
                     (Spec.widgetUser (Js.JStr "admin")) = true
  /\ Widget.canWrite {| Widget.enforceRoles := true; Widget.writeRoles := ["admin"] |}
                     (Spec.widgetUser (Js.JNum (Js.Fin 0))) = false
  /\ Widget.canWrite {| Widget.enforceRoles := false; Widget.writeRoles := [] |}
                     None = true.
Proof. repeat split; vm_compute; reflexivity. Qed.

(** *** The two role parsers *)

Lemma sapp_assoc (a b c : string) : ((a ++ b) ++ c = a ++ (b ++ c))%string.
Proof. induction a as [|x a IH]; cbn; [reflexivity|now rewrite IH]. Qed.

Lemma sapp_nil_r (a : string) : (a ++ EmptyString = a)%string.
Proof. induction a as [|x a IH]; cbn; [reflexivity|now rewrite IH]. Qed.

Lemma rev_append_app a b : Str.rev_append a b = (Str.rev a ++ b)%string.
Proof.
  unfold Str.rev. revert b. induction a as [|x a IH]; intros b; cbn.
  - reflexivity.
  - rewrite IH, (IH (String x EmptyString)), sapp_assoc. reflexivity.
Qed.

Lemma rev_app a b : Str.rev (a ++ b) = (Str.rev b ++ Str.rev a)%string.
Proof.
  unfold Str.rev at 1 3. generalize EmptyString as c.
  induction a as [|x a IH]; intros c; cbn.
  - apply rev_append_app.
  - apply IH.
Qed.

Lemma rev_cons x s :
  Str.rev (String x s) = (Str.rev s ++ String x EmptyString)%string.
Proof. exact (rev_append_app s (String x EmptyString)). Qed.

Lemma rev_involutive s : Str.rev (Str.rev s) = s.
Proof.
  induction s as [|x s IH]; [reflexivity|].
  rewrite rev_cons, rev_app, IH. reflexivity.
Qed.

Lemma allSpace_app a b :
  Spec.allSpace (a ++ b) = Spec.allSpace a && Spec.allSpace b.
Proof.
  induction a as [|x a IH]; cbn; [reflexivity|].
  now rewrite IH, andb_assoc.
Qed.

Lemma allSpace_rev a : Spec.allSpace (Str.rev a) = Spec.allSpace a.
Proof.
  induction a as [|x a IH]; [reflexivity|].
  rewrite rev_cons, allSpace_app, IH. cbn.
  rewrite andb_true_r. apply andb_comm.
Qed.

Lemma trimStart_decomp s :
  exists ws, Spec.allSpace ws = true /\ s = (ws ++ Str.trimStart s)%string.
Proof.
  induction s as [|x s (ws & Hws & E)].
  - now exists EmptyString.
  - cbn. destruct (Str.isSpace x) eqn:Hx.
    + exists (String x ws). cbn. rewrite Hx, Hws. split; [reflexivity|].
      now rewrite <- E.
    + now exists EmptyString.
Qed.

Lemma trimEnd_decomp s :
  exists ws, Spec.allSpace ws = true /\ s = (Str.trimEnd s ++ ws)%string.
Proof.
  destruct (trimStart_decomp (Str.rev s)) as (ws & Hws & E).
  exists (Str.rev ws). split; [now rewrite allSpace_rev|].
  unfold Str.trimEnd. rewrite <- rev_app, <- E. symmetry. apply rev_involutive.
Qed.

Lemma trim_decomp s :
  exists a b, Spec.allSpace a = true /\ Spec.allSpace b = true
              /\ s = (a ++ Str.trim s ++ b)%string.
Proof.
  destruct (trimStart_decomp s) as (a & Ha & E).
  destruct (trimEnd_decomp (Str.trimStart s)) as (b & Hb & E').
  exists a, b. repeat split; auto. unfold Str.trim. now rewrite <- E', <- E.
Qed.

(** The pieces that survive [.map(trim).filter(Boolean)]. *)
Local Abbreviation kept l := (filter Str.truthy (map Str.trim l)).

Lemma space_is_sep c : Str.isSpace c = true -> Split.isSep c = true.
Proof. intros H. unfold Split.isSep. rewrite H. apply orb_true_r. Qed.

Lemma kept_after_sep r :
  kept (Split.splitSeps r EmptyString true)
  = kept (Split.splitSeps r EmptyString false).
Proof.
  destruct r as [|c r]; [reflexivity|]. cbn.
  destruct (Split.isSep c); reflexivity.
Qed.

Lemma tokens_skip ws s :
  Spec.allSpace ws = true -> Split.tokens (ws ++ s) = Split.tokens s.
Proof.
  induction ws as [|c ws IH]; intros H; [reflexivity|].
  cbn in H. apply andb_true_iff in H. destruct H as [Hc Hws].
  unfold Split.tokens in *. cbn. rewrite (space_is_sep _ Hc). cbn.
  rewrite kept_after_sep. now apply IH.
Qed.

Lemma kept_spaces ws cur b :
  Spec.allSpace ws = true ->
  kept (Split.splitSeps ws cur b) = kept [Str.rev cur].
Proof.
  revert cur b. induction ws as [|c ws IH]; intros cur b H; [reflexivity|].
  cbn in H. apply andb_true_iff in H. destruct H as [Hc Hws].
  cbn [Split.splitSeps]. rewrite (space_is_sep _ Hc). destruct b.
  - now apply IH.
  - cbn [map filter]. rewrite (IH EmptyString true Hws). cbn.
    destruct (Str.truthy _); reflexivity.
Qed.

Lemma kept_drop_spaces a ws cur b :
  Spec.allSpace ws = true ->
  kept (Split.splitSeps (a ++ ws) cur b) = kept (Split.splitSeps a cur b).
Proof.
  intros H. revert cur b. induction a as [|c a IH]; intros cur b.
  - cbn [append]. now apply kept_spaces.
  - cbn [append Split.splitSeps]. destruct (Split.isSep c).
    + destruct b; [apply IH|]. cbn [map filter]. now rewrite IH.
    + apply IH.
Qed.

Lemma tokens_trim s : Split.tokens (Str.trim s) = Split.tokens s.
Proof.
  destruct (trim_decomp s) as (a & b & Ha & Hb & E).
  rewrite E at 2. rewrite (tokens_skip _ _ Ha).
  unfold Split.tokens. now rewrite kept_drop_spaces.
Qed.

(** C9, as the two parsers have it.  On [null], [undefined], an array, a
    plain object, and a string whose surrounding white space [JSON.parse]
    makes nothing of, the widget's [parseRoles] returns the very list the
    server's returns. *)
Theorem role_parsers_agree (v : Js.Value) :
  Spec.agreeable v ->
  Widget.parseRoles (Spec.widgetUser v) = Api.parseRoles v.
Proof.
  destruct v as [| |b|n|s|items|props]; cbn [Spec.agreeable];
    try contradiction; try reflexivity.
  intros Hparse. unfold Widget.parseRoles, Api.parseRoles, Spec.widgetUser.
  cbn [Widget.roles Js.truthy Js.toString].
  destruct s as [|c s]; [reflexivity|].
  cbn [Str.truthy negb]. unfold Widget.safeJsonParse. rewrite Hparse.
  destruct (Str.truthy (Str.trim (String c s))) eqn:Ht; cbn [negb].
  - rewrite <- (tokens_trim (String c s)).
    destruct (Json.parse (Str.trim (String c s))) as [[| |?|?|?|?|?]|];
      reflexivity.
  - destruct (Str.trim (String c s)) eqn:Etrim; [|discriminate].
    rewrite <- (tokens_trim (String c s)), Etrim. reflexivity.
Qed.

Lemma role_parsers_agree_witness :
  Spec.agreeable (Js.JStr " admin, manager ")
  /\ Widget.parseRoles (Spec.widgetUser (Js.JStr " admin, manager "))
     = Api.parseRoles (Js.JStr " admin, manager ").
Proof.
  assert (H : Spec.agreeable (Js.JStr " admin, manager "))
    by (vm_compute; reflexivity).
  split; [exact H|exact (role_parsers_agree _ H)].
Defined.

(** C9 as stated fails on a number: for the role value 5 the server reads
    the one role [5] and the widget reads none.  Booleans part the same
    way. *)
Lemma role_parsers_counterexample :
  Api.parseRoles (Js.JNum (Js.Fin 5)) = ["5"]
  /\ Widget.parseRoles (Spec.widgetUser (Js.JNum (Js.Fin 5))) = []
  /\ Widget.parseRoles (Spec.widgetUser (Js.JNum (Js.Fin 5)))
     <> Api.parseRoles (Js.JNum (Js.Fin 5)).
Proof. repeat split; vm_compute; try reflexivity. discriminate. Qed.

(** A string that parts the two: after a form feed, which [trim] drops and
    [JSON.parse] refuses, the server reads the array and the widget reads
    the whole text as one role. *)
Example role_parsers_form_feed :
  Api.parseRoles (Js.JStr Spec.formFeedArrayText) = ["a"]
  /\ Widget.parseRoles (Spec.widgetUser (Js.JStr Spec.formFeedArrayText))
     = [Str.trim Spec.formFeedArrayText].
Proof. split; vm_compute; reflexivity. Qed.

(** ** Sales listing: paging *)

Lemma clamp_max_min lo hi t :
  lo <= hi -> Z.max lo (Z.min hi t) = Spec.clamp lo hi t.
Proof.
  intros H. unfold Spec.clamp.
  destruct (Z.ltb_spec t lo); [lia|]. destruct (Z.ltb_spec hi t); lia.
Qed.

(** C8, as the handler has it.  The limit of a sales listing is the number
    the parameter reads as, truncated and clamped to 1..100 when that number
    is finite, and 20 when the parameter is absent or reads as no finite
    number: no number at all, or an infinity, as a numeral beyond the
    binary64 numbers does.  The offset likewise with 0..1000000 and 0.  So
    500 gives the limit 100, -5 the offset 0, and 1e400 the two defaults. *)
Theorem paging_clamp (q : Api.Query) :
  Api.salesLimit q
  = match Js.toNumber (Api.q_limit q) with
    | Js.Fin x => Spec.clamp 1 100 (Js.trunc x)
    | _ => 20
    end
  /\ Api.salesOffset q
     = match Js.toNumber (Api.q_offset q) with
       | Js.Fin x => Spec.clamp 0 1000000 (Js.trunc x)
       | _ => 0
       end
  /\ 1 <= Api.salesLimit q <= 100
  /\ 0 <= Api.salesOffset q <= 1000000
  /\ (Api.q_limit q = Js.JUndefined -> Api.salesLimit q = 20)
  /\ (Api.q_offset q = Js.JUndefined -> Api.salesOffset q = 0)
  /\ (Api.q_limit q = Js.JStr "500" -> Api.salesLimit q = 100)
  /\ (Api.q_offset q = Js.JStr "-5" -> Api.salesOffset q = 0)
  /\ (Api.q_limit q = Js.JStr "1e400" -> Api.salesLimit q = 20)
  /\ (Api.q_offset q = Js.JStr "1e400" -> Api.salesOffset q = 0).
Proof.
  unfold Api.salesLimit, Api.salesOffset, Api.clampInt.
  repeat split;
    try (destruct (Js.toNumber _); try rewrite <- clamp_max_min; lia);
    try (intros ->; vm_compute; reflexivity).
Qed.

Lemma paging_clamp_witness :
  Api.q_limit Sample.januaryQuery = Js.JStr "500"
  /\ Api.q_offset Sample.januaryQuery = Js.JStr "-5"
  /\ Api.salesLimit Sample.januaryQuery = 100
  /\ Api.salesOffset Sample.januaryQuery = 0.
Proof.
  split; [reflexivity|]. split; [reflexivity|].
  pose proof (paging_clamp Sample.januaryQuery)
    as (_ & _ & _ & _ & _ & _ & Hl & Ho & _).
  split; [exact (Hl eq_refl)|exact (Ho eq_refl)].
Defined.

(** C8 as stated fails for a value that is given but reads as no finite
    number: the numeral 1e400 writes a value that clamps to 100 as a limit
    and to 1000000 as an offset, and the handler takes the defaults 20 and
    0 instead, since [Number] reads it as the infinity. *)
Lemma paging_clamp_counterexample :
  Js.decimalLiteral "1e400" = Some (inject_Z (10 ^ 400))
  /\ Spec.clamp 1 100 (Js.trunc (inject_Z (10 ^ 400))) = 100
  /\ Spec.clamp 0 1000000 (Js.trunc (inject_Z (10 ^ 400))) = 1000000
  /\ Js.toNumber (Js.JStr "1e400") = Js.Infinite false
  /\ Api.salesLimit Sample.overflowQuery = 20
  /\ Api.salesOffset Sample.overflowQuery = 0.
Proof. by_evaluation. Qed.

Example paging_defaults :
  Api.salesLimit {| Api.q_from := Js.JUndefined; Api.q_to := Js.JUndefined;
                    Api.q_limit := Js.JUndefined; Api.q_offset := Js.JUndefined |}
  = 20
  /\ Api.salesOffset {| Api.q_from := Js.JUndefined; Api.q_to := Js.JUndefined;
                        Api.q_limit := Js.JStr "12.7";
                        Api.q_offset := Js.JStr "2000000" |}
     = 1000000
  /\ Api.salesLimit {| Api.q_from := Js.JUndefined; Api.q_to := Js.JUndefined;
                       Api.q_limit := Js.JStr "12.7";
                       Api.q_offset := Js.JUndefined |}
     = 12.
Proof. repeat split; reflexivity. Qed.

(** ** Dashboard summary: the KPIs *)

Section SummaryFacts.

Variable inRange : Api.SqlRange -> Api.SaleRow -> bool.

Local Abbreviation coalesce := Spec.coalesce.

Lemma kpiScan_spec r rows sum count :
  let res := Api.kpiScan inRange r rows sum count in
  (coalesce (fst res)
   == coalesce sum + Spec.sumQ (map Spec.amount (filter (inRange r) rows)))%Q
  /\ snd res = count + Z.of_nat (List.length (filter (inRange r) rows)).
Proof.
  revert sum count. induction rows as [|s rows IH]; intros sum count.
  - cbn. unfold Spec.sumQ. cbn. split; [ring|lia].
  - cbn [Api.kpiScan filter]. destruct (inRange r s); [|apply IH].
    match goal with
    | |- context [Api.kpiScan inRange r rows ?s' ?c'] =>
        destruct (IH s' c') as [Hs Hc]
    end.
    cbv zeta in *. rewrite Hs, Hc. split.
    + cbn [map List.length]. unfold Spec.sumQ at 2. cbn [fold_right].
      fold (Spec.sumQ (map Spec.amount (filter (inRange r) rows))).
      unfold Spec.amount at 2.
      destruct (Api.total_amount s), sum; cbn [Spec.coalesce]; ring.
    + cbn [List.length]. lia.
Qed.

Lemma summary_runs q r w :
  Api.rangeToSql (Api.q_from q) (Api.q_to q) = Some r ->
  Vocab.failsWithin 5 w = false ->
  fst (Api.serve (Api.summary inRange q) w)
  = Api.send (Api.Summary (Api.shapeKpis
      (coalesce (fst (Api.kpiScan inRange r (Api.sales (Api.db w)) None 0)),
       snd (Api.kpiScan inRange r (Api.sales (Api.db w)) None 0)))).
Proof.
  intros Hr Hf. unfold Api.summary, Api.serve. rewrite Hr.
  destruct w as [d t c fs]. unfold Vocab.failsWithin in Hf.
  cbn [Api.faults Api.db] in *.
  unfold Api.bind, Api.kpiQuery, Api.profitQuery, Api.seriesQuery,
    Api.topProductsQuery, Api.topOffersQuery, Api.poolQuery, Api.statement,
    Api.ret.
  destruct fs as [|[] [|[] [|[] [|[] [|[] fs]]]]]; cbn in Hf;
    try discriminate Hf;
    cbn [Api.faults Api.db Api.clock Api.tx];
    destruct (Api.kpiScan inRange r (Api.sales d) None 0) as [sum count];
    reflexivity.
Qed.

Lemma summary_fails q r w :
  Api.rangeToSql (Api.q_from q) (Api.q_to q) = Some r ->
  Vocab.failsWithin 5 w = true ->
  fst (Api.serve (Api.summary inRange q) w) = Api.sendError 500 "Server error".
Proof.
  intros Hr Hf. unfold Api.summary, Api.serve. rewrite Hr.
  destruct w as [d t c fs]. unfold Vocab.failsWithin in Hf.
  cbn [Api.faults Api.db] in *.
  unfold Api.bind, Api.kpiQuery, Api.profitQuery, Api.seriesQuery,
    Api.topProductsQuery, Api.topOffersQuery, Api.poolQuery, Api.statement,
    Api.ret.
  destruct fs as [|[] [|[] [|[] [|[] [|[] fs]]]]]; cbn in Hf;
    try discriminate Hf;
    cbn [Api.faults Api.db Api.clock Api.tx];
    try destruct (Api.kpiScan inRange r (Api.sales d) None 0) as [sum count];
    reflexivity.
Qed.

(** C7. For a request whose range resolves: when the store fails one of the
    five reads of the handler the answer is the masked 500; when it fails
    none, the answer is a summary in which [revenue] is the sum of the
    amounts of the sales in range as a binary64 number (0 when there is
    none), [salesCount] is their number, and [avgTicket] is [revenue /
    salesCount] when the count is positive and 0 otherwise: no division is
    made by a zero count, whose quotient would be [NaN]. *)
Theorem kpi_contract (q : Api.Query) (r : Api.SqlRange) (w : Api.World) :
  Api.rangeToSql (Api.q_from q) (Api.q_to q) = Some r ->
  let inSales := filter (inRange r) (Api.sales (Api.db w)) in
  let n := Z.of_nat (List.length inSales) in
  (Vocab.failsWithin 5 w = true ->
   fst (Api.serve (Api.summary inRange q) w) = Api.sendError 500 "Server error")
  /\ (Vocab.failsWithin 5 w = false ->
      exists k,
        fst (Api.serve (Api.summary inRange q) w) = Api.send (Api.Summary k)
        /\ Api.revenue k = Js.round64 (Spec.sumQ (map Spec.amount inSales))
        /\ (inSales = [] -> Api.revenue k = Js.Fin 0)
        /\ Api.salesCount k = Js.round64 (inject_Z n)
        /\ (n < 2 ^ 53 -> Api.salesCount k = Js.Fin (inject_Z n))
        /\ Api.avgTicket k
           = (if 0 <? n then Js.div (Api.revenue k) (Api.salesCount k)
              else Js.Fin 0)
        /\ (n < 2 ^ 53 -> Api.avgTicket k <> Js.NaN)).
Proof.
  intros Hr inSales n. split; [exact (summary_fails q r w Hr)|]. intros Hf.
  rewrite (summary_runs q r w Hr Hf).
  pose proof (kpiScan_spec r (Api.sales (Api.db w)) None 0) as H.
  cbv zeta in H. fold inSales in H. fold n in H.
  destruct (Api.kpiScan inRange r (Api.sales (Api.db w)) None 0) as [sum count].
  cbn [fst snd] in *. destruct H as [Hs Hc]. rewrite Z.add_0_l in Hc. subst count.
  assert (Hrev : Js.round64 (coalesce sum)
                 = Js.round64 (Spec.sumQ (map Spec.amount inSales))).
  { apply round64_Qeq. rewrite Hs. cbn [Spec.coalesce]. ring. }
  assert (Hcount : n < 2 ^ 53 -> Js.round64 (inject_Z n) = Js.Fin (inject_Z n)).
  { intros Hn. apply round64_int. unfold n in *. lia. }
  assert (Hzero : (n =? 0) = negb (0 <? n)).
  { unfold n. destruct (Z.eqb_spec (Z.of_nat (List.length inSales)) 0);
      destruct (Z.ltb_spec 0 (Z.of_nat (List.length inSales))); try reflexivity; lia. }
  eexists. split; [reflexivity|].
  unfold Api.shapeKpis. cbn [Api.revenue Api.salesCount Api.avgTicket].
  rewrite Hrev, Hzero, negb_involutive.
  split; [reflexivity|].
  split; [intros E; now rewrite E|].
  split; [reflexivity|]. split; [exact Hcount|]. split; [reflexivity|].
  intros Hn. rewrite (Hcount Hn).
  destruct (Z.ltb_spec 0 n) as [Hpos|_]; [|discriminate].
  pose proof (round64_not_nan (Spec.sumQ (map Spec.amount inSales))) as Hnn.
  destruct (Js.round64 (Spec.sumQ (map Spec.amount inSales))) as [|neg|p];
    [now elim Hnn|discriminate|].
  unfold Js.div. cbn [Qnum inject_Z].
  destruct (Z.eqb_spec n 0); [lia|]. apply round64_not_nan.
Qed.

End SummaryFacts.

Lemma kpi_contract_witness :
  Api.rangeToSql (Api.q_from Sample.januaryQuery) (Api.q_to Sample.januaryQuery)
  = Some {| Api.from := "2024-01-01 00:00:00"; Api.toExcl := "2024-01-04 00:00:00" |}
  /\ Vocab.failsWithin 5 (Sample.world Sample.salesDb []) = false
  /\ (exists k,
        fst (Api.serve (Api.summary Sample.between Sample.januaryQuery)
                       (Sample.world Sample.salesDb []))
        = Api.send (Api.Summary k)
        /\ Api.revenue k = Js.Fin 150
        /\ Api.salesCount k = Js.Fin 2
        /\ Api.avgTicket k = Js.Fin 75)
  /\ Vocab.failsWithin 5
       (Sample.world Sample.salesDb [false; false; false; false; true]) = true
  /\ fst (Api.serve (Api.summary Sample.between Sample.januaryQuery)
            (Sample.world Sample.salesDb [false; false; false; false; true]))
     = Api.sendError 500 "Server error".
Proof.
  assert (Hr : Api.rangeToSql (Api.q_from Sample.januaryQuery)
                              (Api.q_to Sample.januaryQuery)
               = Some {| Api.from := "2024-01-01 00:00:00";
                         Api.toExcl := "2024-01-04 00:00:00" |})
    by (vm_compute; reflexivity).
  split; [exact Hr|]. split; [reflexivity|].
  split.
  - destruct (proj2 (kpi_contract Sample.between Sample.januaryQuery _
                       (Sample.world Sample.salesDb []) Hr) eq_refl)
      as (k & Hk & Hrev & _ & Hcount & _ & Havg & _).
    exists k. split; [exact Hk|].
    assert (Hv : Api.revenue k = Js.Fin 150)
      by (rewrite Hrev; vm_compute; reflexivity).
    assert (Hc : Api.salesCount k = Js.Fin 2)
      by (rewrite Hcount; vm_compute; reflexivity).
    split; [exact Hv|]. split; [exact Hc|].
    rewrite Havg, Hv, Hc. vm_compute. reflexivity.
  - split; [reflexivity|].
    exact (proj1 (kpi_contract Sample.between Sample.januaryQuery _
                    (Sample.world Sample.salesDb [false; false; false; false; true])
                    Hr) eq_refl).
Defined.

(** A store that fails one of the four later reads makes the summary answer
    the masked 500; and the quotient is a binary64 one: three sales of 0.1
    give the revenue 0.3 and the average ticket 0.09999999999999999. *)
Example kpi_samples :
  fst (Api.serve (Api.summary Sample.between Sample.januaryQuery)
                 (Sample.world Sample.salesDb [false; false; true]))
  = Api.sendError 500 "Server error"
  /\ Api.shapeKpis (Qmake 3 10, 3)
     = {| Api.revenue := Js.stringToNumber "0.3";
          Api.salesCount := Js.Fin 3;
          Api.avgTicket := Js.stringToNumber "0.09999999999999999" |}
  /\ Api.shapeKpis (0%Q, 0)
     = {| Api.revenue := Js.Fin 0; Api.salesCount := Js.Fin 0;
          Api.avgTicket := Js.Fin 0 |}.
Proof. by_evaluation. Qed.

(** ** Offers: deletion *)

Lemma statement_ok A (run : Api.World -> A * Api.World) w :
  hd false (Api.faults w) = false ->
  Api.statement run w
  = (Api.Ok (fst (run (Spec.advance w))), snd (run (Spec.advance w))).
Proof.
  intros H. unfold Api.statement, Spec.advance.
  destruct w as [d t c fs]; cbn in *.
  destruct fs as [|b fs]; cbn in *; [|subst b]; now destruct (run _).
Qed.

Lemma filter_none A (f : A -> bool) (l : list A) :
  (forall x, In x l -> f x = false) -> filter f l = [].
Proof.
  induction l as [|a l IH]; intros H; cbn; [reflexivity|].
  rewrite (H a (or_introl eq_refl)). apply IH. intros x Hx. apply H. now right.
Qed.

Lemma filter_all A (f : A -> bool) (l : list A) :
  (forall x, In x l -> f x = true) -> filter f l = l.
Proof.
  induction l as [|a l IH]; intros H; cbn; [reflexivity|].
  rewrite (H a (or_introl eq_refl)). f_equal. apply IH. intros x Hx. apply H. now right.
Qed.

(** C10. [DELETE /offers/:id] with a well-formed id of no offer row, on a
    store that fails none of the four statements: the answer is 404, and the
    committed tables are the former ones without the join rows of that id.
    So when such join rows existed the tables have changed under the 404. *)
Theorem delete_offer_not_found (idRaw : Js.Value) (id : Z) (w : Api.World) :
  Api.offerId idRaw = Some id ->
  Forall (fun b => b = false) (Api.faults w) ->
  (forall o, In o (Api.product_offers (Api.db w)) -> Api.id_offer o <> id) ->
  let out := Api.serve (Api.deleteOffer idRaw) w in
  fst out = Api.sendError 404 "Not found"
  /\ Api.db (snd out) = Spec.withoutJoins id (Api.db w)
  /\ Api.tx (snd out) = None
  /\ ((exists j, In j (Api.product_offers_products (Api.db w))
                 /\ Api.offer_id j = id) ->
      Api.db (snd out) <> Api.db w).
Proof.
  intros Hid Hall Hnone out.
  assert (Hrows : filter (fun o => Api.id_offer o =? id)
                         (Api.product_offers (Api.db w)) = []).
  { apply filter_none. intros o Ho. apply Z.eqb_neq. now apply Hnone. }
  assert (Hkeep : filter (fun o => negb (Api.id_offer o =? id))
                         (Api.product_offers (Api.db w))
                  = Api.product_offers (Api.db w)).
  { apply filter_all. intros o Ho. apply negb_true_iff, Z.eqb_neq. now apply Hnone. }
  assert (Hout : out = (Api.sendError 404 "Not found",
            {| Api.db := Spec.withoutJoins id (Api.db w); Api.tx := None;
               Api.clock := Api.clock w;
               Api.faults := tl (tl (tl (tl (Api.faults w)))) |})).
  { unfold out, Api.serve, Api.deleteOffer. rewrite Hid.
    unfold Api.withRollback, Api.bind.
    pose proof (all_ok_hd _ Hall) as H1.
    pose proof (all_ok_hd _ (all_ok_tl _ Hall)) as H2.
    pose proof (all_ok_hd _ (all_ok_tl _ (all_ok_tl _ Hall))) as H3.
    pose proof (all_ok_hd _ (all_ok_tl _ (all_ok_tl _ (all_ok_tl _ Hall)))) as H4.
    unfold Api.beginTransaction. rewrite (statement_ok _ _ _ H1). cbn [fst snd].
    unfold Api.deleteJoinRows, Api.connQuery.
    rewrite statement_ok by (cbn; exact H2). cbn [fst snd Spec.advance Api.tx Api.db Api.clock Api.faults].
    unfold Api.deleteOfferRow, Api.connQuery.
    rewrite statement_ok by (cbn; exact H3). cbn [fst snd Spec.advance Api.tx Api.db Api.clock Api.faults
                                         Api.product_offers Api.users Api.sales
                                         Api.product_offers_products].
    unfold Api.commit. rewrite statement_ok by (cbn; exact H4).
    cbn [fst snd Spec.advance Api.tx Api.db Api.clock Api.faults].
    rewrite Hrows, Hkeep. cbn [List.length Z.of_nat Z.eqb Api.ret].
    reflexivity. }
  rewrite Hout. cbn [fst snd Api.db Api.tx].
  repeat split.
  intros (j & Hj & Hjid) E.
  assert (Hin : In j (Api.product_offers_products (Spec.withoutJoins id (Api.db w))))
    by (rewrite E; exact Hj).
  cbn in Hin. apply filter_In in Hin. destruct Hin as [_ Hneg].
  apply negb_true_iff, Z.eqb_neq in Hneg. contradiction.
Qed.

Lemma delete_offer_not_found_witness :
  Api.offerId (Js.JStr "7") = Some 7
  /\ fst (Api.serve (Api.deleteOffer (Js.JStr "7"))
                    (Sample.world Sample.orphanDb []))
     = Api.sendError 404 "Not found"
  /\ Api.db (snd (Api.serve (Api.deleteOffer (Js.JStr "7"))
                            (Sample.world Sample.orphanDb [])))
     <> Api.db (Sample.world Sample.orphanDb []).
Proof.
  assert (Hid : Api.offerId (Js.JStr "7") = Some 7) by reflexivity.
  assert (Hnone : forall o,
            In o (Api.product_offers (Api.db (Sample.world Sample.orphanDb []))) ->
            Api.id_offer o <> 7).
  { intros o [<-|[]]. discriminate. }
  pose proof (delete_offer_not_found (Js.JStr "7") 7
                (Sample.world Sample.orphanDb []) Hid (Forall_nil _) Hnone)
    as (H404 & _ & _ & Hchanged).
  split; [exact Hid|]. split; [exact H404|].
  apply Hchanged. eexists. split; [left; reflexivity|reflexivity].
Defined.

(** What is left of the sample store after the 404: offer 8 and its join
    row; the join row of the missing offer 7 is gone. *)
Example delete_offer_sample :
  Api.product_offers_products
    (Api.db (snd (Api.serve (Api.deleteOffer (Js.JStr "7"))
                            (Sample.world Sample.orphanDb []))))
  = [{| Api.offer_id := 8; Api.product_id := 80 |}].
Proof. reflexivity. Qed.

(** ** Range resolution *)

Import JsDate.

Lemma DayFromYear_succ y :
  DayFromYear (y + 1) = DayFromYear y + (if InLeapYear y then 366 else 365).
Proof.
  unfold DayFromYear, InLeapYear.
  destruct (Z.eqb_spec (y mod 4) 0), (Z.eqb_spec (y mod 100) 0),
    (Z.eqb_spec (y mod 400) 0); cbn [negb andb orb];
    Z.to_euclidean_division_equations; lia.
Qed.

Lemma DayFromYear_mono a b : a <= b -> DayFromYear a <= DayFromYear b.
Proof.
  intros H. unfold DayFromYear. Z.to_euclidean_division_equations. lia.
Qed.

Lemma yearSearch_spec fuel from n y :
  DayFromYear y <= n < DayFromYear (y + 1) ->
  y <= from -> from - y < Z.of_nat fuel ->
  yearSearch fuel from n = y.
Proof.
  revert from. induction fuel as [|f IH]; intros from Hn Hle Hf; [lia|].
  cbn [yearSearch]. destruct (Z.leb_spec (DayFromYear from) n) as [H|H].
  - destruct (Z.eq_dec from y) as [E|E]; [exact E|].
    pose proof (DayFromYear_mono (y + 1) from ltac:(lia)). lia.
  - assert (from <> y) by (intros ->; lia).
    apply IH; [exact Hn|lia|lia].
Qed.

Lemma YearFromDay_spec n y :
  DayFromYear y <= n < DayFromYear (y + 1) -> YearFromDay n = y.
Proof.
  intros Hn. unfold YearFromDay. apply yearSearch_spec; [exact Hn| |].
  - destruct (Z.ltb_spec n 0).
    + pose proof (DayFromYear_mono 1970 y). 
      change (DayFromYear 1970) with 0 in *. lia.
    + unfold DayFromYear in Hn. Z.to_euclidean_division_equations. lia.
  - rewrite Z2Nat.id by (Z.to_euclidean_division_equations; lia).
    destruct (Z.ltb_spec n 0).
    + unfold DayFromYear in Hn. Z.to_euclidean_division_equations. lia.
    + pose proof (DayFromYear_mono (y + 1) 1970).
      change (DayFromYear 1970) with 0 in *. 
      assert (1970 <= y) by lia.
      Z.to_euclidean_division_equations. lia.
Qed.

Ltac month_cases m H :=
  assert (H : m = 1 \/ m = 2 \/ m = 3 \/ m = 4 \/ m = 5 \/ m = 6 \/ m = 7
              \/ m = 8 \/ m = 9 \/ m = 10 \/ m = 11 \/ m = 12) by lia;
  repeat (destruct H as [H|H]; [subst m|]); [..|subst m].

Ltac decide_ltb :=
  repeat match goal with
         | |- context [?a <? ?b] => destruct (Z.ltb_spec a b); try lia
         end.

Lemma dayNum_in_year y m d :
  Spec.validDate y m d ->
  DayFromYear y <= Spec.dayNum y m d < DayFromYear (y + 1).
Proof.
  intros [Hm Hd]. rewrite DayFromYear_succ. unfold Spec.dayNum.
  unfold Spec.daysInMonth in Hd.
  month_cases m Hmc; cbn in *; destruct (InLeapYear y); cbn in *; lia.
Qed.

Lemma roundtrip y m d :
  Spec.validDate y m d ->
  YearFromDay (Spec.dayNum y m d) = y
  /\ MonthFromDay (Spec.dayNum y m d) = m - 1
  /\ DateFromDay (Spec.dayNum y m d) = d.
Proof.
  intros Hv. pose proof (YearFromDay_spec _ _ (dayNum_in_year _ _ _ Hv)) as HY.
  assert (HM : MonthFromDay (Spec.dayNum y m d) = m - 1).
  { unfold MonthFromDay, DayWithinYear. rewrite HY.
    destruct Hv as [Hm Hd]. unfold Spec.dayNum. unfold Spec.daysInMonth in Hd.
    generalize (DayFromYear y) as D. intros D.
    month_cases m Hmc; cbn in *; destruct (InLeapYear y); cbn in *;
      decide_ltb; reflexivity. }
  split; [exact HY|]. split; [exact HM|].
  unfold DateFromDay, DayWithinYear. rewrite HM, HY. unfold Spec.dayNum. lia.
Qed.

Lemma nextDay_valid y m d :
  Spec.validDate y m d ->
  let '(y', m', d') := Spec.nextDay y m d in Spec.validDate y' m' d'.
Proof.
  intros [Hm Hd]. unfold Spec.nextDay.
  destruct (Z.ltb_spec d (Spec.daysInMonth y m)); [split; lia|].
  destruct (Z.ltb_spec m 12); unfold Spec.validDate, Spec.daysInMonth.
  - month_cases m Hmc; cbn; try destruct (InLeapYear y); lia.
  - cbn. lia.
Qed.

Lemma nextDay_dayNum y m d :
  Spec.validDate y m d ->
  let '(y', m', d') := Spec.nextDay y m d in
  Spec.dayNum y' m' d' = Spec.dayNum y m d + 1.
Proof.
  intros [Hm Hd]. unfold Spec.nextDay.
  destruct (Z.ltb_spec d (Spec.daysInMonth y m)); [unfold Spec.dayNum; lia|].
  destruct (Z.ltb_spec m 12); unfold Spec.dayNum.
  - unfold Spec.daysInMonth in *.
    month_cases m Hmc; cbn in *; destruct (InLeapYear y); cbn in *; lia.
  - assert (m = 12) by lia. subst m. rewrite DayFromYear_succ.
    unfold Spec.daysInMonth in *. cbn in *.
    destruct (InLeapYear y), (InLeapYear (y + 1)); cbn; lia.
Qed.

(** [setUTCDate(getUTCDate() + 1)] on the day of a calendar date is the next
    day. *)
Lemma addUTCDate_dayNum y m d :
  Spec.validDate y m d -> Z.abs (Spec.dayNum y m d) < 100000000 ->
  addUTCDate (Some (Spec.dayNum y m d)) 1 = Some (Spec.dayNum y m d + 1).
Proof.
  intros Hv Hb. unfold addUTCDate.
  destruct (roundtrip _ _ _ Hv) as (-> & -> & ->).
  assert (E : MakeDay y (m - 1) (d + 1) = Spec.dayNum y m d + 1).
  { unfold MakeDay, Spec.dayNum. destruct Hv as [Hm _].
    replace ((m - 1) / 12) with 0 by (Z.to_euclidean_division_equations; lia).
    replace ((m - 1) mod 12) with (m - 1) by (Z.to_euclidean_division_equations; lia).
    rewrite Z.add_0_r. lia. }
  rewrite E. unfold TimeClip.
  destruct (Z.leb_spec (Z.abs (Spec.dayNum y m d + 1)) 100000000); [reflexivity|lia].
Qed.

Lemma dayNum_bound y m d :
  Spec.validDate y m d -> 100 <= y <= 9999 ->
  Z.abs (Spec.dayNum y m d) < 100000000.
Proof.
  intros Hv Hy. pose proof (dayNum_in_year _ _ _ Hv) as H.
  pose proof (DayFromYear_mono 100 y ltac:(lia)).
  pose proof (DayFromYear_mono (y + 1) 10000 ltac:(lia)).
  change (DayFromYear 100) with (-683003) in *.
  change (DayFromYear 10000) with 2932897 in *. lia.
Qed.

(** *** The texts *)

Lemma digit_cases c : Str.isDigit c = true -> In c Spec.digits10.
Proof.
  unfold Spec.digits10.
  destruct c as [[] [] [] [] [] [] [] []]; cbn; intros H;
    try discriminate H; tauto.
Qed.

Lemma digit_not_hyphen c : Str.isDigit c = true -> Ascii.eqb c "-" = false.
Proof.
  intros H. apply digit_cases in H. unfold Spec.digits10 in H. cbn in H.
  repeat (destruct H as [<-|H]; [reflexivity|]). destruct H.
Qed.

Lemma digitVal_range c : Str.isDigit c = true -> 0 <= Str.digitVal c <= 9.
Proof.
  intros H. apply digit_cases in H. unfold Spec.digits10 in H. cbn in H.
  repeat (destruct H as [<-|H]; [vm_compute; split; discriminate|]). destruct H.
Qed.

Lemma numEqb_eq a b : Spec.numEqb a b = true -> a = b.
Proof.
  destruct a as [|x|[p1 p2]], b as [|y|[q1 q2]]; cbn; try discriminate; intros H.
  - reflexivity.
  - apply Bool.eqb_prop in H. now subst.
  - apply andb_true_iff in H. destruct H as [H1 H2].
    apply Z.eqb_eq in H1. apply Pos.eqb_eq in H2. now subst.
Qed.

Lemma twoDigitsRead_true :
  forallb (fun a => forallb (fun b =>
    Spec.reads (String a (String b EmptyString))) Spec.digits10) Spec.digits10
  = true.
Proof. vm_compute. reflexivity. Qed.

Lemma fourDigitsRead_true :
  forallb (fun a => forallb (fun b => forallb (fun c => forallb (fun d =>
    Spec.reads (String a (String b (String c (String d EmptyString)))))
    Spec.digits10) Spec.digits10) Spec.digits10) Spec.digits10
  = true.
Proof. vm_compute. reflexivity. Qed.

Lemma reads_eq s :
  Spec.reads s = true ->
  Js.stringToNumber s = Js.Fin (inject_Z (Str.digitsFrom 0 s)).
Proof. apply numEqb_eq. Qed.

Lemma forallb_at {A} (f : A -> bool) (l : list A) (x : A) :
  forallb f l = true -> In x l -> f x = true.
Proof. intros H Hx. exact (proj1 (forallb_forall f l) H x Hx). Qed.

Lemma number_of_two a b :
  Str.isDigit a = true -> Str.isDigit b = true ->
  Js.stringToNumber (String a (String b EmptyString))
  = Js.Fin (inject_Z (Str.digitsFrom 0 (String a (String b EmptyString)))).
Proof.
  intros Ha Hb. apply digit_cases in Ha, Hb. apply reads_eq.
  apply (forallb_at
           (fun b => Spec.reads (String a (String b EmptyString)))
           Spec.digits10 b); [|exact Hb].
  apply (forallb_at
           (fun a => forallb (fun b =>
              Spec.reads (String a (String b EmptyString))) Spec.digits10)
           Spec.digits10 a twoDigitsRead_true Ha).
Qed.

Lemma number_of_four a b c d :
  Str.isDigit a = true -> Str.isDigit b = true ->
  Str.isDigit c = true -> Str.isDigit d = true ->
  Js.stringToNumber (String a (String b (String c (String d EmptyString))))
  = Js.Fin (inject_Z (Str.digitsFrom 0
              (String a (String b (String c (String d EmptyString)))))).
Proof.
  intros Ha Hb Hc Hd. apply digit_cases in Ha, Hb, Hc, Hd. apply reads_eq.
  apply (forallb_at
           (fun d => Spec.reads
              (String a (String b (String c (String d EmptyString)))))
           Spec.digits10 d); [|exact Hd].
  apply (forallb_at
           (fun c => forallb (fun d => Spec.reads
              (String a (String b (String c (String d EmptyString)))))
              Spec.digits10)
           Spec.digits10 c); [|exact Hc].
  apply (forallb_at
           (fun b => forallb (fun c => forallb (fun d => Spec.reads
              (String a (String b (String c (String d EmptyString)))))
              Spec.digits10) Spec.digits10)
           Spec.digits10 b); [|exact Hb].
  apply (forallb_at
           (fun a => forallb (fun b => forallb (fun c => forallb (fun d =>
              Spec.reads
                (String a (String b (String c (String d EmptyString)))))
              Spec.digits10) Spec.digits10) Spec.digits10)
           Spec.digits10 a fourDigitsRead_true Ha).
Qed.

(** What the pattern of [isISODate] says of a text. *)
Lemma iso_shape t :
  Api.isISODate (Js.JStr t) = true ->
  exists y1 y2 y3 y4 m1 m2 d1 d2,
    t = String y1 (String y2 (String y3 (String y4 (String "-"
          (String m1 (String m2 (String "-" (String d1 (String d2
             EmptyString)))))))))
    /\ Str.isDigit y1 = true /\ Str.isDigit y2 = true
    /\ Str.isDigit y3 = true /\ Str.isDigit y4 = true
    /\ Str.isDigit m1 = true /\ Str.isDigit m2 = true
    /\ Str.isDigit d1 = true /\ Str.isDigit d2 = true.
Proof.
  destruct t as [|y1 [|y2 [|y3 [|y4 [|h1 [|m1 [|m2 [|h2 [|d1 [|d2 [|x t]]]]]]]]]]];
    cbn [Api.isISODate]; try discriminate.
  intros H. do 9 (apply andb_true_iff in H; destruct H as [H ?]).
  repeat match goal with
         | E : Ascii.eqb _ _ = true |- _ => apply Ascii.eqb_eq in E; subst
         end.
  exists y1, y2, y3, y4, m1, m2, d1, d2. repeat split; assumption.
Qed.

Lemma trunc_inject z : Js.trunc (inject_Z z) = z.
Proof. unfold Js.trunc. cbn. apply Z.quot_1_r. Qed.

Lemma trunc_pred z : Js.trunc (inject_Z z - 1) = z - 1.
Proof. unfold Js.trunc. cbn. rewrite Z.quot_1_r. lia. Qed.

Lemma numFalsy_inject z : Api.numFalsy (Js.Fin (inject_Z z)) = (z =? 0).
Proof. unfold Api.numFalsy. cbn. apply negb_involutive. Qed.

(** [addDaysIso(t, 1)] for a text of the pattern that writes a date of the
    calendar, from year 100 on, is the text of the next day. *)
Lemma addDaysIso_next t y m d :
  Api.isISODate (Js.JStr t) = true ->
  Spec.fieldsOf t = (y, m, d) ->
  100 <= y -> Spec.validDate y m d ->
  Api.addDaysIso (Js.JStr t) 1 = Some (Spec.isoOfDate (Spec.nextDay y m d)).
Proof.
  intros Hiso Hf Hy Hv.
  destruct (iso_shape t Hiso)
    as (y1 & y2 & y3 & y4 & m1 & m2 & d1 & d2 & -> & Hy1 & Hy2 & Hy3 & Hy4
        & Hm1 & Hm2 & Hd1 & Hd2).
  unfold Spec.fieldsOf in Hf. cbn [String.substring] in Hf.
  pose proof (f_equal (fun p => fst (fst p)) Hf) as Ey.
  pose proof (f_equal (fun p => snd (fst p)) Hf) as Em.
  pose proof (f_equal snd Hf) as Ed.
  cbn [fst snd] in Ey, Em, Ed. clear Hf.
  assert (Hy9 : y <= 9999).
  { rewrite <- Ey. unfold Str.digitsFrom.
    pose proof (digitVal_range _ Hy1). pose proof (digitVal_range _ Hy2).
    pose proof (digitVal_range _ Hy3). pose proof (digitVal_range _ Hy4). lia. }
  unfold Api.addDaysIso. cbn [Js.truthy Js.toString Str.truthy].
  cbn [Split.splitChar].
  rewrite (digit_not_hyphen _ Hy1), (digit_not_hyphen _ Hy2),
    (digit_not_hyphen _ Hy3), (digit_not_hyphen _ Hy4),
    (digit_not_hyphen _ Hm1), (digit_not_hyphen _ Hm2),
    (digit_not_hyphen _ Hd1), (digit_not_hyphen _ Hd2).
  change (Ascii.eqb "-" "-") with true. cbv iota.
  change (Str.rev (String y4 (String y3 (String y2 (String y1 EmptyString)))))
    with (String y1 (String y2 (String y3 (String y4 EmptyString)))).
  change (Str.rev (String m2 (String m1 EmptyString)))
    with (String m1 (String m2 EmptyString)).
  change (Str.rev (String d2 (String d1 EmptyString)))
    with (String d1 (String d2 EmptyString)).
  cbn [map nth].
  rewrite (number_of_four _ _ _ _ Hy1 Hy2 Hy3 Hy4),
    (number_of_two _ _ Hm1 Hm2), (number_of_two _ _ Hd1 Hd2).
  rewrite Ey, Em, Ed. rewrite !numFalsy_inject.
  pose proof Hv as [Hm Hd]. unfold Spec.daysInMonth in Hd.
  destruct (Z.eqb_spec y 0); [lia|]. destruct (Z.eqb_spec m 0); [lia|].
  destruct (Z.eqb_spec d 0); [lia|]. cbn [orb].
  unfold JsDate.UTC, Api.numPred. rewrite !trunc_inject, trunc_pred.
  destruct (Z.leb_spec y 99); [lia|]. rewrite andb_false_r.
  assert (E : MakeDay y (m - 1) d = Spec.dayNum y m d).
  { unfold MakeDay, Spec.dayNum.
    replace ((m - 1) / 12) with 0 by (Z.to_euclidean_division_equations; lia).
    replace ((m - 1) mod 12) with (m - 1) by (Z.to_euclidean_division_equations; lia).
    now rewrite Z.add_0_r. }
  rewrite E. pose proof (dayNum_bound y m d Hv (conj Hy Hy9)) as Hb.
  unfold TimeClip at 1.
  destruct (Z.leb_spec (Z.abs (Spec.dayNum y m d)) 100000000); [|lia].
  rewrite (addUTCDate_dayNum y m d Hv Hb).
  pose proof (nextDay_valid y m d Hv) as Hv'.
  pose proof (nextDay_dayNum y m d Hv) as Hn'.
  destruct (Spec.nextDay y m d) as [[y' m'] d'].
  rewrite <- Hn'. destruct (roundtrip y' m' d' Hv') as (-> & -> & ->).
  unfold Spec.isoOfDate. replace (m' - 1 + 1) with m' by lia. reflexivity.
Qed.

(** C4, as the resolver has it.  When either input is no text of the pattern
    (four digits, hyphen, two digits, hyphen, two digits) the resolver gives
    nothing and the summary answers 400.  When both are and [to] writes a date
    of the calendar from year 100 on, the range is [from 00:00:00] up to,
    excluded, [00:00:00] of the day after [to], in the form [addDaysIso]
    writes it. *)
Theorem range_resolution (inRange : Api.SqlRange -> Api.SaleRow -> bool)
        (q : Api.Query) (w : Api.World) :
  (Api.isISODate (Api.q_from q) && Api.isISODate (Api.q_to q) = false ->
   Api.rangeToSql (Api.q_from q) (Api.q_to q) = None
   /\ Api.serve (Api.summary inRange q) w
      = (Api.sendError 400 "Invalid from/to (expected YYYY-MM-DD)", w))
  /\ (forall f t y m d,
        Api.q_from q = Js.JStr f -> Api.q_to q = Js.JStr t ->
        Api.isISODate (Js.JStr f) = true -> Api.isISODate (Js.JStr t) = true ->
        Spec.fieldsOf t = (y, m, d) -> 100 <= y -> Spec.validDate y m d ->
        Api.rangeToSql (Api.q_from q) (Api.q_to q)
        = Some {| Api.from := f ++ " 00:00:00";
                  Api.toExcl := Spec.isoOfDate (Spec.nextDay y m d) ++ " 00:00:00" |}).
Proof.
  split.
  - intros H.
    assert (E : Api.rangeToSql (Api.q_from q) (Api.q_to q) = None).
    { unfold Api.rangeToSql. apply andb_false_iff in H.
      destruct H as [-> | ->]; cbn [negb orb]; [reflexivity|].
      now rewrite orb_true_r. }
    split; [exact E|]. unfold Api.serve, Api.summary. now rewrite E.
  - intros f t y m d -> -> Hf Ht Hfields Hy Hv.
    unfold Api.rangeToSql. rewrite Hf, Ht. cbn [negb orb Js.toString].
    now rewrite (addDaysIso_next t y m d Ht Hfields Hy Hv).
Qed.

Lemma range_resolution_witness :
  Api.isISODate (Js.JStr "2024-01-01") = true
  /\ Api.isISODate (Js.JStr "2024-01-03") = true
  /\ Spec.fieldsOf "2024-01-03" = (2024, 1, 3)
  /\ Spec.validDate 2024 1 3
  /\ Api.rangeToSql (Api.q_from Sample.januaryQuery) (Api.q_to Sample.januaryQuery)
     = Some {| Api.from := "2024-01-01 00:00:00";
               Api.toExcl := "2024-01-04 00:00:00" |}.
Proof.
  assert (Hv : Spec.validDate 2024 1 3) by (split; cbn; lia).
  repeat (split; [first [reflexivity | exact Hv]|]).
  exact (proj2 (range_resolution Sample.between Sample.januaryQuery
                  (Sample.world Sample.salesDb []))
           "2024-01-01" "2024-01-03" 2024 1 3
           eq_refl eq_refl eq_refl eq_refl eq_refl ltac:(lia) Hv).
Defined.

(** C4 as stated fails on its own example: [2024-13-01] is a text of the
    pattern, so it is not refused; as [to] it resolves to the second of
    January 2025 and the summary answers 200.  [01/01/2024] is refused. *)
Lemma range_resolution_counterexample :
  Api.isISODate (Js.JStr "2024-13-01") = true
  /\ Api.rangeToSql (Js.JStr "2024-01-01") (Js.JStr "2024-13-01")
     = Some {| Api.from := "2024-01-01 00:00:00";
               Api.toExcl := "2025-01-02 00:00:00" |}
  /\ Api.status (fst (Api.serve
       (Api.summary Sample.between
          {| Api.q_from := Js.JStr "2024-01-01"; Api.q_to := Js.JStr "2024-13-01";
             Api.q_limit := Js.JUndefined; Api.q_offset := Js.JUndefined |})
       (Sample.world Sample.salesDb []))) = 200
  /\ Api.rangeToSql (Js.JStr "01/01/2024") (Js.JStr "2024-01-03") = None.
Proof. repeat split; vm_compute; reflexivity. Qed.

(** Other texts of the pattern that write no date of the calendar: a day 0
    makes [addDaysIso] give [null], a 30th of February rolls into March, and
    a year below 100 counts from 1900. *)
Example range_resolution_rollover :
  Api.rangeToSql (Js.JStr "2024-01-01") (Js.JStr "2024-01-00")
  = Some {| Api.from := "2024-01-01 00:00:00"; Api.toExcl := "null 00:00:00" |}
  /\ Api.addDaysIso (Js.JStr "2024-02-30") 1 = Some "2024-03-02"
  /\ Api.addDaysIso (Js.JStr "0050-01-01") 1 = Some "1950-01-02"
  /\ Api.addDaysIso (Js.JStr "2024-02-28") 1 = Some "2024-02-29"
  /\ Api.addDaysIso (Js.JStr "2023-12-31") 1 = Some "2024-01-01".
Proof. repeat split; vm_compute; reflexivity. Qed.

(** * Further properties of the code *)

(** ** Login: what a request can and cannot do *)

Ltac row_cases :=
  unfold Vocab.migrationRow, Spec.setHashRow, Spec.setPasswordRow, Spec.touchRow;
  repeat match goal with
         | |- context [if ?c then _ else _] => destruct c eqn:?
         end; cbn.

Section LoginMore.

Variable bcrypt_compare : string -> string -> option bool.
Variable bcrypt_hash : string -> Z -> string.
Variable jwt_sign : Z -> string -> string -> string -> string.
Variable CFG : Api.Config.
Variable HAS : bool.

Local Abbreviation login :=
  (Api.login bcrypt_compare bcrypt_hash jwt_sign CFG HAS).

Lemma login_400 req w :
  Str.truthy (Vocab.usernameOf req) && Str.truthy (Vocab.passwordOf req) = false ->
  Api.serve (login req) w
  = (Api.sendError 400 "Missing username/password", w).
Proof.
  unfold Vocab.usernameOf, Vocab.passwordOf, Api.serve, Api.login.
  intros H. apply andb_false_iff in H.
  destruct H as [H | H]; rewrite H; cbn [negb orb]; [reflexivity|].
  now rewrite orb_true_r.
Qed.

Lemma present_fields req :
  Str.truthy (Vocab.usernameOf req) && Str.truthy (Vocab.passwordOf req) = true ->
  exists raw pw,
    Api.req_username req = Js.JStr raw /\ Api.req_password req = Js.JStr pw
    /\ Vocab.usernameOf req = Str.trim raw /\ Vocab.passwordOf req = pw
    /\ Str.truthy (Str.trim raw) = true /\ Str.truthy pw = true.
Proof.
  unfold Vocab.usernameOf, Vocab.passwordOf. intros H.
  apply andb_true_iff in H. destruct H as [Hu Hp].
  destruct (Api.req_username req) as [| |?|?|raw|?|?]; try discriminate Hu.
  destruct (Api.req_password req) as [| |?|?|pw|?|?]; try discriminate Hp.
  exists raw, pw. repeat split; assumption.
Qed.

Lemma login_401 req w :
  Str.truthy (Vocab.usernameOf req) && Str.truthy (Vocab.passwordOf req) = true ->
  hd false (Api.faults w) = false ->
  Vocab.rejected bcrypt_compare HAS req w ->
  Api.serve (login req) w
  = (Api.sendError 401 "Invalid credentials", Spec.advance w).
Proof.
  intros Hp Hf Hrej.
  destruct (present_fields req Hp) as (raw & pw & Eu & Ep & Hu & Hpw & Ht & Htp).
  unfold Vocab.rejected, Vocab.found in Hrej. rewrite Hu, Hpw in Hrej.
  destruct (find _ _) as [u|] eqn:Hfind.
  - destruct (Api.inactive u) eqn:Hact.
    + unfold Api.serve, Api.login. rewrite Eu, Ep, Ht, Htp. cbn [negb orb].
      unfold Api.bind at 1. unfold Api.getUserByUsername.
      rewrite (poolQuery_ok _ _ _ Hf). cbn [fst snd]. rewrite Hfind.
      fold (Spec.rowRead HAS u). rewrite inactive_rowRead, Hact. reflexivity.
    + destruct Hrej as [Hrej|Hrej]; [discriminate|].
      assert (Ha : Spec.addresses req w u pw).
      { exists raw. repeat split; assumption. }
      unfold Api.serve.
      rewrite (login_addressed bcrypt_compare bcrypt_hash jwt_sign CFG HAS _ _ _ _ Ha).
      unfold Spec.afterLookup. rewrite Hrej. reflexivity.
  - unfold Api.serve, Api.login. rewrite Eu, Ep, Ht, Htp. cbn [negb orb].
    unfold Api.bind at 1. unfold Api.getUserByUsername.
    rewrite (poolQuery_ok _ _ _ Hf). cbn [fst snd]. rewrite Hfind. reflexivity.
Qed.

Lemma login_lookup_fails req w :
  Str.truthy (Vocab.usernameOf req) && Str.truthy (Vocab.passwordOf req) = true ->
  hd false (Api.faults w) = true ->
  Api.serve (login req) w = (Api.sendError 500 "Server error", Spec.advance w).
Proof.
  intros Hp Hf. unfold Api.serve, Api.login.
  destruct (present_fields req Hp) as (raw & pw & Eu & Ep & _ & _ & Ht & Htp).
  rewrite Eu, Ep, Ht, Htp. cbn [negb orb].
  unfold Api.bind at 1. unfold Api.getUserByUsername.
  now rewrite (poolQuery_fail _ _ _ Hf).
Qed.

Lemma login_split req w :
  (Api.db (snd (Api.serve (login req) w)) = Api.db w
   /\ Api.status (fst (Api.serve (login req) w)) <> 200)
  \/ exists u pw, Spec.addresses req w u pw.
Proof.
  destruct (Str.truthy (Vocab.usernameOf req) && Str.truthy (Vocab.passwordOf req))
    eqn:Hp.
  - destruct (hd false (Api.faults w)) eqn:Hf.
    + left. rewrite (login_lookup_fails req w Hp Hf).
      split; [reflexivity|cbn; discriminate].
    + destruct (Vocab.found req w) as [u|] eqn:Hfind.
      * destruct (Api.inactive u) eqn:Hact.
        -- left. rewrite (login_401 req w Hp Hf).
           ++ split; [reflexivity|cbn; discriminate].
           ++ unfold Vocab.rejected. rewrite Hfind. now left.
        -- right. destruct (present_fields req Hp)
             as (raw & pw & Eu & Ep & Hu & Hpw & Ht & Htp).
           exists u, pw, raw. unfold Vocab.found in Hfind. rewrite Hu in Hfind.
           repeat split; assumption.
      * left. rewrite (login_401 req w Hp Hf).
        -- split; [reflexivity|cbn; discriminate].
        -- unfold Vocab.rejected. now rewrite Hfind.
  - left. rewrite (login_400 req w Hp). split; [reflexivity|cbn; discriminate].
Qed.

Lemma migrate_run u pw w0 :
  let m := Api.migrate bcrypt_hash CFG HAS (Spec.rowRead HAS u) pw
                       (Spec.storedOf u) (Spec.storedHashOf HAS u) in
  m w0 = (Api.Throw, Spec.advance w0)
  \/ exists w1, m w0 = (Api.Ok tt, w1)
                /\ Vocab.wrote (Vocab.migrationRow bcrypt_hash CFG HAS u pw) w0 w1.
Proof.
  assert (Hid : Api.id_user (Spec.rowRead HAS u) = Api.id_user u)
    by (unfold Spec.rowRead; now destruct HAS).
  cbv zeta. unfold Api.migrate, Vocab.migrationRow. rewrite Hid.
  destruct (_ && _ && negb _).
  - unfold Api.updatePasswordHash. destruct (hd false (Api.faults w0)) eqn:E.
    + left. now apply poolQuery_fail.
    + right. rewrite (poolQuery_ok _ _ _ E). eexists. split; [reflexivity|].
      split; reflexivity.
  - destruct (_ && _ && _ && negb _).
    + unfold Api.updatePassword. destruct (hd false (Api.faults w0)) eqn:E.
      * left. now apply poolQuery_fail.
      * right. rewrite (poolQuery_ok _ _ _ E). eexists. split; [reflexivity|].
        split; reflexivity.
    + right. exists w0. split; [reflexivity|]. split; [|reflexivity].
      rewrite map_id. now destruct (Api.db w0).
Qed.

Lemma touch_run id w1 :
  Api.touchLastLogin id w1 = (Api.Throw, Spec.advance w1)
  \/ exists w2, Api.touchLastLogin id w1 = (Api.Ok tt, w2)
                /\ Vocab.wrote (Spec.touchRow (Api.clock w1) id) w1 w2.
Proof.
  unfold Api.touchLastLogin. destruct (hd false (Api.faults w1)) eqn:E.
  - left. now apply poolQuery_fail.
  - right. rewrite (poolQuery_ok _ _ _ E). eexists. split; [reflexivity|].
    split; reflexivity.
Qed.

(** What a login leaves behind: the tables as they were under any answer but
    200; or, the password check passed, the upgrade written and a 500; or the
    upgrade and the new [last_login] written and the session. *)
Lemma login_effect req w :
  let out := Api.serve (login req) w in
  (Api.db (snd out) = Api.db w /\ Api.status (fst out) <> 200)
  \/ exists u pw,
       Spec.addresses req w u pw
       /\ Api.passwordOk bcrypt_compare pw (Spec.storedOf u)
                         (Spec.storedHashOf HAS u) = true
       /\ ((Api.db (snd out)
            = Api.setUsers (Api.db w)
                (map (Vocab.migrationRow bcrypt_hash CFG HAS u pw)
                     (Api.users (Api.db w)))
            /\ Api.status (fst out) <> 200)
           \/ (Api.db (snd out)
               = Api.setUsers (Api.db w)
                   (map (fun x => Spec.touchRow (Api.clock w) (Api.id_user u)
                                    (Vocab.migrationRow bcrypt_hash CFG HAS u pw x))
                        (Api.users (Api.db w)))
               /\ fst out
                  = Api.send (Api.Session
                      (jwt_sign (Api.id_user u) (Api.username u)
                                (Api.jwtSecret CFG) (Api.jwtExpires CFG))
                      (Api.publicUser (Spec.rowRead HAS u))))).
Proof.
  cbv zeta. destruct (login_split req w) as [H|(u & pw & Ha)]; [now left|].
  unfold Api.serve.
  rewrite (login_addressed bcrypt_compare bcrypt_hash jwt_sign CFG HAS _ _ _ _ Ha).
  unfold Spec.afterLookup.
  destruct (Api.passwordOk bcrypt_compare pw (Spec.storedOf u)
              (Spec.storedHashOf HAS u)) eqn:Hok; cbn [negb].
  - unfold Api.bind.
    destruct (migrate_run u pw (Spec.advance w)) as [E|(w1 & E & Hdb & Hck)];
      cbv zeta in E; rewrite E.
    + left. split; [reflexivity|cbn; discriminate].
    + right. exists u, pw. split; [exact Ha|]. split; [exact Hok|].
      destruct (touch_run (Api.id_user u) w1) as [E2|(w2 & E2 & Hdb2 & Hck2)];
        rewrite E2.
      * left. cbv beta iota. cbn [snd fst]. split; [exact Hdb|cbn; discriminate].
      * right. unfold Api.ret. cbv beta iota. cbn [snd fst]. split; [|reflexivity]. rewrite Hdb2, Hdb, Hck.
        cbn [Api.setUsers Api.users Api.sales Api.product_offers
             Api.product_offers_products Spec.advance Api.db Api.clock].
        unfold Api.setUsers. now rewrite map_map.
  - left. split; [reflexivity|cbn; discriminate].
Qed.

Lemma setUsers_same d : Api.setUsers d (map (fun x => x) (Api.users d)) = d.
Proof. rewrite map_id. now destruct d. Qed.

Lemma addresses_found req w u pw :
  Spec.addresses req w u pw ->
  Vocab.found req w = Some u /\ Vocab.passwordOf req = pw.
Proof.
  intros (raw & Hu & _ & Hp & _ & Hf & _). unfold Vocab.found, Vocab.usernameOf,
    Vocab.passwordOf. now rewrite Hu, Hp.
Qed.

(** The same, row by row: the users after a login are the users before under
    one row function, which is the identity, the upgrade, or the upgrade
    followed by the new [last_login]. *)
Lemma login_rows req w :
  let out := Api.serve (login req) w in
  exists g,
    Api.db (snd out) = Api.setUsers (Api.db w) (map g (Api.users (Api.db w)))
    /\ (((forall x, g x = x) /\ Api.status (fst out) <> 200)
        \/ exists u pw,
             Vocab.found req w = Some u /\ Vocab.passwordOf req = pw
             /\ Api.inactive u = false
             /\ Api.passwordOk bcrypt_compare pw (Spec.storedOf u)
                               (Spec.storedHashOf HAS u) = true
             /\ (((forall x, g x = Vocab.migrationRow bcrypt_hash CFG HAS u pw x)
                  /\ Api.status (fst out) <> 200)
                 \/ ((forall x, g x = Spec.touchRow (Api.clock w) (Api.id_user u)
                                        (Vocab.migrationRow bcrypt_hash CFG HAS u pw x))
                     /\ Api.status (fst out) = 200))).
Proof.
  cbv zeta. destruct (login_effect req w) as [[Hdb Hst]|(u & pw & Ha & Hok & H)].
  - exists (fun x => x). split; [now rewrite setUsers_same|]. left. now split.
  - destruct (addresses_found _ _ _ _ Ha) as [Hf Hp].
    assert (Hact : Api.inactive u = false) by (destruct Ha as (? & ? & ? & ? & ? & ? & ? & ?); assumption).
    destruct H as [[Hdb Hst]|[Hdb Hr]].
    + exists (Vocab.migrationRow bcrypt_hash CFG HAS u pw). split; [exact Hdb|].
      right. exists u, pw. repeat split; try assumption. left. now split.
    + eexists. split; [exact Hdb|].
      right. exists u, pw. repeat split; try assumption. right.
      split; [reflexivity|]. now rewrite Hr.
Qed.

(** X1. A login request whose username is missing, no string or blank once
    trimmed, or whose password is missing, no string or empty, is answered
    400 before anything is sent to the store. *)
Theorem login_missing_fields req w :
  Str.truthy (Vocab.usernameOf req) && Str.truthy (Vocab.passwordOf req) = false ->
  Api.serve (login req) w
  = (Api.sendError 400 "Missing username/password", w).
Proof. exact (login_400 req w). Qed.

(** X2. Unknown user, inactive user and refused password are answered alike:
    401 with the one message, the tables as they were. *)
Theorem login_failure_uniform req w :
  Str.truthy (Vocab.usernameOf req) && Str.truthy (Vocab.passwordOf req) = true ->
  hd false (Api.faults w) = false ->
  Vocab.rejected bcrypt_compare HAS req w ->
  Api.serve (login req) w
  = (Api.sendError 401 "Invalid credentials", Spec.advance w).
Proof. exact (login_401 req w). Qed.

(** X3. A login changes, in the whole store, nothing but rows of [users]
    that carry the id of the user it names; and of such a row it changes
    neither the id, the name, the roles nor the active flag. *)
Theorem login_frame req w :
  let d := Api.db w in
  let d' := Api.db (snd (Api.serve (login req) w)) in
  Api.sales d' = Api.sales d
  /\ Api.product_offers d' = Api.product_offers d
  /\ Api.product_offers_products d' = Api.product_offers_products d
  /\ Forall2 (fun old new =>
       Api.id_user new = Api.id_user old
       /\ Api.username new = Api.username old
       /\ Api.roles new = Api.roles old
       /\ Api.is_active new = Api.is_active old
       /\ (new <> old ->
           exists u, Vocab.found req w = Some u
                     /\ Api.id_user old = Api.id_user u))
     (Api.users d) (Api.users d').
Proof.
  cbv zeta. destruct (login_rows req w) as (g & Hdb & Hg). rewrite Hdb.
  cbn [Api.setUsers Api.sales Api.product_offers Api.product_offers_products
       Api.users].
  repeat split. apply Forall2_map_self. intros x _.
  destruct Hg as [[Hg _]|(u & pw & Hf & _ & _ & _ & [[Hg _]|[Hg _]])]; rewrite Hg.
  - repeat split. intros H. now elim H.
  - row_cases; repeat split; try (intros H; now elim H);
      intros _; exists u; (split; [exact Hf|]); now apply Z.eqb_eq.
  - row_cases; repeat split; try (intros H; now elim H);
      intros _; exists u; (split; [exact Hf|]);
      first [now apply Z.eqb_eq | cbn in *; congruence ].
Qed.

(** X4. [last_login] is written only under the answer 200, and then every
    row with the id of the user named gets the time of the store's clock,
    the other rows keeping theirs. *)
Theorem login_last_login req w :
  let out := Api.serve (login req) w in
  (Api.status (fst out) <> 200 ->
   Forall2 (fun old new => Api.last_login new = Api.last_login old)
           (Api.users (Api.db w)) (Api.users (Api.db (snd out))))
  /\ (Api.status (fst out) = 200 ->
      exists u,
        Vocab.found req w = Some u
        /\ Forall2 (fun old new =>
             Api.last_login new
             = if Api.id_user old =? Api.id_user u
               then Some (Api.clock w) else Api.last_login old)
           (Api.users (Api.db w)) (Api.users (Api.db (snd out)))).
Proof.
  cbv zeta. destruct (login_rows req w) as (g & Hdb & Hg). rewrite Hdb.
  cbn [Api.setUsers Api.users].
  destruct Hg as [[Hg Hs]|(u & pw & Hf & _ & _ & _ & [[Hg Hs]|[Hg Hs]])].
  - split; [|intros E; now elim Hs]. intros _.
    apply Forall2_map_self. intros x _. now rewrite Hg.
  - split; [|intros E; now elim Hs]. intros _.
    apply Forall2_map_self. intros x _. rewrite Hg. row_cases; reflexivity.
  - split; [intros E; now elim E|]. intros _. exists u. split; [exact Hf|].
    apply Forall2_map_self. intros x _. rewrite Hg.
    unfold Spec.touchRow.
    assert (Hid : Api.id_user (Vocab.migrationRow bcrypt_hash CFG HAS u pw x)
                  = Api.id_user x) by (row_cases; reflexivity).
    assert (Hll : Api.last_login (Vocab.migrationRow bcrypt_hash CFG HAS u pw x)
                  = Api.last_login x) by (row_cases; reflexivity).
    rewrite Hid. destruct (Api.id_user x =? Api.id_user u); [reflexivity|exact Hll].
Qed.

(** X5. On a table with the [password_hash] column a login never writes the
    legacy [password] column: a plaintext password stays where it is. *)
Theorem login_keeps_legacy_password req w :
  HAS = true ->
  Forall2 (fun old new => Api.password new = Api.password old)
          (Api.users (Api.db w))
          (Api.users (Api.db (snd (Api.serve (login req) w)))).
Proof.
  intros Hhas. destruct (login_rows req w) as (g & Hdb & Hg). rewrite Hdb.
  cbn [Api.setUsers Api.users]. apply Forall2_map_self. intros x _.
  destruct Hg as [[Hg _]|(u & pw & _ & _ & _ & _ & [[Hg _]|[Hg _]])]; rewrite Hg;
    [reflexivity| |]; rewrite Hhas; row_cases; try reflexivity;
    repeat match goal with
           | E : _ && _ = true |- _ => apply andb_true_iff in E; destruct E
           end; discriminate.
Qed.

(** X6. With [MIGRATE_PLAINTEXT_PASSWORDS] off a login writes neither
    credential column of any row. *)
Theorem login_without_migration req w :
  Api.migratePlaintextPasswords CFG = false ->
  Forall2 (fun old new =>
             Api.password new = Api.password old
             /\ Api.password_hash new = Api.password_hash old)
          (Api.users (Api.db w))
          (Api.users (Api.db (snd (Api.serve (login req) w)))).
Proof.
  intros Hoff. destruct (login_rows req w) as (g & Hdb & Hg). rewrite Hdb.
  cbn [Api.setUsers Api.users]. apply Forall2_map_self. intros x _.
  destruct Hg as [[Hg _]|(u & pw & _ & _ & _ & _ & [[Hg _]|[Hg _]])]; rewrite Hg;
    [now split| |]; unfold Vocab.migrationRow; rewrite Hoff; cbn [andb];
    unfold Spec.touchRow; try destruct (_ =? _); now split.
Qed.

End LoginMore.

Lemma login_missing_fields_witness :
  Str.truthy (Vocab.usernameOf Examples.blankLogin)
  && Str.truthy (Vocab.passwordOf Examples.blankLogin) = false
  /\ Api.serve (Api.login Sample.compare Sample.hash Sample.sign Sample.CFG true
                          Examples.blankLogin)
               (Sample.world Sample.usersDb [])
     = (Api.sendError 400 "Missing username/password",
        Sample.world Sample.usersDb []).
Proof.
  split; [reflexivity|].
  exact (login_missing_fields Sample.compare Sample.hash Sample.sign Sample.CFG
           true Examples.blankLogin (Sample.world Sample.usersDb []) eq_refl).
Defined.

Lemma login_failure_uniform_witness :
  Vocab.rejected Sample.compare true Examples.wrongLogin
                 (Sample.world Sample.usersDb [])
  /\ Api.serve (Api.login Sample.compare Sample.hash Sample.sign Sample.CFG true
                          Examples.wrongLogin)
               (Sample.world Sample.usersDb [])
     = (Api.sendError 401 "Invalid credentials",
        Spec.advance (Sample.world Sample.usersDb [])).
Proof.
  assert (H : Vocab.rejected Sample.compare true Examples.wrongLogin
                (Sample.world Sample.usersDb []))
    by (right; reflexivity).
  split; [exact H|].
  exact (login_failure_uniform Sample.compare Sample.hash Sample.sign Sample.CFG
           true Examples.wrongLogin (Sample.world Sample.usersDb [])
           eq_refl eq_refl H).
Defined.

Lemma login_frame_witness :
  Api.sales (Api.db Examples.loggedIn) = []
  /\ Forall2 (fun old new =>
       Api.id_user new = Api.id_user old
       /\ Api.username new = Api.username old
       /\ Api.roles new = Api.roles old
       /\ Api.is_active new = Api.is_active old
       /\ (new <> old ->
           exists u, Vocab.found Sample.aliceLogin (Sample.world Sample.usersDb [])
                     = Some u
                     /\ Api.id_user old = Api.id_user u))
     [Sample.alice] (Api.users (Api.db Examples.loggedIn)).
Proof.
  pose proof (login_frame Sample.compare Sample.hash Sample.sign Sample.CFG true
                Sample.aliceLogin (Sample.world Sample.usersDb []))
    as (Hs & _ & _ & Hu).
  split; [exact Hs|exact Hu].
Defined.

Lemma login_last_login_witness :
  Api.status (fst (Api.serve
    (Api.login Sample.compare Sample.hash Sample.sign Sample.CFG true
               Sample.aliceLogin) (Sample.world Sample.usersDb []))) = 200
  /\ exists u,
       Vocab.found Sample.aliceLogin (Sample.world Sample.usersDb []) = Some u
       /\ Forall2 (fun old new =>
            Api.last_login new
            = if Api.id_user old =? Api.id_user u
              then Some 1700000000 else Api.last_login old)
          [Sample.alice] (Api.users (Api.db Examples.loggedIn)).
Proof.
  split; [reflexivity|].
  exact (proj2 (login_last_login Sample.compare Sample.hash Sample.sign
                  Sample.CFG true Sample.aliceLogin
                  (Sample.world Sample.usersDb [])) eq_refl).
Defined.

Lemma login_keeps_legacy_password_witness :
  Forall2 (fun old new => Api.password new = Api.password old)
          [Sample.alice] (Api.users (Api.db Examples.loggedIn)).
Proof.
  exact (login_keeps_legacy_password Sample.compare Sample.hash Sample.sign
           Sample.CFG true Sample.aliceLogin (Sample.world Sample.usersDb [])
           eq_refl).
Defined.

Lemma login_without_migration_witness :
  Api.migratePlaintextPasswords Examples.noMigration = false
  /\ Forall2 (fun old new =>
                Api.password new = Api.password old
                /\ Api.password_hash new = Api.password_hash old)
       [Sample.alice]
       (Api.users (Api.db (snd (Api.serve
          (Api.login Sample.compare Sample.hash Sample.sign Examples.noMigration
                     true Sample.aliceLogin)
          (Sample.world Sample.usersDb []))))).
Proof.
  split; [reflexivity|].
  exact (login_without_migration Sample.compare Sample.hash Sample.sign
           Examples.noMigration true Sample.aliceLogin
           (Sample.world Sample.usersDb []) eq_refl).
Defined.

(** ** Offers: deletion, all outcomes *)

Lemma deleteOffer_runs id w :
  Vocab.failsWithin 4 w = false ->
  Api.withRollback
    (Api.bind Api.beginTransaction (fun _ =>
     Api.bind (Api.deleteJoinRows id) (fun _ =>
     Api.bind (Api.deleteOfferRow id) (fun affectedRows =>
     Api.bind Api.commit (fun _ =>
       if affectedRows =? 0 then Api.ret (Api.sendError 404 "Not found")
       else Api.ret (Api.send Api.Done)))))) w
  = (Api.Ok (if Z.of_nat (List.length
                   (filter (fun o => Api.id_offer o =? id)
                           (Api.product_offers (Api.db w)))) =? 0
             then Api.sendError 404 "Not found" else Api.send Api.Done),
     {| Api.db := Vocab.withoutOffer id (Api.db w); Api.tx := None;
        Api.clock := Api.clock w;
        Api.faults := tl (tl (tl (tl (Api.faults w)))) |}).
Proof.
  unfold Vocab.failsWithin. destruct w as [d t c fs]. cbn [Api.faults Api.db Api.clock].
  intros H.
  unfold Api.withRollback, Api.bind, Api.beginTransaction, Api.deleteJoinRows,
    Api.deleteOfferRow, Api.commit, Api.connQuery, Api.statement, Api.ret.
  destruct fs as [|[] [|[] [|[] [|[] fs]]]]; cbn in H; try discriminate H;
    cbn; destruct (_ =? 0); reflexivity.
Qed.

Lemma deleteOffer_fails id w :
  Vocab.failsWithin 4 w = true ->
  exists fs,
    Api.withRollback
      (Api.bind Api.beginTransaction (fun _ =>
       Api.bind (Api.deleteJoinRows id) (fun _ =>
       Api.bind (Api.deleteOfferRow id) (fun affectedRows =>
       Api.bind Api.commit (fun _ =>
         if affectedRows =? 0 then Api.ret (Api.sendError 404 "Not found")
         else Api.ret (Api.send Api.Done)))))) w
    = (Api.Throw,
       {| Api.db := Api.db w; Api.tx := None; Api.clock := Api.clock w;
          Api.faults := fs |}).
Proof.
  unfold Vocab.failsWithin. destruct w as [d t c fs]. cbn [Api.faults Api.db Api.clock].
  intros H.
  unfold Api.withRollback, Api.bind, Api.beginTransaction, Api.deleteJoinRows,
    Api.deleteOfferRow, Api.commit, Api.connQuery, Api.statement, Api.ret.
  destruct fs as [|[] [|[] [|[] [|[] fs]]]]; cbn in H; try discriminate H;
    cbn; eexists; reflexivity.
Qed.

(** X7. [DELETE /offers/:id] is all or nothing: when the store fails one of
    its four statements (begin, the two deletes, commit) the answer is 500,
    the committed tables are as before and no transaction is left open. *)
Theorem delete_offer_rolls_back (idRaw : Js.Value) (id : Z) (w : Api.World) :
  Api.offerId idRaw = Some id ->
  Vocab.failsWithin 4 w = true ->
  let out := Api.serve (Api.deleteOffer idRaw) w in
  fst out = Api.sendError 500 "Server error"
  /\ Api.db (snd out) = Api.db w
  /\ Api.tx (snd out) = None.
Proof.
  intros Hid Hf. cbv zeta. unfold Api.serve, Api.deleteOffer. rewrite Hid.
  destruct (deleteOffer_fails id w Hf) as (fs & ->). repeat split.
Qed.

Lemma delete_offer_rolls_back_witness :
  Vocab.failsWithin 4 (Sample.world Sample.orphanDb [false; false; true]) = true
  /\ fst (Api.serve (Api.deleteOffer (Js.JStr "8"))
                    (Sample.world Sample.orphanDb [false; false; true]))
     = Api.sendError 500 "Server error"
  /\ Api.db (snd (Api.serve (Api.deleteOffer (Js.JStr "8"))
                            (Sample.world Sample.orphanDb [false; false; true])))
     = Sample.orphanDb.
Proof.
  split; [reflexivity|].
  pose proof (delete_offer_rolls_back (Js.JStr "8") 8
                (Sample.world Sample.orphanDb [false; false; true])
                eq_refl eq_refl) as (H & Hdb & _).
  split; [exact H|exact Hdb].
Defined.

(** X8. When the store fails none of the four statements, the committed
    tables are the former ones without the offer row of that id and without
    its join rows, all else as before; the answer is 200 when an offer row
    had the id and 404 when none had. *)
Theorem delete_offer_commits (idRaw : Js.Value) (id : Z) (w : Api.World) :
  Api.offerId idRaw = Some id ->
  Vocab.failsWithin 4 w = false ->
  let out := Api.serve (Api.deleteOffer idRaw) w in
  fst out = (if Vocab.hasOffer id (Api.db w)
             then Api.send Api.Done else Api.sendError 404 "Not found")
  /\ Api.db (snd out) = Vocab.withoutOffer id (Api.db w)
  /\ Api.tx (snd out) = None
  /\ Vocab.hasOffer id (Api.db (snd out)) = false.
Proof.
  intros Hid Hf. cbv zeta. unfold Api.serve, Api.deleteOffer. rewrite Hid.
  rewrite (deleteOffer_runs id w Hf). cbn [fst snd Api.db Api.tx].
  split; [|split; [reflexivity|split; [reflexivity|]]].
  - unfold Vocab.hasOffer.
    induction (Api.product_offers (Api.db w)) as [|o l IH]; [reflexivity|].
    cbn [filter existsb]. destruct (Api.id_offer o =? id); [reflexivity|exact IH].
  - unfold Vocab.hasOffer, Vocab.withoutOffer. cbn [Api.product_offers].
    induction (Api.product_offers (Api.db w)) as [|o l IH]; [reflexivity|].
    cbn [filter]. destruct (Api.id_offer o =? id) eqn:E; cbn [negb]; [exact IH|].
    cbn [existsb]. now rewrite E.
Qed.

Lemma delete_offer_commits_witness :
  Vocab.failsWithin 4 (Sample.world Sample.orphanDb []) = false
  /\ fst (Api.serve (Api.deleteOffer (Js.JStr "8"))
                    (Sample.world Sample.orphanDb []))
     = Api.send Api.Done
  /\ Vocab.hasOffer 8 (Api.db (snd (Api.serve (Api.deleteOffer (Js.JStr "8"))
                                      (Sample.world Sample.orphanDb []))))
     = false.
Proof.
  split; [reflexivity|].
  pose proof (delete_offer_commits (Js.JStr "8") 8
                (Sample.world Sample.orphanDb []) eq_refl eq_refl)
    as (H & _ & _ & Hgone).
  split; [exact H|exact Hgone].
Defined.

(** ** Numbers written in digits *)

Lemma digit_not_space c : Str.isDigit c = true -> Str.isSpace c = false.
Proof.
  intros H. apply digit_cases in H. unfold Spec.digits10 in H. cbn in H.
  repeat (destruct H as [<-|H]; [reflexivity|]). destruct H.
Qed.

Lemma allDigits_app a b :
  Str.allDigits (a ++ b) = Str.allDigits a && Str.allDigits b.
Proof.
  induction a as [|x a IH]; cbn; [reflexivity|]. now rewrite IH, andb_assoc.
Qed.

Lemma allDigits_rev s : Str.allDigits (Str.rev s) = Str.allDigits s.
Proof.
  induction s as [|x s IH]; [reflexivity|].
  rewrite rev_cons, allDigits_app, IH. cbn. rewrite andb_true_r. apply andb_comm.
Qed.

Lemma trimStart_digits s : Str.allDigits s = true -> Str.trimStart s = s.
Proof.
  destruct s as [|c r]; [reflexivity|]. cbn. intros H.
  apply andb_true_iff in H. destruct H as [Hc _].
  now rewrite (digit_not_space c Hc).
Qed.

Lemma trim_digits s : Str.allDigits s = true -> Str.trim s = s.
Proof.
  intros H. unfold Str.trim, Str.trimEnd. rewrite (trimStart_digits s H).
  rewrite trimStart_digits by (now rewrite allDigits_rev).
  apply rev_involutive.
Qed.

Lemma takeDigits_all s : Str.allDigits s = true -> Str.takeDigits s = (s, EmptyString).
Proof.
  induction s as [|c r IH]; [reflexivity|]. cbn. intros H.
  apply andb_true_iff in H. destruct H as [Hc Hr]. rewrite Hc, (IH Hr). reflexivity.
Qed.

Lemma decimalLiteral_digits s :
  Str.truthy s = true -> Str.allDigits s = true ->
  Js.decimalLiteral s = Some (inject_Z (Str.digitsFrom 0 s)).
Proof.
  intros Hne Hd. unfold Js.decimalLiteral. rewrite (takeDigits_all s Hd).
  rewrite Hne. cbn [orb negb]. rewrite sapp_nil_r. cbn [String.length Z.of_nat].
  unfold Js.scale10. cbn. now rewrite Z.mul_1_r.
Qed.

(** [Number(s)] of a text of digits is its decimal value, rounded. *)
Lemma number_of_digits s :
  Str.truthy s = true -> Str.allDigits s = true ->
  Js.stringToNumber s = Js.round64 (inject_Z (Str.digitsFrom 0 s)).
Proof.
  intros Hne Hd. unfold Js.stringToNumber. rewrite (trim_digits s Hd).
  pose proof (decimalLiteral_digits s Hne Hd) as Hdec.
  destruct s as [|c r]; [discriminate Hne|].
  pose proof Hd as Hd'. cbn in Hd'. apply andb_true_iff in Hd'. destruct Hd' as [Hc Hr].
  assert (Hinf : String.eqb (String c r) "Infinity" = false).
  { cbn. apply digit_cases in Hc. unfold Spec.digits10 in Hc. cbn in Hc.
    repeat (destruct Hc as [<-|Hc]; [reflexivity|]). destruct Hc. }
  assert (Hun : (if String.eqb (String c r) "Infinity" then Js.Infinite false
                 else match Js.decimalLiteral (String c r) with
                      | Some q => Js.round64 q
                      | None => Js.NaN
                      end)
                = Js.round64 (inject_Z (Str.digitsFrom 0 (String c r))))
    by (now rewrite Hinf, Hdec).
  apply digit_cases in Hc. unfold Spec.digits10 in Hc. cbn in Hc.
  destruct Hc as [<-|Hc].
  - (* a leading 0: the next character is a digit, no radix letter *)
    destruct r as [|x u]; [exact Hun|].
    cbn in Hr. apply andb_true_iff in Hr. destruct Hr as [Hx _].
    assert (Hrad : forall l, In l ["x"; "X"; "o"; "O"; "b"; "B"]%char ->
                             Ascii.eqb x l = false).
    { intros l Hl. apply digit_cases in Hx. unfold Spec.digits10 in Hx.
      cbn in Hx, Hl.
      repeat (destruct Hx as [<-|Hx];
              [repeat (destruct Hl as [<-|Hl]; [reflexivity|]); destruct Hl|]).
      destruct Hx. }
    cbv zeta. cbv iota beta.
    rewrite !Hrad by (cbn; tauto). cbn [orb]. exact Hun.
  - repeat (destruct Hc as [<-|Hc]; [exact Hun|]). destruct Hc.
Qed.

Lemma digitsFrom_nonneg s acc :
  Str.allDigits s = true -> 0 <= acc -> 0 <= Str.digitsFrom acc s.
Proof.
  revert acc. induction s as [|c s IH]; intros acc Hd Hacc;
    cbn [Str.digitsFrom]; [exact Hacc|].
  cbn [Str.allDigits] in Hd. apply andb_true_iff in Hd. destruct Hd as [Hc Hs].
  apply (IH _ Hs). pose proof (digitVal_range c Hc). lia.
Qed.

(** [Number(s)] of a text of digits below [2 ^ 53] is exact, and from
    [2 ^ 1024] on it is the infinity. *)
Lemma number_of_small s :
  Str.truthy s = true -> Str.allDigits s = true ->
  Str.digitsFrom 0 s < 2 ^ 53 ->
  Js.stringToNumber s = Js.Fin (inject_Z (Str.digitsFrom 0 s)).
Proof.
  intros Hne Hd Hv. rewrite (number_of_digits s Hne Hd). apply round64_int.
  pose proof (digitsFrom_nonneg s 0 Hd ltac:(lia)). lia.
Qed.

Lemma number_of_huge s :
  Str.truthy s = true -> Str.allDigits s = true ->
  2 ^ 1024 <= Str.digitsFrom 0 s ->
  Js.stringToNumber s = Js.Infinite false.
Proof.
  intros Hne Hd Hv. rewrite (number_of_digits s Hne Hd). now apply round64_big.
Qed.

(** X9. The id in [/offers/:id] is the number its text reads as: a text
    that is no run of digits, or is empty, or reads 0, is answered 400 with
    nothing sent to the store; a run of digits of a value below [2 ^ 53] is
    taken as that value, and of any value as its binary64 rounding; and a
    run so long that it reads as the infinity is not refused: the handler
    goes to the store with it, where it is the id of no row. *)
Theorem offer_id_text (s : string) (w : Api.World) :
  let digits := Str.truthy s && Str.allDigits s in
  let v := Str.digitsFrom 0 s in
  (digits && negb (v =? 0) = false ->
   Api.offerId (Js.JStr s) = None
   /\ Api.serve (Api.deleteOffer (Js.JStr s)) w
      = (Api.sendError 400 "Invalid id", w))
  /\ (digits = true ->
      Api.offerId (Js.JStr s)
      = match Js.round64 (inject_Z v) with
        | Js.Fin x => if Js.trunc x =? 0 then None else Some (Js.trunc x)
        | _ => None
        end)
  /\ (digits = true -> 0 < v < 2 ^ 53 -> Api.offerId (Js.JStr s) = Some v)
  /\ (digits = true -> 2 ^ 1024 <= v ->
      Api.offerId (Js.JStr s) = None
      /\ Api.idOverflows (Js.JStr s) = true
      /\ (Vocab.failsWithin 4 w = false ->
          let out := Api.serve (Api.deleteOffer (Js.JStr s)) w in
          fst out = Api.sendError 404 "Not found"
          /\ Api.db (snd out) = Api.db w /\ Api.tx (snd out) = None)).
Proof.
  cbv zeta.
  assert (Hnum : Str.truthy s && Str.allDigits s = true ->
                 Js.stringToNumber s
                 = Js.round64 (inject_Z (Str.digitsFrom 0 s))).
  { intros H. apply andb_true_iff in H. destruct H as [Hne Hd].
    exact (number_of_digits s Hne Hd). }
  assert (Hid : Str.truthy s && Str.allDigits s = true ->
                Api.offerId (Js.JStr s)
                = match Js.round64 (inject_Z (Str.digitsFrom 0 s)) with
                  | Js.Fin x => if Js.trunc x =? 0 then None else Some (Js.trunc x)
                  | _ => None
                  end).
  { intros H. unfold Api.offerId. cbn [Js.toString Js.toNumber].
    now rewrite H, (Hnum H). }
  split; [|split; [exact Hid|split]].
  - intros Hok.
    assert (Hnone : Api.offerId (Js.JStr s) = None
                    /\ Api.idOverflows (Js.JStr s) = false).
    { destruct (Str.truthy s && Str.allDigits s) eqn:Hdig.
      - cbn [andb] in Hok. apply negb_false_iff, Z.eqb_eq in Hok.
        unfold Api.idOverflows. cbn [Js.toString Js.toNumber].
        rewrite (Hid eq_refl), (Hnum eq_refl), Hok, Hdig.
        split; reflexivity.
      - unfold Api.offerId, Api.idOverflows. cbn [Js.toString].
        now rewrite Hdig. }
    destruct Hnone as [Hn Ho]. split; [exact Hn|].
    unfold Api.serve, Api.deleteOffer. now rewrite Hn, Ho.
  - intros Hdig [Hpos Hlt]. rewrite (Hid Hdig), round64_int by lia.
    rewrite trunc_inject. destruct (Z.eqb_spec (Str.digitsFrom 0 s) 0); [lia|].
    reflexivity.
  - intros Hdig Hbig.
    assert (Hinf : Js.round64 (inject_Z (Str.digitsFrom 0 s)) = Js.Infinite false)
      by now apply round64_big.
    assert (Hn : Api.offerId (Js.JStr s) = None) by now rewrite (Hid Hdig), Hinf.
    assert (Ho : Api.idOverflows (Js.JStr s) = true).
    { unfold Api.idOverflows. cbn [Js.toString Js.toNumber].
      now rewrite Hdig, (Hnum Hdig), Hinf. }
    split; [exact Hn|]. split; [exact Ho|]. intros Hf.
    unfold Api.serve, Api.deleteOffer. rewrite Hn, Ho.
    destruct w as [d t c fs]. unfold Vocab.failsWithin in Hf.
    cbn [Api.faults] in Hf.
    unfold Api.withRollback, Api.bind, Api.beginTransaction, Api.commit,
      Api.connQuery, Api.statement, Api.ret.
    destruct fs as [|[] [|[] [|[] [|[] fs]]]]; cbn in Hf; try discriminate Hf;
      cbn; repeat split.
Qed.

Lemma offer_id_text_witness :
  Api.offerId (Js.JStr "007") = Some 7
  /\ Api.serve (Api.deleteOffer (Js.JStr "7a")) (Sample.world Sample.orphanDb [])
     = (Api.sendError 400 "Invalid id", Sample.world Sample.orphanDb [])
  /\ Api.serve (Api.deleteOffer (Js.JStr "000")) (Sample.world Sample.orphanDb [])
     = (Api.sendError 400 "Invalid id", Sample.world Sample.orphanDb []).
Proof.
  pose proof (offer_id_text "007" (Sample.world Sample.orphanDb []))
    as (_ & _ & H7 & _).
  pose proof (offer_id_text "7a" (Sample.world Sample.orphanDb []))
    as (Ha & _).
  pose proof (offer_id_text "000" (Sample.world Sample.orphanDb []))
    as (H0 & _).
  split; [exact (H7 eq_refl ltac:(vm_compute; split; reflexivity))|].
  split; [exact (proj2 (Ha eq_refl))|exact (proj2 (H0 eq_refl))].
Defined.

(** The first id that is no binary64 number is bound as its neighbour, and
    an id of 310 digits reads as the infinity: it is not answered 400 but
    goes to the store, which finds no such offer. *)
Example offer_id_rounding :
  Api.offerId (Js.JStr "9007199254740993") = Some 9007199254740992
  /\ Api.offerId (Js.JStr (Vocab.nines 310)) = None
  /\ Api.idOverflows (Js.JStr (Vocab.nines 310)) = true
  /\ fst (Api.serve (Api.deleteOffer (Js.JStr (Vocab.nines 310)))
                    (Sample.world Sample.orphanDb []))
     = Api.sendError 404 "Not found".
Proof. by_evaluation. Qed.

(** X10. [clampInt] on a text of digits is the number the text reads as,
    clamped: its value when that is below [2 ^ 53] (the value itself when it
    lies within the bounds), its binary64 rounding in general, and the
    fallback from [2 ^ 1024] on, where the text reads as the infinity; on
    an empty or blank text it is 0 clamped, not the fallback. *)
Theorem clampInt_texts (s : string) (min max fallback : Z) :
  min <= max ->
  let v := Str.digitsFrom 0 s in
  (Str.truthy s = true -> Str.allDigits s = true ->
   Api.clampInt (Js.JStr s) min max fallback
   = match Js.round64 (inject_Z v) with
     | Js.Fin x => Spec.clamp min max (Js.trunc x)
     | _ => fallback
     end
   /\ (v < 2 ^ 53 ->
       Api.clampInt (Js.JStr s) min max fallback = Spec.clamp min max v
       /\ (min <= v <= max -> Api.clampInt (Js.JStr s) min max fallback = v))
   /\ (2 ^ 1024 <= v -> Api.clampInt (Js.JStr s) min max fallback = fallback))
  /\ (Spec.allSpace s = true ->
      Api.clampInt (Js.JStr s) min max fallback = Spec.clamp min max 0).
Proof.
  intros Hmm. cbv zeta. split.
  - intros Hne Hd. unfold Api.clampInt. cbn [Js.toNumber].
    rewrite (number_of_digits s Hne Hd). split; [|split].
    + destruct (Js.round64 _); try reflexivity. now rewrite clamp_max_min.
    + intros Hv. rewrite round64_int
        by (pose proof (digitsFrom_nonneg s 0 Hd ltac:(lia)); lia).
      rewrite trunc_inject, (clamp_max_min _ _ _ Hmm).
      split; [reflexivity|]. intros Hr. unfold Spec.clamp.
      destruct (Z.ltb_spec (Str.digitsFrom 0 s) min); [lia|].
      destruct (Z.ltb_spec max (Str.digitsFrom 0 s)); [lia|reflexivity].
    + intros Hv. now rewrite round64_big.
  - intros Hs. unfold Api.clampInt. cbn [Js.toNumber]. unfold Js.stringToNumber.
    assert (E : Str.trim s = EmptyString).
    { unfold Str.trim.
      assert (Hst : forall t, Spec.allSpace t = true -> Str.trimStart t = EmptyString).
      { induction t as [|c t IH]; [reflexivity|]. cbn. intros H.
        apply andb_true_iff in H. destruct H as [-> Ht]. now apply IH. }
      now rewrite (Hst s Hs). }
    rewrite E. cbv iota beta. rewrite <- (clamp_max_min _ _ _ Hmm). reflexivity.
Qed.

Lemma clampInt_texts_witness :
  Api.clampInt (Js.JStr "0250") 1 100 20 = 100
  /\ Api.clampInt (Js.JStr "  ") 1 100 20 = 1
  /\ Api.clampInt (Js.JStr (Vocab.nines 310)) 1 100 20 = 20.
Proof.
  pose proof (clampInt_texts "0250" 1 100 20 ltac:(lia)) as [H _].
  pose proof (clampInt_texts "  " 1 100 20 ltac:(lia)) as [_ H'].
  pose proof (clampInt_texts (Vocab.nines 310) 1 100 20 ltac:(lia)) as [H9 _].
  split; [exact (proj1 (proj1 (proj2 (H eq_refl eq_refl))
                           ltac:(vm_compute; reflexivity)))|].
  split; [exact (H' eq_refl)|].
  refine (proj2 (proj2 (H9 eq_refl eq_refl)) _).
  vm_compute. discriminate.
Defined.

(** ** Roles: what the parsers give and whom the gates refuse *)

Lemma noneOf_app p a b :
  Vocab.noneOf p (a ++ b) = Vocab.noneOf p a && Vocab.noneOf p b.
Proof.
  induction a as [|x a IH]; cbn; [reflexivity|]. now rewrite IH, andb_assoc.
Qed.

Lemma noneOf_rev p s : Vocab.noneOf p (Str.rev s) = Vocab.noneOf p s.
Proof.
  induction s as [|x s IH]; [reflexivity|].
  rewrite rev_cons, noneOf_app, IH. cbn. rewrite andb_true_r. apply andb_comm.
Qed.

(** [trim] only drops characters. *)
Lemma noneOf_trim p s : Vocab.noneOf p s = true -> Vocab.noneOf p (Str.trim s) = true.
Proof.
  intros H. destruct (trim_decomp s) as (a & b & _ & _ & E).
  rewrite E, !noneOf_app in H.
  apply andb_true_iff in H. destruct H as [_ H].
  apply andb_true_iff in H. now destruct H.
Qed.

Lemma splitSeps_pieces s cur b :
  Vocab.noneOf Split.isSep cur = true ->
  Forall (fun t => Vocab.noneOf Split.isSep t = true) (Split.splitSeps s cur b).
Proof.
  revert cur b. induction s as [|c s IH]; intros cur b Hcur; cbn [Split.splitSeps].
  - constructor; [now rewrite noneOf_rev|constructor].
  - destruct (Split.isSep c) eqn:Hc.
    + destruct b; [now apply IH|].
      constructor; [now rewrite noneOf_rev|now apply IH].
    + apply IH. cbn. now rewrite Hc.
Qed.

Lemma splitChar_pieces sep s cur :
  Vocab.noneOf (Ascii.eqb sep) cur = true ->
  Forall (fun t => Vocab.noneOf (Ascii.eqb sep) t = true) (Split.splitChar sep s cur).
Proof.
  revert cur. induction s as [|c s IH]; intros cur Hcur; cbn [Split.splitChar].
  - constructor; [now rewrite noneOf_rev|constructor].
  - destruct (Ascii.eqb c sep) eqn:Hc.
    + constructor; [now rewrite noneOf_rev|now apply IH].
    + apply IH. cbn. now rewrite Ascii.eqb_sym, Hc.
Qed.

Lemma kept_pieces (P : string -> Prop) l :
  Forall P (map Str.trim l) ->
  Forall (fun t => Str.truthy t = true /\ P t) (filter Str.truthy (map Str.trim l)).
Proof.
  intros H. apply Forall_forall. intros t Ht. apply filter_In in Ht.
  destruct Ht as [Hin Htr]. split; [exact Htr|].
  rewrite Forall_forall in H. now apply H.
Qed.

(** X11. The roles read from a text that is no JSON are clean: each is
    non-empty and holds no comma and no white space. *)
Theorem tokens_clean (s t : string) :
  In t (Split.tokens s) ->
  Str.truthy t = true /\ Vocab.noneOf Split.isSep t = true.
Proof.
  intros Ht. unfold Split.tokens in Ht.
  assert (H : Forall (fun t => Str.truthy t = true /\ Vocab.noneOf Split.isSep t = true)
                (filter Str.truthy
                   (map Str.trim (Split.splitSeps s EmptyString false)))).
  2: { rewrite Forall_forall in H. now apply H. }
  apply (kept_pieces (fun t => Vocab.noneOf Split.isSep t = true)).
  apply Forall_forall. intros x Hx. apply in_map_iff in Hx.
  destruct Hx as (y & <- & Hy). apply noneOf_trim.
  pose proof (splitSeps_pieces s EmptyString false eq_refl) as Hp.
  rewrite Forall_forall in Hp. now apply Hp.
Qed.

Lemma tokens_clean_witness :
  In "manager" (Split.tokens " admin,, manager ")
  /\ Str.truthy "manager" = true
  /\ Vocab.noneOf Split.isSep "manager" = true.
Proof.
  assert (H : In "manager" (Split.tokens " admin,, manager "))
    by (right; left; reflexivity).
  split; [exact H|].
  exact (tokens_clean " admin,, manager " "manager" H).
Defined.

Lemma trimStart_idem s : Str.trimStart (Str.trimStart s) = Str.trimStart s.
Proof.
  induction s as [|c s IH]; [reflexivity|]. cbn.
  destruct (Str.isSpace c) eqn:E; [exact IH|]. cbn. now rewrite E.
Qed.

Lemma trimStart_length s : (String.length (Str.trimStart s) <= String.length s)%nat.
Proof.
  induction s as [|c s IH]; cbn; [lia|]. destruct (Str.isSpace c); cbn; lia.
Qed.

Lemma trimEnd_idem s : Str.trimEnd (Str.trimEnd s) = Str.trimEnd s.
Proof. unfold Str.trimEnd. now rewrite rev_involutive, trimStart_idem. Qed.

Lemma trimStart_trimEnd a :
  Str.trimStart a = a -> Str.trimStart (Str.trimEnd a) = Str.trimEnd a.
Proof.
  intros H. destruct (trimEnd_decomp a) as (ws & _ & E).
  destruct (Str.trimEnd a) as [|c t]; [reflexivity|].
  rewrite E in H. cbn in H. cbn. destruct (Str.isSpace c); [|reflexivity].
  pose proof (trimStart_length (t ++ ws)) as L. rewrite H in L. cbn in L. lia.
Qed.

Lemma trim_idem s : Str.trim (Str.trim s) = Str.trim s.
Proof.
  unfold Str.trim at 1 2.
  rewrite (trimStart_trimEnd (Str.trimStart s) (trimStart_idem s)).
  now rewrite trimEnd_idem.
Qed.

Lemma lowerChar_idem c : Str.lowerChar (Str.lowerChar c) = Str.lowerChar c.
Proof. destruct c as [[] [] [] [] [] [] [] []]; reflexivity. Qed.

Lemma toLowerCase_idem s : Str.toLowerCase (Str.toLowerCase s) = Str.toLowerCase s.
Proof.
  induction s as [|c s IH]; cbn; [reflexivity|]. now rewrite lowerChar_idem, IH.
Qed.

(** X12. The entries of a comma-separated setting are clean: each is
    non-empty, holds no comma and has no white space around it; those of
    [CFG.writeRoles] are non-empty and in lower case. *)
Theorem parseCsv_clean (s e : string) :
  (In e (Api.parseCsv s) ->
   Str.truthy e = true /\ Vocab.noneOf Vocab.isComma e = true /\ Str.trim e = e)
  /\ (In e (Api.mkWriteRoles s) ->
      Str.truthy e = true /\ Str.toLowerCase e = e).
Proof.
  assert (H1 : In e (Api.parseCsv s) ->
          Str.truthy e = true /\ Vocab.noneOf Vocab.isComma e = true
          /\ Str.trim e = e).
  { intros He. unfold Api.parseCsv in He. apply filter_In in He.
    destruct He as [He Ht]. split; [exact Ht|].
    apply in_map_iff in He. destruct He as (y & <- & Hy).
    split; [|apply trim_idem]. apply noneOf_trim.
    pose proof (splitChar_pieces ","%char s EmptyString eq_refl) as Hp.
    rewrite Forall_forall in Hp. now apply Hp. }
  split; [exact H1|]. intros He. unfold Api.mkWriteRoles in He.
  apply in_map_iff in He. destruct He as (y & <- & Hy).
  split; [|apply toLowerCase_idem].
  assert (Hy' : Str.truthy y = true).
  { unfold Api.parseCsv in Hy. apply filter_In in Hy. now destruct Hy. }
  destruct y; [discriminate|reflexivity].
Qed.

Lemma parseCsv_clean_witness :
  In "manager" (Api.mkWriteRoles "Admin, ,Manager ")
  /\ Str.truthy "manager" = true
  /\ Str.toLowerCase "manager" = "manager".
Proof.
  assert (H : In "manager" (Api.mkWriteRoles "Admin, ,Manager "))
    by (right; left; reflexivity).
  split; [exact H|].
  exact (proj2 (parseCsv_clean "Admin, ,Manager " "manager") H).
Defined.

Lemma trimStart_spaces t : Spec.allSpace t = true -> Str.trimStart t = EmptyString.
Proof.
  induction t as [|c t IH]; [reflexivity|]. cbn. intros H.
  apply andb_true_iff in H. destruct H as [-> Ht]. now apply IH.
Qed.

Lemma trim_spaces t : Spec.allSpace t = true -> Str.trim t = EmptyString.
Proof. intros H. unfold Str.trim. now rewrite (trimStart_spaces t H). Qed.

Lemma tokens_spaces t : Spec.allSpace t = true -> Split.tokens t = [].
Proof.
  intros H. unfold Split.tokens.
  now rewrite (kept_spaces t EmptyString false H).
Qed.

Lemma space_cases c :
  Str.isSpace c = true ->
  In c ["009"; "010"; "011"; "012"; "013"; " "; "160"]%char.
Proof.
  destruct c as [[] [] [] [] [] [] [] []]; cbn; intros H;
    try discriminate H; tauto.
Qed.

(** [JSON.parse] of a blank text throws. *)
Lemma parse_spaces s : Spec.allSpace s = true -> Json.parse s = None.
Proof.
  intros H. unfold Json.parse.
  assert (E : forall f, Json.parseValue (S f) s = None).
  { intros f. cbn [Json.parseValue].
    induction s as [|c s IH]; [reflexivity|].
    cbn in H. apply andb_true_iff in H. destruct H as [Hc Hs].
    apply space_cases in Hc. cbn in Hc.
    repeat (destruct Hc as [<-|Hc];
            [first [ exact (IH Hs) | reflexivity ]|]).
    destruct Hc. }
  replace (2 * String.length s + 2)%nat with (S (2 * String.length s + 1)) by lia.
  now rewrite E.
Qed.

(** X13. Both gates fail closed: with enforcement on, a user whose [roles]
    carry no role (nothing, a blank text, an empty array or object), and on
    the server a request with no user at all, is refused whatever the
    allow-list. *)
Theorem no_roles_no_write (CFG : Api.Config) (cfg : Widget.Config) (v : Js.Value) :
  Vocab.noRoles v ->
  Api.enforceRoles CFG = true -> Widget.enforceRoles cfg = true ->
  Api.hasWriteRole CFG (Vocab.userWithRoles v) = false
  /\ Api.hasWriteRole CFG None = false
  /\ Widget.canWrite cfg (Spec.widgetUser v) = false
  /\ Widget.canWrite cfg None = false.
Proof.
  intros Hv He Hw.
  assert (Hnone : forall l, existsb (fun r => Split.mem r []) l = false)
    by (induction l; [reflexivity|assumption]).
  assert (Hs : Api.parseRoles v = []).
  { destruct v as [| |?|?|s|[|? ?]|[|? ?]]; cbn in Hv; try contradiction;
      try reflexivity.
    unfold Api.parseRoles. cbn [Js.toString]. now rewrite (trim_spaces s Hv). }
  assert (Hwd : Widget.parseRoles (Spec.widgetUser v) = []).
  { destruct v as [| |?|?|s|[|? ?]|[|? ?]]; cbn in Hv; try contradiction;
      try reflexivity.
    unfold Widget.parseRoles, Spec.widgetUser. cbn [Widget.roles Js.truthy].
    destruct (Str.truthy s); [|reflexivity]. cbn [negb].
    unfold Widget.safeJsonParse. rewrite (parse_spaces s Hv).
    apply (tokens_spaces s Hv). }
  unfold Api.hasWriteRole, Widget.canWrite. rewrite He, Hw. cbn [negb].
  cbn [Vocab.userWithRoles Api.roles]. rewrite Hs, Hwd.
  repeat split; try reflexivity; apply Hnone.
Qed.

Lemma no_roles_no_write_witness :
  Vocab.noRoles (Js.JStr "  ")
  /\ Api.hasWriteRole Sample.CFG (Vocab.userWithRoles (Js.JStr "  ")) = false
  /\ Widget.canWrite Examples.widgetConfig (Spec.widgetUser (Js.JStr "  ")) = false.
Proof.
  assert (H : Vocab.noRoles (Js.JStr "  ")) by reflexivity.
  pose proof (no_roles_no_write Sample.CFG Examples.widgetConfig (Js.JStr "  ")
                H eq_refl eq_refl) as (H1 & _ & H2 & _).
  split; [exact H|]. split; [exact H1|exact H2].
Defined.

Lemma parseRoles_same (v : Js.Value) :
  Spec.agreeable v ->
  Widget.parseRoles (Spec.widgetUser v) = Api.parseRoles v.
Proof.
  destruct v as [| |b|n|s|items|props]; cbn [Spec.agreeable];
    try contradiction; try reflexivity.
  intros Hparse. unfold Widget.parseRoles, Api.parseRoles, Spec.widgetUser.
  cbn [Widget.roles Js.truthy Js.toString].
  destruct s as [|c s]; [reflexivity|].
  cbn [Str.truthy negb]. unfold Widget.safeJsonParse. rewrite Hparse.
  destruct (Str.truthy (Str.trim (String c s))) eqn:Ht; cbn [negb].
  - rewrite <- (tokens_trim (String c s)).
    destruct (Json.parse (Str.trim (String c s))) as [[| |?|?|?|?|?]|];
      reflexivity.
  - destruct (Str.trim (String c s)) eqn:Etrim; [|discriminate].
    rewrite <- (tokens_trim (String c s)), Etrim. reflexivity.
Qed.

Lemma existsb_same {A} (f g : A -> bool) l :
  (forall x, f x = g x) -> existsb f l = existsb g l.
Proof. intros H. induction l as [|a l IH]; cbn; [reflexivity|]. now rewrite H, IH. Qed.

Lemma existsb_mapped {A B} (h : A -> B) (f : B -> bool) l :
  existsb f (map h l) = existsb (fun x => f (h x)) l.
Proof. induction l as [|a l IH]; cbn; [reflexivity|]. now rewrite IH. Qed.

Lemma mem_same x l l' :
  (forall y, In y l <-> In y l') -> Split.mem x l = Split.mem x l'.
Proof.
  intros H. apply Bool.eq_iff_eq_true. rewrite !mem_In. apply H.
Qed.

(** X14. The widget shows the write controls exactly to the users the
    server lets write: when both have enforcement alike and the server's
    allow-list is the widget's in lower case, [canWrite] on a user equals
    [hasWriteRole] on the row with the same [roles], for every [roles] value
    the two parsers read alike. *)
Theorem gates_agree (CFG : Api.Config) (cfg : Widget.Config) (v : Js.Value) :
  Spec.agreeable v ->
  Api.enforceRoles CFG = Widget.enforceRoles cfg ->
  Api.writeRoles CFG = map Str.toLowerCase (Widget.writeRoles cfg) ->
  Widget.canWrite cfg (Spec.widgetUser v)
  = Api.hasWriteRole CFG (Vocab.userWithRoles v).
Proof.
  intros Hv He Hl. unfold Widget.canWrite, Api.hasWriteRole.
  rewrite He, Hl. destruct (Widget.enforceRoles cfg); [|reflexivity].
  cbn [negb Vocab.userWithRoles Api.roles]. rewrite (parseRoles_same v Hv).
  rewrite existsb_mapped.
  destruct (Api.parseRoles v) as [|r rs] eqn:E.
  - cbn [List.length Nat.eqb map]. symmetry. clear.
    induction (Widget.writeRoles cfg) as [|a l IH]; cbn in *; [reflexivity|exact IH].
  - cbn [List.length Nat.eqb]. apply existsb_same. intros x.
    apply mem_same. intros y. rewrite fold_cons_In. cbn [In]. tauto.
Qed.

Lemma gates_agree_witness :
  Spec.agreeable (Js.JStr "Admin, cashier")
  /\ Api.writeRoles Sample.CFG
     = map Str.toLowerCase (Widget.writeRoles Examples.widgetConfig)
  /\ Widget.canWrite Examples.widgetConfig (Spec.widgetUser (Js.JStr "Admin, cashier"))
     = Api.hasWriteRole Sample.CFG (Vocab.userWithRoles (Js.JStr "Admin, cashier")).
Proof.
  assert (H : Spec.agreeable (Js.JStr "Admin, cashier")) by (vm_compute; auto).
  split; [exact H|]. split; [reflexivity|].
  exact (gates_agree Sample.CFG Examples.widgetConfig (Js.JStr "Admin, cashier")
           H eq_refl eq_refl).
Defined.

(** ** Date ranges: the end bound *)

(** [addDaysIso] on a text of the pattern, up to the date arithmetic. *)
Lemma addDaysIso_parts t y m d delta :
  Api.isISODate (Js.JStr t) = true ->
  Spec.fieldsOf t = (y, m, d) ->
  Api.addDaysIso (Js.JStr t) delta
  = if (y =? 0) || (m =? 0) || (d =? 0) then None
    else
      match JsDate.addUTCDate
              (JsDate.UTC (Js.Fin (inject_Z y)) (Api.numPred (Js.Fin (inject_Z m)))
                          (Js.Fin (inject_Z d))) delta with
      | None => Some "NaN-NaN-NaN"
      | Some n =>
          Some (Str.ofZ (JsDate.YearFromDay n) ++ "-"
                ++ Str.padStart2 (Str.ofZ (JsDate.MonthFromDay n + 1)) ++ "-"
                ++ Str.padStart2 (Str.ofZ (JsDate.DateFromDay n)))
      end.
Proof.
  intros Hiso Hf.
  destruct (iso_shape t Hiso)
    as (y1 & y2 & y3 & y4 & m1 & m2 & d1 & d2 & -> & Hy1 & Hy2 & Hy3 & Hy4
        & Hm1 & Hm2 & Hd1 & Hd2).
  unfold Spec.fieldsOf in Hf. cbn [String.substring] in Hf.
  pose proof (f_equal (fun p => fst (fst p)) Hf) as Ey.
  pose proof (f_equal (fun p => snd (fst p)) Hf) as Em.
  pose proof (f_equal snd Hf) as Ed.
  cbn [fst snd] in Ey, Em, Ed. clear Hf.
  unfold Api.addDaysIso. cbn [Js.truthy Js.toString Str.truthy].
  cbn [Split.splitChar].
  rewrite (digit_not_hyphen _ Hy1), (digit_not_hyphen _ Hy2),
    (digit_not_hyphen _ Hy3), (digit_not_hyphen _ Hy4),
    (digit_not_hyphen _ Hm1), (digit_not_hyphen _ Hm2),
    (digit_not_hyphen _ Hd1), (digit_not_hyphen _ Hd2).
  change (Ascii.eqb "-" "-") with true. cbv iota.
  change (Str.rev (String y4 (String y3 (String y2 (String y1 EmptyString)))))
    with (String y1 (String y2 (String y3 (String y4 EmptyString)))).
  change (Str.rev (String m2 (String m1 EmptyString)))
    with (String m1 (String m2 EmptyString)).
  change (Str.rev (String d2 (String d1 EmptyString)))
    with (String d1 (String d2 EmptyString)).
  cbn [map nth].
  rewrite (number_of_four _ _ _ _ Hy1 Hy2 Hy3 Hy4),
    (number_of_two _ _ Hm1 Hm2), (number_of_two _ _ Hd1 Hd2).
  rewrite Ey, Em, Ed. rewrite !numFalsy_inject. reflexivity.
Qed.

(** X15. A text of the pattern with a year, month or day of zeros makes
    [addDaysIso] give [null], and only such a text does; [rangeToSql] then
    does not refuse the range: its end bound is the text [null 00:00:00]. *)
Theorem range_null_bound (f t : string) (y m d delta : Z) :
  Api.isISODate (Js.JStr f) = true ->
  Api.isISODate (Js.JStr t) = true ->
  Spec.fieldsOf t = (y, m, d) ->
  (Api.addDaysIso (Js.JStr t) delta = None <-> y = 0 \/ m = 0 \/ d = 0)
  /\ (y = 0 \/ m = 0 \/ d = 0 ->
      Api.rangeToSql (Js.JStr f) (Js.JStr t)
      = Some {| Api.from := f ++ " 00:00:00"; Api.toExcl := "null 00:00:00" |}).
Proof.
  intros Hf Ht Hfields.
  assert (Hz : (y =? 0) || (m =? 0) || (d =? 0) = true <-> y = 0 \/ m = 0 \/ d = 0).
  { rewrite !orb_true_iff, !Z.eqb_eq. tauto. }
  split.
  - rewrite (addDaysIso_parts t y m d delta Ht Hfields).
    destruct ((y =? 0) || (m =? 0) || (d =? 0)) eqn:E.
    + split; [intros _; now apply Hz|reflexivity].
    + split; [|intros H; apply Hz in H; discriminate].
      destruct (JsDate.addUTCDate _ _); discriminate.
  - intros H. apply Hz in H. unfold Api.rangeToSql. rewrite Hf, Ht.
    cbn [negb orb Js.toString].
    now rewrite (addDaysIso_parts t y m d 1 Ht Hfields), H.
Qed.

Lemma range_null_bound_witness :
  Api.isISODate (Js.JStr "2024-00-10") = true
  /\ Spec.fieldsOf "2024-00-10" = (2024, 0, 10)
  /\ Api.rangeToSql (Js.JStr "2024-01-01") (Js.JStr "2024-00-10")
     = Some {| Api.from := "2024-01-01 00:00:00"; Api.toExcl := "null 00:00:00" |}.
Proof.
  split; [reflexivity|]. split; [reflexivity|].
  exact (proj2 (range_null_bound "2024-01-01" "2024-00-10" 2024 0 10 1
                  eq_refl eq_refl eq_refl)
           (or_intror (or_introl eq_refl))).
Defined.

Lemma zrange_In lo n y : lo <= y < lo + Z.of_nat n -> In y (Vocab.zrange lo n).
Proof.
  revert lo. induction n as [|n IH]; intros lo H; [lia|]. cbn.
  destruct (Z.eq_dec lo y) as [->|Hne]; [now left|]. right. apply IH. lia.
Qed.

Lemma zspan_In lo hi y : lo <= y <= hi -> In y (Vocab.zspan lo hi).
Proof. intros H. apply zrange_In. lia. Qed.

Lemma years_written :
  forallb (fun y => Vocab.digitsOf 4 y (Str.ofZ y)) (Vocab.zspan 1000 9999) = true.
Proof. vm_compute. reflexivity. Qed.

Lemma days_written :
  forallb (fun n => Vocab.digitsOf 2 n (Str.padStart2 (Str.ofZ n)))
          (Vocab.zspan 1 31) = true.
Proof. vm_compute. reflexivity. Qed.

Lemma digitsOf_four v s :
  Vocab.digitsOf 4 v s = true ->
  exists a b c d, s = String a (String b (String c (String d EmptyString)))
    /\ Str.isDigit a = true /\ Str.isDigit b = true
    /\ Str.isDigit c = true /\ Str.isDigit d = true
    /\ Str.digitsFrom 0 s = v.
Proof.
  unfold Vocab.digitsOf. intros H.
  apply andb_true_iff in H. destruct H as [H Hv].
  apply andb_true_iff in H. destruct H as [Hl Hd].
  apply Z.eqb_eq in Hv.
  destruct s as [|a [|b [|c [|d [|e s]]]]]; try discriminate Hl.
  cbn in Hd. repeat (apply andb_true_iff in Hd; destruct Hd as [? Hd]).
  exists a, b, c, d. repeat split; assumption.
Qed.

Lemma digitsOf_two v s :
  Vocab.digitsOf 2 v s = true ->
  exists a b, s = String a (String b EmptyString)
    /\ Str.isDigit a = true /\ Str.isDigit b = true
    /\ Str.digitsFrom 0 s = v.
Proof.
  unfold Vocab.digitsOf. intros H.
  apply andb_true_iff in H. destruct H as [H Hv].
  apply andb_true_iff in H. destruct H as [Hl Hd].
  apply Z.eqb_eq in Hv.
  destruct s as [|a [|b [|e s]]]; try discriminate Hl.
  cbn in Hd. repeat (apply andb_true_iff in Hd; destruct Hd as [? Hd]).
  exists a, b. repeat split; assumption.
Qed.

(** A date from year 1000 to 9999, as [addDaysIso] writes it, is a text of
    the pattern that reads as that date. *)
Lemma isoOfDate_reads y m d :
  1000 <= y <= 9999 -> 1 <= m <= 31 -> 1 <= d <= 31 ->
  Api.isISODate (Js.JStr (Spec.isoOfDate (y, m, d))) = true
  /\ Spec.fieldsOf (Spec.isoOfDate (y, m, d)) = (y, m, d).
Proof.
  intros Hy Hm Hd.
  pose proof (forallb_at _ _ y years_written (zspan_In 1000 9999 y ltac:(lia))) as Y.
  pose proof (forallb_at _ _ m days_written (zspan_In 1 31 m ltac:(lia))) as M.
  pose proof (forallb_at _ _ d days_written (zspan_In 1 31 d ltac:(lia))) as D.
  cbv beta in Y, M, D.
  destruct (digitsOf_four _ _ Y) as (y1 & y2 & y3 & y4 & Ey & ? & ? & ? & ? & Vy).
  destruct (digitsOf_two _ _ M) as (m1 & m2 & Em & ? & ? & Vm).
  destruct (digitsOf_two _ _ D) as (d1 & d2 & Ed & ? & ? & Vd).
  unfold Spec.isoOfDate. rewrite Ey, Em, Ed in *.
  cbn [append]. split.
  - cbn [Api.isISODate].
    repeat match goal with
           | E : Str.isDigit _ = true |- _ => rewrite E; clear E
           end.
    reflexivity.
  - unfold Spec.fieldsOf. cbn [String.substring]. now rewrite Vy, Vm, Vd.
Qed.

(** X16. For a [to] that writes a date of the calendar from 1000-01-01 to
    9999-12-30, the end bound [addDaysIso] gives is itself a text of the
    pattern, and it reads as the next day: the result can be fed back. *)
Theorem addDaysIso_closed (t : string) (y m d : Z) :
  Api.isISODate (Js.JStr t) = true ->
  Spec.fieldsOf t = (y, m, d) ->
  1000 <= y -> Spec.validDate y m d ->
  fst (fst (Spec.nextDay y m d)) <= 9999 ->
  exists t',
    Api.addDaysIso (Js.JStr t) 1 = Some t'
    /\ Api.isISODate (Js.JStr t') = true
    /\ Spec.fieldsOf t' = Spec.nextDay y m d.
Proof.
  intros Ht Hf Hy Hv Hn.
  exists (Spec.isoOfDate (Spec.nextDay y m d)).
  split; [apply (addDaysIso_next t y m d Ht Hf); [lia|exact Hv]|].
  pose proof (nextDay_valid y m d Hv) as Hv'.
  assert (Hy' : y <= fst (fst (Spec.nextDay y m d))).
  { unfold Spec.nextDay. destruct (_ <? _); [cbn; lia|].
    destruct (_ <? _); cbn; lia. }
  destruct (Spec.nextDay y m d) as [[y' m'] d']. cbn [fst] in Hn, Hy'.
  destruct Hv' as [Hm' Hd'].
  assert (d' <= 31).
  { unfold Spec.daysInMonth in Hd'.
    destruct (m' =? 2); [destruct (JsDate.InLeapYear y'); lia|].
    destruct (_ || _); lia. }
  apply isoOfDate_reads; lia.
Qed.

Lemma addDaysIso_closed_witness :
  Api.isISODate (Js.JStr "2024-02-29") = true
  /\ Spec.validDate 2024 2 29
  /\ exists t',
       Api.addDaysIso (Js.JStr "2024-02-29") 1 = Some t'
       /\ Api.isISODate (Js.JStr t') = true
       /\ Spec.fieldsOf t' = (2024, 3, 1).
Proof.
  assert (Hv : Spec.validDate 2024 2 29) by (split; cbn; lia).
  split; [reflexivity|]. split; [exact Hv|].
  exact (addDaysIso_closed "2024-02-29" 2024 2 29 eq_refl eq_refl
           ltac:(lia) Hv ltac:(cbn; lia)).
Defined.

(** ** Configuration *)

(** X17. A variable that is unset or set to the empty text gives the
    fallback, for [env] and for [envBool]; once it is set to anything else
    the fallback of [envBool] plays no part. *)
Theorem env_fallbacks (E : Server.Env) (name fallback : string) (b : bool) :
  (E name = None \/ E name = Some EmptyString ->
   Server.env E name fallback = fallback /\ Server.envBool E name b = b)
  /\ (forall v, E name = Some v -> v <> EmptyString ->
      Server.env E name fallback = v
      /\ Server.envBool E name true = Server.envBool E name false).
Proof.
  split.
  - intros [H|H]; unfold Server.envBool, Server.env; rewrite H; cbn;
      (split; [reflexivity|now destruct b]).
  - intros v H Hv. unfold Server.envBool, Server.env. rewrite H.
    destruct (String.eqb_spec v EmptyString) as [->|_]; [now elim Hv|].
    split; reflexivity.
Qed.

Lemma env_fallbacks_witness :
  Server.env Examples.environment "JWT_SECRET" "change-me" = "change-me"
  /\ Server.envBool Examples.environment "MIGRATE" true = true
  /\ Server.env Examples.environment "API_PREFIX" "/cag" = "/api/"
  /\ Server.envBool Examples.environment "ENFORCE_ROLES" true
     = Server.envBool Examples.environment "ENFORCE_ROLES" false.
Proof.
  pose proof (env_fallbacks Examples.environment "JWT_SECRET" "change-me" true)
    as [H1 _].
  pose proof (env_fallbacks Examples.environment "MIGRATE" EmptyString true)
    as [H2 _].
  pose proof (env_fallbacks Examples.environment "API_PREFIX" "/cag" true)
    as [_ H3].
  pose proof (env_fallbacks Examples.environment "ENFORCE_ROLES" EmptyString true)
    as [_ H4].
  split; [exact (proj1 (H1 (or_intror eq_refl)))|].
  split; [exact (proj2 (H2 (or_introl eq_refl)))|].
  split; [exact (proj1 (H3 "/api/" eq_refl ltac:(discriminate)))|].
  exact (proj2 (H4 "yes" eq_refl ltac:(discriminate))).
Defined.

Lemma slashes_rev k : Str.rev (Vocab.slashes k) = Vocab.slashes k.
Proof.
  induction k as [|k IH]; [reflexivity|].
  cbn [Vocab.slashes]. rewrite rev_cons, IH. clear IH.
  induction k as [|k IH]; [reflexivity|]. cbn. now rewrite IH.
Qed.

Lemma dropSlashes_decomp t :
  exists k, t = (Vocab.slashes k ++ Server.dropSlashes t)%string
            /\ match Server.dropSlashes t with
               | String c _ => Ascii.eqb c "/" = false
               | EmptyString => True
               end.
Proof.
  induction t as [|c t (k & E & H)].
  - now exists O.
  - cbn [Server.dropSlashes]. destruct (Ascii.eqb c "/") eqn:Hc.
    + apply Ascii.eqb_eq in Hc. subst c. exists (S k). cbn. now rewrite <- E.
    + exists O. split; [reflexivity|exact Hc].
Qed.

(** X18. The [replace] of [/\/+$/] by nothing, which both the server's
    [apiPrefix] and the widget's [apiBase] go through, takes away the
    slashes a text ends in and nothing else: the result does not end in a
    slash, the text is the result followed by slashes only, and doing it
    again changes nothing. *)
Theorem stripTrailingSlashes_spec (s : string) :
  (exists k, s = (Server.stripTrailingSlashes s ++ Vocab.slashes k)%string)
  /\ Vocab.endsInSlash (Server.stripTrailingSlashes s) = false
  /\ Server.stripTrailingSlashes (Server.stripTrailingSlashes s)
     = Server.stripTrailingSlashes s.
Proof.
  unfold Server.stripTrailingSlashes, Vocab.endsInSlash.
  destruct (dropSlashes_decomp (Str.rev s)) as (k & E & H).
  assert (Hfix : Server.dropSlashes (Server.dropSlashes (Str.rev s))
                 = Server.dropSlashes (Str.rev s)).
  { destruct (Server.dropSlashes (Str.rev s)) as [|c r]; [reflexivity|].
    cbn. now rewrite H. }
  split; [|split].
  - exists k. rewrite <- (slashes_rev k), <- rev_app, <- E.
    symmetry. apply rev_involutive.
  - rewrite rev_involutive.
    destruct (Server.dropSlashes (Str.rev s)); [reflexivity|exact H].
  - now rewrite rev_involutive, Hfix.
Qed.

(** ** The widget's pages *)

(** X19. For a positive [limit], an [offset] that is a multiple of it (as
    the two buttons keep it) and a [total] of rows: the page is at least 1
    and at most the number of pages when the offset is within the rows; the
    button Next is enabled exactly when rows lie beyond the page shown, and
    Previous exactly when the offset is not 0; and Previous undoes Next. *)
Theorem paging_controls (limit k total : Z) :
  0 < limit -> 0 <= k -> 0 <= total ->
  let offset := k * limit in
  let pag := Dashboard.paginate limit offset total in
  fst pag = k + 1
  /\ 1 <= snd pag
  /\ (offset < total -> fst pag <= snd pag)
  /\ (Dashboard.nextDisabled pag = false <-> Dashboard.nextOffset limit offset < total)
  /\ (Dashboard.prevDisabled pag = false <-> 0 < offset)
  /\ Dashboard.prevOffset limit (Dashboard.nextOffset limit offset) = offset
  /\ Dashboard.nextOffset limit offset = (k + 1) * limit.
Proof.
  intros Hl Hk Ht. cbv zeta.
  unfold Dashboard.paginate, Dashboard.nextDisabled, Dashboard.prevDisabled,
    Dashboard.prevOffset, Dashboard.nextOffset. cbn [fst snd].
  rewrite Z.div_mul by lia.
  set (c := - (- total / limit)).
  assert (Hc : (c - 1) * limit < total <= c * limit).
  { unfold c. pose proof (Z.div_mod (- total) limit ltac:(lia)).
    pose proof (Z.mod_pos_bound (- total) limit Hl). nia. }
  repeat split; try lia; try nia;
    intros H; first [apply Z.leb_gt in H | apply Z.leb_gt]; nia.
Qed.

Lemma paging_controls_witness :
  Dashboard.paginate 20 40 45 = (3, 3)
  /\ Dashboard.nextDisabled (Dashboard.paginate 20 40 45) = true
  /\ (Dashboard.prevDisabled (Dashboard.paginate 20 40 45) = false <-> 0 < 40).
Proof.
  pose proof (paging_controls 20 2 45 ltac:(lia) ltac:(lia) ltac:(lia))
    as (_ & _ & _ & _ & Hprev & _).
  split; [reflexivity|]. split; [reflexivity|exact Hprev].
Defined.

(** ** The bearer token *)

Lemma trimStart_clean t : Vocab.noneOf Str.isSpace t = true -> Str.trimStart t = t.
Proof.
  destruct t as [|c r]; [reflexivity|]. cbn.
  destruct (Str.isSpace c); [discriminate|reflexivity].
Qed.

Lemma trim_clean t : Vocab.noneOf Str.isSpace t = true -> Str.trim t = t.
Proof.
  intros H. unfold Str.trim, Str.trimEnd. rewrite (trimStart_clean t H).
  rewrite trimStart_clean by now rewrite noneOf_rev.
  apply rev_involutive.
Qed.

Lemma clean_no_terminator t :
  Vocab.noneOf Str.isSpace t = true -> Server.noLineTerminator t = true.
Proof.
  induction t as [|c r IH]; [reflexivity|]. cbn [Vocab.noneOf Server.noLineTerminator].
  intros H. apply andb_true_iff in H. destruct H as [Hc Hr].
  rewrite (IH Hr), andb_true_r.
  revert Hc. destruct c as [[] [] [] [] [] [] [] []]; vm_compute; congruence.
Qed.

Lemma spaceRun_app ws t :
  Spec.allSpace ws = true -> Vocab.cleanToken t = true ->
  Server.spaceRun (ws ++ t) = String.length ws.
Proof.
  intros Hws Ht. induction ws as [|c r IH].
  - cbn. destruct t as [|c r]; [discriminate|]. cbn in *.
    destruct (Str.isSpace c); [discriminate|reflexivity].
  - cbn in *. apply andb_true_iff in Hws. destruct Hws as [Hc Hr].
    rewrite Hc. now rewrite IH.
Qed.

Lemma drop_app a b : Json.drop (String.length a) (a ++ b) = b.
Proof.
  induction a as [|c r IH]; [now destruct b|]. exact IH.
Qed.

Lemma bearer_accepts scheme ws t :
  Str.toLowerCase scheme = "bearer" ->
  ws <> EmptyString -> Spec.allSpace ws = true ->
  Vocab.cleanToken t = true ->
  Server.getBearerToken (Js.JStr (scheme ++ ws ++ t)) = Some t.
Proof.
  intros Hs Hne Hws Ht.
  destruct scheme as [|c1 [|c2 [|c3 [|c4 [|c5 [|c6 [|c7 r]]]]]]];
    cbn in Hs; try discriminate Hs.
  unfold Server.getBearerToken.
  cbn [append Str.truthy negb String.substring Json.drop].
  cbn [Str.toLowerCase].
  replace (String.substring 0 0 (ws ++ t)) with EmptyString
    by now destruct (ws ++ t)%string.
  cbn [Str.toLowerCase]. rewrite Hs.
  replace (String.eqb "bearer" "bearer") with true by reflexivity.
  rewrite (spaceRun_app ws t Hws Ht).
  destruct ws as [|c r]; [now elim Hne|].
  cbn [String.length Server.matchGroup].
  change (Json.drop (S (String.length r)) (String c r ++ t))
    with (Json.drop (String.length (String c r)) (String c r ++ t)).
  rewrite drop_app.
  unfold Vocab.cleanToken in Ht. apply andb_true_iff in Ht. destruct Ht as [Ht1 Ht2].
  rewrite Ht1, (clean_no_terminator t Ht2). cbn [andb].
  now rewrite (trim_clean t Ht2).
Qed.

(** X20. A header made of the word Bearer in any letter case, white space
    and a token without white space gives that token back; the header the
    widget sends for its stored token is one of these. *)
Theorem bearer_round_trip (scheme ws t : string) :
  Vocab.cleanToken t = true ->
  (Str.toLowerCase scheme = "bearer" ->
   ws <> EmptyString -> Spec.allSpace ws = true ->
   Server.getBearerToken (Js.JStr (scheme ++ ws ++ t)) = Some t)
  /\ Server.getBearerToken (Js.JStr (Dashboard.authorization t)) = Some t.
Proof.
  intros Ht. split.
  - intros Hs Hne Hws. now apply bearer_accepts.
  - apply (bearer_accepts "Bearer" " " t); try reflexivity; [discriminate|exact Ht].
Qed.

Lemma bearer_round_trip_witness :
  Vocab.cleanToken "jwt.1.alice" = true
  /\ Server.getBearerToken (Js.JStr "BEARER   jwt.1.alice") = Some "jwt.1.alice"
  /\ Server.getBearerToken (Js.JStr (Dashboard.authorization "jwt.1.alice"))
     = Some "jwt.1.alice".
Proof.
  pose proof (bearer_round_trip "BEARER" "   " "jwt.1.alice" eq_refl) as [H1 H2].
  split; [reflexivity|].
  split; [exact (H1 eq_refl ltac:(discriminate) eq_refl)|exact H2].
Defined.

Lemma spaceRun_split j rest :
  (j <= Server.spaceRun rest)%nat ->
  exists ws, rest = ws ++ Json.drop j rest
             /\ Spec.allSpace ws = true /\ String.length ws = j.
Proof.
  revert rest. induction j as [|j IH]; intros rest H.
  - exists EmptyString. now destruct rest.
  - destruct rest as [|c r]; [cbn in H; lia|]. cbn in H.
    destruct (Str.isSpace c) eqn:Hc; [|lia].
    destruct (IH r ltac:(lia)) as (ws & E & Hs & Hl).
    exists (String c ws). cbn. rewrite Hc, Hs, Hl. repeat split.
    now rewrite <- E.
Qed.

Lemma matchGroup_some k rest g :
  Server.matchGroup k rest = Some g ->
  exists j, (1 <= j <= k)%nat /\ g = Json.drop j rest
            /\ Str.truthy g = true /\ Server.noLineTerminator g = true.
Proof.
  induction k as [|k IH]; [discriminate|]. cbn [Server.matchGroup].
  destruct (Str.truthy (Json.drop (S k) rest)
            && Server.noLineTerminator (Json.drop (S k) rest)) eqn:E.
  - intros [= <-]. apply andb_true_iff in E. exists (S k).
    repeat split; try lia; tauto.
  - intros H. destruct (IH H) as (j & Hj & R). exists j. split; [lia|exact R].
Qed.

Lemma substring_drop n s : (String.substring 0 n s ++ Json.drop n s) = s.
Proof.
  revert s. induction n as [|n IH]; intros [|c r]; cbn; try reflexivity.
  now rewrite IH.
Qed.

(** X21. Whatever [getBearerToken] returns was read from a header that is a
    text: the word Bearer in some letter case, at least one white space
    character, and then a non-empty rest without line break, of which the
    token is the trimmed form.  A header of any other shape gives null. *)
Theorem bearer_token_shape (h : Js.Value) (t : string) :
  Server.getBearerToken h = Some t ->
  exists scheme ws g,
    h = Js.JStr (scheme ++ ws ++ g)
    /\ Str.toLowerCase scheme = "bearer"
    /\ ws <> EmptyString /\ Spec.allSpace ws = true
    /\ Str.truthy g = true /\ Server.noLineTerminator g = true
    /\ t = Str.trim g.
Proof.
  unfold Server.getBearerToken. destruct h as [| | | |s| |]; try discriminate.
  destruct (negb (Str.truthy s)); [discriminate|].
  destruct (String.eqb_spec (Str.toLowerCase (String.substring 0 6 s)) "bearer")
    as [Hs|]; [|discriminate].
  destruct (Server.matchGroup _ _) as [g|] eqn:Hm; [|discriminate].
  intros [= <-]. destruct (matchGroup_some _ _ _ Hm) as (j & Hj & Hg & Ht & Hn).
  destruct (spaceRun_split j (Json.drop 6 s) ltac:(lia)) as (ws & E & Hws & Hl).
  exists (String.substring 0 6 s), ws, g. rewrite Hg at 1. rewrite <- E.
  rewrite substring_drop. repeat split; try assumption.
  intros ->. cbn in Hl. lia.
Qed.

Lemma bearer_token_shape_witness :
  Server.getBearerToken (Js.JStr "bearer  a b ") = Some "a b"
  /\ exists scheme ws g,
       Js.JStr "bearer  a b " = Js.JStr (scheme ++ ws ++ g)
       /\ Str.toLowerCase scheme = "bearer"
       /\ ws <> EmptyString /\ Spec.allSpace ws = true
       /\ Str.truthy g = true /\ Server.noLineTerminator g = true
       /\ "a b" = Str.trim g.
Proof.
  split; [reflexivity|].
  exact (bearer_token_shape (Js.JStr "bearer  a b ") "a b" eq_refl).
Defined.

(** ** The authentication gate *)

Section GateFacts.

Variable jwt_verify : string -> string -> option Js.Value.
Variable idMatches : Js.Value -> Z -> bool.
Variable CFG : Api.Config.

Local Abbreviation requireAuth := (Server.requireAuth jwt_verify idMatches CFG).
Local Abbreviation unauthorized := (Api.sendError 401 "Unauthorized").

Lemma getUserById_run idUser w :
  Server.getUserById idMatches idUser w
  = if hd false (Api.faults w) then (Api.Throw, Spec.advance w)
    else (Api.Ok (option_map Vocab.rowById
                    (find (fun u => idMatches idUser (Api.id_user u))
                          (Api.users (Api.db w)))),
          Spec.advance w).
Proof.
  unfold Server.getUserById. destruct (hd false (Api.faults w)) eqn:E.
  - now apply poolQuery_fail.
  - rewrite (poolQuery_ok _ _ _ E).
    destruct (find _ (Api.users (Api.db w))); reflexivity.
Qed.

Lemma requireAuth_run h w token payload :
  Server.getBearerToken h = Some token -> Str.truthy token = true ->
  jwt_verify token (Api.jwtSecret CFG) = Some payload ->
  Js.truthy (Server.payloadId payload) = true ->
  requireAuth h w
  = if hd false (Api.faults w) then (Api.Throw, Spec.advance w)
    else (Api.Ok
            match find (fun u => idMatches (Server.payloadId payload) (Api.id_user u))
                       (Api.users (Api.db w)) with
            | None => inl unauthorized
            | Some x => if Api.inactive x then inl unauthorized
                        else inr (Vocab.rowById x)
            end,
          Spec.advance w).
Proof.
  intros Hb Ht Hv Hp. unfold Server.requireAuth.
  rewrite Hb, Ht, Hv, Hp. cbn [negb]. unfold Api.bind.
  rewrite getUserById_run. destruct (hd false (Api.faults w)); [reflexivity|].
  destruct (find _ (Api.users (Api.db w))) as [x|]; [|reflexivity].
  cbn [option_map]. change (Api.inactive (Vocab.rowById x)) with (Api.inactive x).
  now destruct (Api.inactive x).
Qed.

Lemma requireAuth_refuses h w :
  (forall token payload,
     Server.getBearerToken h = Some token ->
     jwt_verify token (Api.jwtSecret CFG) = Some payload ->
     Js.truthy (Server.payloadId payload) = false) ->
  requireAuth h w = (Api.Ok (inl unauthorized), w).
Proof.
  intros H. unfold Server.requireAuth.
  destruct (Server.getBearerToken h) as [token|]; [|reflexivity].
  destruct (Str.truthy token); [|reflexivity]. cbn [negb].
  destruct (jwt_verify token (Api.jwtSecret CFG)) as [payload|] eqn:Hv;
    [|reflexivity].
  now rewrite (H token payload eq_refl Hv).
Qed.

Lemma requireAuth_split h w :
  requireAuth h w = (Api.Ok (inl unauthorized), w)
  \/ exists token payload,
       Server.getBearerToken h = Some token /\ Str.truthy token = true
       /\ jwt_verify token (Api.jwtSecret CFG) = Some payload
       /\ Js.truthy (Server.payloadId payload) = true.
Proof.
  destruct (Server.getBearerToken h) as [token|] eqn:Hb.
  2: { left. apply requireAuth_refuses. intros ? ? E. rewrite Hb in E. discriminate. }
  destruct (Str.truthy token) eqn:Ht.
  2: { left. unfold Server.requireAuth. now rewrite Hb, Ht. }
  destruct (jwt_verify token (Api.jwtSecret CFG)) as [payload|] eqn:Hv.
  2: { left. apply requireAuth_refuses. intros ? ? E. rewrite Hb in E.
       injection E as <-. congruence. }
  destruct (Js.truthy (Server.payloadId payload)) eqn:Hp.
  2: { left. apply requireAuth_refuses. intros ? ? E. rewrite Hb in E.
       injection E as <-. congruence. }
  right. now exists token, payload.
Qed.

(** X22. A request whose header carries no bearer token, a token that does
    not verify, or a verified payload without a user id, is answered 401
    Unauthorized before the store is asked anything, and the handler of the
    route does not run. *)
Theorem gate_refuses_unverified (A : Type) (h : Js.Value)
        (handler : Api.UserRow -> Api.M A) (w : Api.World) :
  (forall token payload,
     Server.getBearerToken h = Some token ->
     jwt_verify token (Api.jwtSecret CFG) = Some payload ->
     Js.truthy (Server.payloadId payload) = false) ->
  requireAuth h w = (Api.Ok (inl unauthorized), w)
  /\ Server.authenticated jwt_verify idMatches CFG h handler w
     = (Api.Ok (inl unauthorized), w).
Proof.
  intros H. split; [now apply requireAuth_refuses|].
  unfold Server.authenticated, Api.bind. now rewrite (requireAuth_refuses h w H).
Qed.

(** X23. The gate only reads: it leaves the tables and the clock as they
    were.  Every refusal is the same 401; and the user it lets through is a
    stored row that is not inactive, whose id the store matched with the id
    of a payload verified under the secret, and carries neither credential
    column. *)
Theorem gate_sound (h : Js.Value) (w : Api.World) :
  let out := requireAuth h w in
  Api.db (snd out) = Api.db w /\ Api.clock (snd out) = Api.clock w
  /\ match fst out with
     | Api.Throw => True
     | Api.Ok (inl reply) => reply = unauthorized
     | Api.Ok (inr u) =>
         exists token payload x,
           Server.getBearerToken h = Some token
           /\ jwt_verify token (Api.jwtSecret CFG) = Some payload
           /\ In x (Api.users (Api.db w))
           /\ idMatches (Server.payloadId payload) (Api.id_user x) = true
           /\ Api.inactive x = false
           /\ u = Vocab.rowById x
           /\ Api.password u = None /\ Api.password_hash u = None
     end.
Proof.
  cbv zeta. destruct (requireAuth_split h w) as [E|(token & payload & Hb & Ht & Hv & Hp)].
  - rewrite E. cbn. repeat split.
  - rewrite (requireAuth_run h w token payload Hb Ht Hv Hp).
    destruct (hd false (Api.faults w)); [cbn; repeat split|].
    cbn [fst snd Spec.advance Api.db Api.clock]. repeat split.
    destruct (find _ (Api.users (Api.db w))) as [x|] eqn:Hf; [|reflexivity].
    destruct (Api.inactive x) eqn:Hi; [reflexivity|].
    apply find_some in Hf. destruct Hf as [Hin Hm].
    exists token, payload, x. repeat split; assumption.
Qed.

(** X24. The two hooks of the write routes answer every request but those
    of a verified, stored, active user whom the role check accepts; what
    they answer is 401 or, for a verified user without a write role, 403;
    and they leave the tables as they were. *)
Theorem write_routes_guarded (h : Js.Value) (w : Api.World) :
  let out := Server.writeHooks jwt_verify idMatches CFG h w in
  Api.db (snd out) = Api.db w
  /\ match fst out with
     | Api.Throw => True
     | Api.Ok (inl reply) =>
         reply = unauthorized
         \/ (reply = Api.sendError 403 "Forbidden"
             /\ exists u, fst (requireAuth h w) = Api.Ok (inr u)
                          /\ Api.hasWriteRole CFG (Some u) = false)
     | Api.Ok (inr u) =>
         Api.hasWriteRole CFG (Some u) = true
         /\ exists token payload x,
              Server.getBearerToken h = Some token
              /\ jwt_verify token (Api.jwtSecret CFG) = Some payload
              /\ In x (Api.users (Api.db w))
              /\ idMatches (Server.payloadId payload) (Api.id_user x) = true
              /\ Api.inactive x = false
              /\ u = Vocab.rowById x
     end.
Proof.
  cbv zeta. unfold Server.writeHooks, Api.bind.
  destruct (requireAuth_split h w) as [E|(token & payload & Hb & Ht & Hv & Hp)].
  - rewrite E. cbn. split; [reflexivity|now left].
  - rewrite (requireAuth_run h w token payload Hb Ht Hv Hp).
    destruct (hd false (Api.faults w)); [cbn; now split|].
    destruct (find _ (Api.users (Api.db w))) as [x|] eqn:Hf;
      [|cbn; split; [reflexivity|now left]].
    destruct (Api.inactive x) eqn:Hi; [cbn; split; [reflexivity|now left]|].
    apply find_some in Hf. destruct Hf as [Hin Hm].
    unfold Server.requireWrite.
    destruct (Api.hasWriteRole CFG (Some (Vocab.rowById x))) eqn:Hr;
      cbn [negb fst snd Api.ret Spec.advance Api.db]; (split; [reflexivity|]).
    + split; [exact Hr|]. now exists token, payload, x.
    + right. split; [reflexivity|]. now exists (Vocab.rowById x).
Qed.

End GateFacts.

Lemma gate_refuses_unverified_witness :
  Server.me Examples.verify Examples.sameId Sample.CFG
            (Js.JStr "Bearer jwt.2.mallory") Examples.loggedIn
  = (Api.Ok (inl (Api.sendError 401 "Unauthorized")), Examples.loggedIn).
Proof.
  refine (proj2 (gate_refuses_unverified Examples.verify Examples.sameId
                   Sample.CFG Api.PublicUser (Js.JStr "Bearer jwt.2.mallory")
                   (fun u => Api.ret (Api.publicUser u)) Examples.loggedIn _)).
  intros token payload Hb Hv. injection Hb as <-. discriminate Hv.
Defined.

(** ** From the login to the gate *)

Lemma find_map_same {A} (p : A -> bool) (g : A -> A) l :
  (forall x, p (g x) = p x) -> find p (map g l) = option_map g (find p l).
Proof.
  intros H. induction l as [|a l IH]; [reflexivity|]. cbn. rewrite H.
  now destruct (p a).
Qed.

Lemma find_same {A} (p q : A -> bool) l :
  (forall x, p x = q x) -> find p l = find q l.
Proof.
  intros H. induction l as [|a l IH]; [reflexivity|]. cbn. now rewrite H, IH.
Qed.

Lemma find_key {A} (f : A -> Z) (l : list A) u :
  NoDup (map f l) -> In u l -> find (fun x => f x =? f u) l = Some u.
Proof.
  intros Hnd Hin. destruct (find (fun x => f x =? f u) l) as [x|] eqn:E.
  - apply find_some in E. destruct E as [Hx Hf]. apply Z.eqb_eq in Hf.
    f_equal. exact (nodup_key _ f l x u Hnd Hx Hin Hf).
  - apply (find_none _ _ E) in Hin. now rewrite Z.eqb_refl in Hin.
Qed.

Lemma login_row_id bcrypt_hash CFG HAS u pw now id x :
  Api.id_user (Spec.touchRow now id (Vocab.migrationRow bcrypt_hash CFG HAS u pw x))
  = Api.id_user x.
Proof. row_cases; reflexivity. Qed.

(** X25. The session a login hands out opens the gate: when the token
    verifies under the secret with the user's id as its subject, the header
    the widget builds from it makes [GET /auth/me] answer with the user of
    the session, [last_login] now being the time of that login. *)
Theorem session_opens_gate
        (bcrypt_compare : string -> string -> option bool)
        (bcrypt_hash : string -> Z -> string)
        (jwt_sign : Z -> string -> string -> string -> string)
        (jwt_verify : string -> string -> option Js.Value)
        (idMatches : Js.Value -> Z -> bool)
        (CFG : Api.Config) (HAS : bool)
        (req : Api.LoginRequest) (w w' : Api.World)
        (tok : string) (pu : Api.PublicUser) (payload : Js.Value) :
  Api.serve (Api.login bcrypt_compare bcrypt_hash jwt_sign CFG HAS req) w
  = (Api.send (Api.Session tok pu), w') ->
  NoDup (map Api.id_user (Api.users (Api.db w))) ->
  Vocab.cleanToken tok = true ->
  jwt_verify tok (Api.jwtSecret CFG) = Some payload ->
  Server.payloadId payload = Vocab.idValue (Api.pu_id_user pu) ->
  Api.pu_id_user pu <> 0 ->
  (forall x, idMatches (Vocab.idValue (Api.pu_id_user pu)) x
             = (x =? Api.pu_id_user pu)) ->
  hd false (Api.faults w') = false ->
  Server.me jwt_verify idMatches CFG (Js.JStr (Dashboard.authorization tok)) w'
  = (Api.Ok (inr {| Api.pu_id_user := Api.pu_id_user pu;
                    Api.pu_username := Api.pu_username pu;
                    Api.pu_roles := Api.pu_roles pu;
                    Api.pu_last_login := Some (Api.clock w);
                    Api.pu_is_active := Api.pu_is_active pu |}),
     Spec.advance w').
Proof.
  intros Hlogin Hnd Hclean Hv Hsub Hid Hm Hf.
  pose proof (login_effect bcrypt_compare bcrypt_hash jwt_sign CFG HAS req w) as He.
  cbv zeta in He. rewrite Hlogin in He. cbn [fst snd] in He.
  destruct He as [[_ Hs]|(u & pw & Ha & Hok & [[_ Hs]|[Hdb Hr]])];
    try (now elim Hs).
  injection Hr as Htok Hpu.
  assert (Hin : In u (Api.users (Api.db w))).
  { destruct Ha as (raw & _ & _ & _ & _ & Hfind & _).
    now apply find_some in Hfind. }
  assert (Hact : Api.inactive u = false)
    by (destruct Ha as (? & ? & ? & ? & ? & ? & ? & ?); assumption).
  assert (Hpid : Api.pu_id_user pu = Api.id_user u)
    by (rewrite Hpu; now destruct HAS).
  pose proof (bearer_accepts "Bearer" " " tok eq_refl ltac:(discriminate) eq_refl
                Hclean) as Hb.
  change ("Bearer" ++ " " ++ tok)%string with (Dashboard.authorization tok) in Hb.
  assert (Ht : Str.truthy tok = true).
  { unfold Vocab.cleanToken in Hclean. now apply andb_true_iff in Hclean. }
  assert (Hp : Js.truthy (Server.payloadId payload) = true).
  { rewrite Hsub. cbn. destruct (Z.eqb_spec (Api.pu_id_user pu) 0); [contradiction|].
    reflexivity. }
  unfold Server.me, Server.authenticated, Api.bind.
  rewrite (requireAuth_run jwt_verify idMatches CFG _ w' tok payload Hb Ht Hv Hp).
  rewrite Hf, Hdb, Hsub. cbn [Api.setUsers Api.users].
  rewrite (find_same _ (fun x => Api.id_user x =? Api.pu_id_user pu) _
             (fun x => Hm (Api.id_user x))), Hpid.
  rewrite find_map_same.
  2: { intros x. now rewrite login_row_id. }
  rewrite (find_key Api.id_user _ u Hnd Hin). cbn [option_map].
  set (g := Spec.touchRow (Api.clock w) (Api.id_user u)
              (Vocab.migrationRow bcrypt_hash CFG HAS u pw u)).
  assert (Hg : Api.id_user g = Api.id_user u /\ Api.username g = Api.username u
               /\ Api.roles g = Api.roles u /\ Api.is_active g = Api.is_active u
               /\ Api.last_login g = Some (Api.clock w)).
  { unfold g. unfold Spec.touchRow.
    replace (Api.id_user (Vocab.migrationRow bcrypt_hash CFG HAS u pw u))
      with (Api.id_user u) by (row_cases; reflexivity).
    rewrite Z.eqb_refl. cbn. row_cases; repeat split. }
  destruct Hg as (G1 & G2 & G3 & G4 & G5).
  replace (Api.inactive g) with (Api.inactive u)
    by (unfold Api.inactive; now rewrite G4).
  rewrite Hact. unfold Api.ret. cbn [fst snd]. f_equal. f_equal. f_equal.
  unfold Api.publicUser, Vocab.rowById. cbn. rewrite G1, G2, G3, G4, G5, Hpu.
  now destruct HAS.
Qed.

Lemma session_opens_gate_witness :
  Api.serve (Api.login Sample.compare Sample.hash Sample.sign Sample.CFG true
                       Sample.aliceLogin) (Sample.world Sample.usersDb [])
  = (Api.send (Api.Session "jwt.1.alice" (Api.publicUser Sample.alice)),
     Examples.loggedIn)
  /\ Server.me Examples.verify Examples.sameId Sample.CFG
               (Js.JStr (Dashboard.authorization "jwt.1.alice")) Examples.loggedIn
     = (Api.Ok (inr {| Api.pu_id_user := 1; Api.pu_username := "alice";
                       Api.pu_roles := Js.JStr "admin";
                       Api.pu_last_login := Some 1700000000;
                       Api.pu_is_active := Some 1 |}),
        Spec.advance Examples.loggedIn).
Proof.
  assert (Hlogin :
    Api.serve (Api.login Sample.compare Sample.hash Sample.sign Sample.CFG true
                         Sample.aliceLogin) (Sample.world Sample.usersDb [])
    = (Api.send (Api.Session "jwt.1.alice" (Api.publicUser Sample.alice)),
       Examples.loggedIn)) by reflexivity.
  assert (Hnd : NoDup (map Api.id_user
                 (Api.users (Api.db (Sample.world Sample.usersDb []))))).
  { cbn. constructor; [intros []|constructor]. }
  assert (Hm : forall x, Examples.sameId (Vocab.idValue 1) x = (x =? 1)).
  { intros x. unfold Examples.sameId, Vocab.idValue, Qeq_bool. cbn.
    rewrite Z.mul_1_r. destruct x as [|[p|p|]|p]; reflexivity. }
  split; [exact Hlogin|].
  exact (session_opens_gate Sample.compare Sample.hash Sample.sign
           Examples.verify Examples.sameId Sample.CFG true Sample.aliceLogin
           (Sample.world Sample.usersDb []) Examples.loggedIn "jwt.1.alice"
           (Api.publicUser Sample.alice)
           (Js.JObj [("sub", Js.JNum (Js.Fin 1)); ("username", Js.JStr "alice")])
           Hlogin Hnd eq_refl eq_refl eq_refl ltac:(discriminate) Hm eq_refl).
Defined.

(** ** The statements of the catalogue routes *)

Lemma placeholders_app a b :
  Vocab.placeholders (a ++ b)
  = (Vocab.placeholders a + Vocab.placeholders b)%nat.
Proof.
  induction a as [|c r IH]; [reflexivity|]. cbn. rewrite IH. lia.
Qed.

Lemma join_cons sep x r :
  r <> [] -> Catalog.join sep (x :: r) = x ++ sep ++ Catalog.join sep r.
Proof. destruct r; [intros H; now elim H|reflexivity]. Qed.

Lemma placeholders_marks cols :
  Forall (fun c => Vocab.placeholders c = O) cols ->
  Vocab.placeholders
    (Catalog.join ", " (app (map (fun c => c ++ " = ?") cols)
                            ["last_updated = NOW()"; "is_synced = 0"]))
  = List.length cols.
Proof.
  induction 1 as [|c cols Hc _ IH]; [reflexivity|].
  cbn [map app List.length]. rewrite join_cons.
  2: { destruct cols; discriminate. }
  rewrite !placeholders_app, IH, Hc. reflexivity.
Qed.

Lemma placeholders_update table key cols :
  Vocab.placeholders table = O -> Vocab.placeholders key = O ->
  Forall (fun c => Vocab.placeholders c = O) cols ->
  Vocab.placeholders (Vocab.updateText table key cols) = S (List.length cols).
Proof.
  intros Ht Hk Hc. unfold Vocab.updateText.
  rewrite !placeholders_app, (placeholders_marks cols Hc), Ht, Hk. cbn. lia.
Qed.

Lemma step_text b c f cols st :
  Vocab.textColumn c = true -> Vocab.marked cols st ->
  Vocab.marked (app cols (filter (Vocab.given b) [c]))
    (Catalog.whenString (Server.prop c b)
       (fun s => Catalog.setField c (f s)) st).
Proof.
  intros Hc [Hf Hv]. unfold Vocab.given, Catalog.whenString, Vocab.marked.
  cbn [filter]. rewrite Hc.
  destruct (Server.prop c b); cbn [negb app]; rewrite ?app_nil_r;
    try (split; assumption).
  unfold Catalog.setField. cbn [fst snd].
  rewrite Hf, map_app, !length_app, Hv. split; reflexivity.
Qed.

Lemma step_value b c f cols st :
  Vocab.textColumn c = false -> Vocab.marked cols st ->
  Vocab.marked (app cols (filter (Vocab.given b) [c]))
    (Catalog.whenDefined (Server.prop c b)
       (fun v => Catalog.setField c (f v)) st).
Proof.
  intros Hc [Hf Hv]. unfold Vocab.given, Catalog.whenDefined, Vocab.marked.
  cbn [filter]. rewrite Hc.
  destruct (Server.prop c b); cbn [negb app]; rewrite ?app_nil_r;
    try (split; assumption);
    unfold Catalog.setField; cbn [fst snd];
    rewrite Hf, map_app, !length_app, Hv; split; reflexivity.
Qed.


Lemma columns_plain b l :
  Forall (fun c => Vocab.placeholders c = O) l ->
  Forall (fun c => Vocab.placeholders c = O) (filter (Vocab.given b) l).
Proof.
  intros H. apply Forall_forall. intros c Hc. apply filter_In in Hc.
  rewrite Forall_forall in H. now apply H.
Qed.


Lemma offerSets_marked b :
  let cols := filter (Vocab.given b) Vocab.offerColumns in
  Catalog.offerSets b
  = (match cols with
     | [] => []
     | _ => app (map (fun c => c ++ " = ?") cols)
                ["last_updated = NOW()"; "is_synced = 0"]
     end,
     snd (Catalog.offerSets b))
  /\ List.length (snd (Catalog.offerSets b)) = List.length cols.
Proof.
  cbv zeta.
  assert (H : Vocab.marked (filter (Vocab.given b) Vocab.offerColumns)
    (Catalog.whenDefined (Server.prop "price" b)
       (fun v => Catalog.setField "price" (Catalog.numberOrNull v))
       (Catalog.whenDefined (Server.prop "quantity" b)
          (fun v => Catalog.setField "quantity" (Catalog.numberOrNull v))
          (Catalog.whenString (Server.prop "name" b)
             (fun s => Catalog.setField "name" (Catalog.SqlText (Str.trim s)))
             ([], []))))).
  { change Vocab.offerColumns
      with ((([] ++ ["name"]) ++ ["quantity"]) ++ ["price"])%list.
    rewrite !filter_app.
    do 2 (apply step_value; [reflexivity|]).
    apply (step_text b _ (fun s => Catalog.SqlText _)); [reflexivity|].
    split; reflexivity. }
  unfold Catalog.offerSets.
  change (fun (s : string) (st : Catalog.Sets) =>
            (app (fst st) ["name = ?"],
             app (snd st) [Catalog.SqlText (Str.trim s)]))
    with (fun s => Catalog.setField "name" (Catalog.SqlText (Str.trim s))).
  change (fun (v : Js.Value) (st : Catalog.Sets) =>
            (app (fst st) ["quantity = ?"],
             app (snd st) [Catalog.numberOrNull v]))
    with (fun v => Catalog.setField "quantity" (Catalog.numberOrNull v)).
  change (fun (v : Js.Value) (st : Catalog.Sets) =>
            (app (fst st) ["price = ?"],
             app (snd st) [Catalog.numberOrNull v]))
    with (fun v => Catalog.setField "price" (Catalog.numberOrNull v)).
  destruct H as [Hf Hv]. revert Hf Hv.
  generalize (filter (Vocab.given b) Vocab.offerColumns) as cols.
  match goal with |- context [fst ?x] => generalize x end.
  intros [fields values] cols. cbn [fst snd]. intros -> Hv.
  destruct cols; cbn; split; auto.
Qed.

(** X27. [PATCH /offers/:id] sends no [UPDATE] when the body gives none of
    the three columns, whatever it does with the product ids; and else one
    that sets the columns given and the two stamps, with as many
    placeholders as values are bound, the id being bound last. *)
Theorem patch_offer_statement (id : Z) (body : Js.Value) :
  let cols := filter (Vocab.given (Catalog.bodyOf body)) Vocab.offerColumns in
  match Catalog.offerUpdate id body with
  | None => cols = []
  | Some (sql, values) =>
      cols <> []
      /\ sql = Vocab.updateText "product_offers" "id_offer" cols
      /\ Vocab.placeholders sql = List.length values
      /\ last values Catalog.SqlNull = Catalog.SqlNum (Js.Fin (inject_Z id))
  end.
Proof.
  cbv zeta. unfold Catalog.offerUpdate.
  destruct (offerSets_marked (Catalog.bodyOf body)) as [E Hv].
  cbv zeta in E. rewrite E. clear E.
  set (cols := filter _ Vocab.offerColumns) in *.
  set (values := snd _) in *.
  assert (Hplain : Forall (fun c => Vocab.placeholders c = O) cols)
    by (apply columns_plain; repeat constructor).
  destruct cols as [|c cols]; [reflexivity|].
  cbn [List.length map app Nat.eqb negb].
  split; [discriminate|]. split; [reflexivity|]. split.
  - change (Vocab.placeholders
              (Vocab.updateText "product_offers" "id_offer" (c :: cols))
            = List.length (app values [Catalog.SqlNum (Js.Fin (inject_Z id))])).
    rewrite placeholders_update; try reflexivity; [|exact Hplain].
    rewrite length_app, Hv. cbn. lia.
  - apply last_last.
Qed.

(** X28. [POST /products] and [POST /offers] insert no row with a blank
    name: a body without a name, or with one that is no text or only white
    space, is answered 400; the name bound is else the trimmed one, not
    empty and without white space around it; and as many values are bound
    as the statement has placeholders. *)
Theorem created_names_not_blank (body : Js.Value) :
  let name := Catalog.trimmedOrEmpty (Server.prop "name" (Catalog.bodyOf body)) in
  name = Str.trim name
  /\ match Catalog.postProduct body with
     | inl reply => name = EmptyString /\ reply = Api.sendError 400 "Missing name"
     | inr values =>
         name <> EmptyString
         /\ nth 2 values Catalog.SqlNull = Catalog.SqlText name
         /\ List.length values = Vocab.placeholders Catalog.insertProductText
     end
  /\ match Catalog.postOffer body with
     | inl reply => name = EmptyString /\ reply = Api.sendError 400 "Missing name"
     | inr (values, _) =>
         name <> EmptyString
         /\ nth 0 values Catalog.SqlNull = Catalog.SqlText name
         /\ List.length values = Vocab.placeholders Catalog.insertOfferText
     end.
Proof.
  cbv zeta. unfold Catalog.postProduct, Catalog.postOffer.
  set (name := Catalog.trimmedOrEmpty _). split; [|split].
  - unfold name, Catalog.trimmedOrEmpty.
    destruct (Server.prop "name" _); try reflexivity. symmetry. apply trim_idem.
  - destruct name; cbn [Str.truthy negb]; [now split|].
    repeat split. discriminate.
  - destruct name; cbn [Str.truthy negb]; [now split|].
    repeat split. discriminate.
Qed.

(** ** The summary: what it answers besides the figures *)

(** X29. [GET /dashboard/summary] changes no table whatever it answers; a
    range that does not resolve is answered 400 before the store is asked
    anything; and when the store fails the read, the answer is the masked
    500. *)
Theorem summary_reads_only (inRange : Api.SqlRange -> Api.SaleRow -> bool)
        (q : Api.Query) (w : Api.World) :
  let out := Api.serve (Api.summary inRange q) w in
  Api.db (snd out) = Api.db w
  /\ (Api.rangeToSql (Api.q_from q) (Api.q_to q) = None ->
      out = (Api.sendError 400 "Invalid from/to (expected YYYY-MM-DD)", w))
  /\ (Api.rangeToSql (Api.q_from q) (Api.q_to q) <> None ->
      hd false (Api.faults w) = true ->
      out = (Api.sendError 500 "Server error", Spec.advance w)).
Proof.
  cbv zeta. unfold Api.summary, Api.serve.
  destruct (Api.rangeToSql (Api.q_from q) (Api.q_to q)) as [r|].
  - destruct w as [d t c fs].
    unfold Api.bind, Api.kpiQuery, Api.profitQuery, Api.seriesQuery,
      Api.topProductsQuery, Api.topOffersQuery, Api.poolQuery, Api.statement,
      Api.ret, Spec.advance.
    destruct fs as [|[] [|[] [|[] [|[] [|[] fs]]]]];
      cbn [Api.faults Api.db Api.clock Api.tx hd tl];
      try destruct (Api.kpiScan inRange r (Api.sales d) None 0);
      (split; [reflexivity|]);
      (split; [discriminate|]);
      intros _ H; first [discriminate H | reflexivity].
  - cbn. repeat split. intros H. now elim H.
Qed.

Lemma summary_reads_only_witness :
  Api.serve (Api.summary Sample.between Examples.badQuery)
            (Sample.world Sample.salesDb [])
  = (Api.sendError 400 "Invalid from/to (expected YYYY-MM-DD)",
     Sample.world Sample.salesDb [])
  /\ Api.serve (Api.summary Sample.between Sample.januaryQuery)
               (Sample.world Sample.salesDb [true])
     = (Api.sendError 500 "Server error",
        Spec.advance (Sample.world Sample.salesDb [true])).
Proof.
  split.
  - exact (proj1 (proj2 (summary_reads_only Sample.between Examples.badQuery
                           (Sample.world Sample.salesDb []))) eq_refl).
  - exact (proj2 (proj2 (summary_reads_only Sample.between Sample.januaryQuery
                           (Sample.world Sample.salesDb [true])))
             ltac:(discriminate) eq_refl).
Defined.
